(** * Complement Naive Bayes and the creme-to-sklearn adapters

  A shallow embedding of [river/naive_bayes/complement.py] and
  [creme/compat/creme_to_sklearn.py], and the properties of the
  specification stated against it.

  Conventions of the embedding.
  - Python dictionaries and [collections.Counter]s are finite maps
    ([gmap]); the insertion order of a dict is not represented, a loop
    over a dict visits the entries in the order of [map_to_list].
  - Frequencies and counts are exact integers ([Z]); the quotient computed
    by [p_class] is an exact rational ([Q], kept reduced), and logarithms
    are real numbers ([R]).  Floating-point rounding is not represented.
    The sums pandas and numpy take over the table of a batch are [int64]
    sums, which wrap around; the counters hold Python integers, which do
    not.
  - A Python exception is a [Raise] result; a method that may mutate
    [self] is a function from the state to a result and a new state. *)

From Stdlib Require Import ZArith QArith Qreduction Qreals Reals Lra Lia.
From stdpp Require Import gmap strings list fin_maps sorting.

Open Scope Z_scope.

(** ** Python results and exceptions *)

Module Py.

Inductive exn : Type :=
| ZeroDivisionError
| ValueError
| KeyError
| AttributeError
| NotFittedError
| NonFinite.
(* [NonFinite] stands for a numpy computation that yields [inf] or [nan]
   with a warning; such values have no counterpart among exact reals. *)

Inductive result (A : Type) : Type :=
| Ok (a : A)
| Raise (e : exn).
Arguments Ok {A} a.
Arguments Raise {A} e.

#[global] Instance exn_eq_dec : EqDecision exn.
Proof. solve_decision. Defined.

#[global] Instance result_ret : MRet result := fun A a => Ok a.
#[global] Instance result_bind : MBind result :=
  fun A B f r => match r with Ok a => f a | Raise e => Raise e end.

(** [a / b] on Python integers: a float, or [ZeroDivisionError]. *)
Definition truediv (a b : Z) : result Q :=
  if decide (b = 0) then Raise ZeroDivisionError
  else Ok (Qred (inject_Z a / inject_Z b)).

(** [math.log]: [ValueError] outside the domain. *)
Definition math_log (q : Q) : result R :=
  if Qle_bool q 0 then Raise ValueError else Ok (ln (Q2R q)).

(** [sum(...)]: left to right, starting from 0. *)
Definition sum (l : list Z) : Z := fold_left Z.add l 0.
Definition fsum (l : list R) : R := fold_left Rplus l 0%R.

(** [c[k]] on a [collections.Counter]: a missing key reads as 0 and is
    not stored. *)
Definition Counter_getitem (k : string) (c : gmap string Z) : Z :=
  match c !! k with Some v => v | None => 0 end.

(** [d.get(k, default)]. *)
Definition dict_get {V : Type} (k : string) (dflt : V) (d : gmap string V) : V :=
  match d !! k with Some v => v | None => dflt end.

(** [Counter.update(mapping)]: adds the counts, key by key. *)
Definition Counter_update (mapping : gmap string Z) (c : gmap string Z)
  : gmap string Z :=
  fold_left (fun c '(elem, count) => <[elem := count + dict_get elem 0 c]> c)
            (map_to_list mapping) c.

(** [dict.update(mapping)]: replaces the values, key by key. *)
Definition dict_update {V : Type} (mapping : gmap string V) (d : gmap string V)
  : gmap string V :=
  fold_left (fun d '(k, v) => <[k := v]> d) (map_to_list mapping) d.

(** [Counter.update(iterable)]: counts the elements. *)
Definition Counter_update_elements (elems : list string) (c : gmap string Z)
  : gmap string Z :=
  fold_left (fun c elem => <[elem := dict_get elem 0 c + 1]> c) elems c.

(** [enumerate(l)] *)
Definition enumerate {A : Type} (l : list A) : list (nat * A) :=
  zip (seq 0 (length l)) l.

(** A sum of [int64] values, as numpy and pandas take it over an integer
    array: it wraps around, so the result is the exact sum brought back
    into the 64 bits. *)
Definition int64 (z : Z) : Z := (z + 2 ^ 63) mod 2 ^ 64 - 2 ^ 63.

(** The keys of a dict, as a loop over it yields them. *)
Definition keys {V : Type} (d : gmap string V) : list string :=
  map fst (map_to_list d).

End Py.
Import Py.

(** ** The pandas operations used by [ComplementNB]

    A [DataFrame] is a table with row labels ([index]), column labels
    ([columns]) and a list of rows ([values]).  The labels of a frame are
    taken to be distinct and [values] to be rectangular of the shape the
    labels give; the operations below are the pandas ones on such frames.
    An operand written [other.values] in the source is passed as the frame
    [other], of which only the shape and the values are used.  The table
    given to [learn_many] holds [int64] values, and the sums over it are
    [int64] sums. *)

Module pd.

Record DataFrame (A : Type) : Type := mkDF {
  index : list string;
  columns : list string;
  values : list (list A)
}.
Arguments mkDF {A} index columns values.
Arguments index {A} d.
Arguments columns {A} d.
Arguments values {A} d.

Definition shape {A : Type} (df : DataFrame A) : nat * nat :=
  (length (index df), length (columns df)).

(** [dict(zip(labels, row))] *)
Definition zip_dict {A : Type} (labels : list string) (row : list A)
  : gmap string A :=
  list_to_map (zip labels row).

(** [pd.DataFrame.from_dict(d, orient="index")] for a dict of scalars: one
    row per key, a single column labelled 0; the empty dict gives the
    empty frame. *)
Definition from_dict_index (items : list (string * Z)) : DataFrame Z :=
  mkDF (map fst items)
       (match items with [] => [] | _ => ["0"%string] end)
       (map (fun kv => [snd kv]) items).

(** [pd.DataFrame(d)] for a dict of dicts: one column per outer key, one row
    per inner key, [None] (NaN) where an inner dict has no entry. *)
Definition from_dicts (d : gmap string (gmap string Z)) : DataFrame (option Z) :=
  let cols := keys d in
  let idx := elements (map_fold (fun _ i acc => dom i ∪ acc) (∅ : gset string) d) in
  mkDF idx cols
       (map (fun c => map (fun f => dict_get f ∅ d !! c) cols) idx).

(** [df.fillna(v)] *)
Definition fillna (v : Z) (df : DataFrame (option Z)) : DataFrame Z :=
  mkDF (index df) (columns df) (map (map (default v)) (values df)).

(** [df.T] *)
Definition T (df : DataFrame Z) : DataFrame Z :=
  mkDF (columns df) (index df)
       (map (fun j => map (fun row => nth j row 0) (values df))
            (seq 0 (length (columns df)))).

(** Position of a label among the column labels. *)
Definition get_loc (label : string) (labels : list string) : result nat :=
  match list_find (fun l => l = label) labels with
  | Some (j, _) => Ok j
  | None => Raise KeyError
  end.

(** [df[labels]]: the columns of these labels, [KeyError] when one is
    missing. *)
Definition getitem (df : DataFrame Z) (labels : list string)
  : result (DataFrame Z) :=
  js ← mapM (fun l => get_loc l (columns df)) labels;
  mret (mkDF (index df) labels
             (map (fun row => map (fun j => nth j row 0) js) (values df))).

(** [df[labels] = v] for labels that are not columns of [df] yet: the new
    columns are appended. *)
Definition setitem (df : DataFrame Z) (labels : list string) (v : Z)
  : DataFrame Z :=
  mkDF (index df) (columns df ++ labels)
       (map (fun row => row ++ replicate (length labels) v) (values df)).

(** [df.sort_index()]: rows ordered by their labels. *)
Definition sort_index (df : DataFrame Z) : DataFrame Z :=
  let rows :=
    merge_sort (fun a b : string * list Z => String.leb (fst a) (fst b))
               (zip (index df) (values df)) in
  mkDF (map fst rows) (columns df) (map snd rows).

(** How pandas makes a two-dimensional array operand fit a frame: same
    shape, or one column broadcast across the columns, or one row
    broadcast along the rows; [ValueError] otherwise. *)
Definition align (left right : DataFrame Z) : result (list (list Z)) :=
  let '(r, n) := shape left in
  let '(r', n') := shape right in
  if decide (r' = r /\ n' = n) then Ok (values right)
  else if decide (r' = r /\ n' = 1%nat)
  then Ok (map (fun row => replicate n (hd 0 row)) (values right))
  else if decide (n' = n /\ r' = 1%nat)
  then Ok (replicate r (hd [] (values right)))
  else Raise ValueError.

(** [df.subtract(other.values)] *)
Definition subtract (df other : DataFrame Z) : result (DataFrame Z) :=
  o ← align df other;
  mret (mkDF (index df) (columns df) (zip_with (zip_with Z.sub) (values df) o)).

(** [-df + 1] *)
Definition neg_add (df : DataFrame Z) (k : Z) : DataFrame Z :=
  mkDF (index df) (columns df) (map (map (fun v => - v + k)) (values df)).

(** Element-wise true division; dividing by 0 gives [inf] or [nan]. *)
Definition div_elem (a b : Z) : result Q :=
  if decide (b = 0) then Raise NonFinite
  else Ok (Qred (inject_Z a / inject_Z b)).

(** [df.divide(other.values)] *)
Definition divide (df other : DataFrame Z) : result (DataFrame Q) :=
  o ← align df other;
  vs ← mapM (fun '(row, orow) => mapM (fun '(a, b) => div_elem a b) (zip row orow))
            (zip (values df) o);
  mret (mkDF (index df) (columns df) vs).

(** [-1 * np.log(v)]; the logarithm of a non-positive number is [-inf] or
    [nan]. *)
Definition neg_log_elem (q : Q) : result R :=
  if Qle_bool q 0 then Raise NonFinite else Ok (-1 * ln (Q2R q))%R.

(** [-1 * np.log(df)] *)
Definition neg_log (df : DataFrame Q) : result (DataFrame R) :=
  vs ← mapM (mapM neg_log_elem) (values df);
  mret (mkDF (index df) (columns df) vs).

(** [X @ W.values.T], with the columns then labelled by [W.index]: row [i]
    of the result holds, for each row [w] of [W], the dot product of row
    [i] of [X] with [w], taken by position.  [ValueError] when the numbers
    of columns differ. *)
Definition matmul_T (X : DataFrame Z) (W : DataFrame R) : result (DataFrame R) :=
  if decide (length (columns X) = length (columns W))
  then Ok (mkDF (index X) (index W)
             (map (fun row =>
                     map (fun w => fsum (zip_with Rmult (map IZR row) w)) (values W))
                  (values X)))
  else Raise ValueError.

(** [X.sum(axis="rows").to_dict()]: the sum of each column. *)
Definition sum_rows (X : DataFrame Z) : gmap string Z :=
  zip_dict (columns X)
    (map (fun j => int64 (sum (map (fun row => nth j row 0) (values X))))
         (seq 0 (length (columns X)))).

(** [df.sum(axis="columns").to_dict()]: the sum of each row. *)
Definition sum_columns (df : DataFrame Z) : gmap string Z :=
  zip_dict (index df) (map (fun row => int64 (sum row)) (values df)).

(** [df.to_dict(orient="index")]: each row as a dict over the columns. *)
Definition to_dict_index (df : DataFrame Z) : gmap string (gmap string Z) :=
  zip_dict (index df) (map (zip_dict (columns df)) (values df)).

(** [y.value_counts().to_dict()] *)
Definition value_counts (y : list string) : gmap string Z :=
  Counter_update_elements y ∅.

End pd.

(** ** [river/naive_bayes/complement.py] *)

Module complement.
Import pd.

(** A value of [feature_counts]: a [collections.Counter] when it was made
    by the [defaultdict] factory, a plain [dict] when it was stored by
    [learn_many].  The two differ in what [update] does. *)
Inductive inner : Type :=
| ICounter (m : gmap string Z)
| IDict (m : gmap string Z).

Definition inner_items (i : inner) : gmap string Z :=
  match i with ICounter m => m | IDict m => m end.

(** [i.update({y: v})] *)
Definition inner_update (y : string) (v : Z) (i : inner) : inner :=
  match i with
  | ICounter m => ICounter (Counter_update {[y := v]} m)
  | IDict m => IDict (dict_update {[y := v]} m)
  end.

Record ComplementNB : Type := mkNB {
  alpha : Q;
  class_counts : gmap string Z;
  feature_counts : gmap string inner;
  feature_totals : gmap string Z;
  class_totals : gmap string Z
}.

(** [__init__] *)
Definition init (alpha : Q) : ComplementNB := mkNB alpha ∅ ∅ ∅ ∅.

(** One turn of the loop of [learn_one].  [self.feature_counts[f]] goes
    through the [defaultdict]: a missing [f] is first bound to an empty
    [Counter]. *)
Definition learn_feature (y : string) (self : ComplementNB) (item : string * Z)
  : ComplementNB :=
  let '(f, frequency) := item in
  let fc :=
    match feature_counts self !! f with
    | Some _ => feature_counts self
    | None => <[f := ICounter ∅]> (feature_counts self)
    end in
  mkNB (alpha self) (class_counts self)
       (alter (inner_update y frequency) f fc)
       (Counter_update {[f := frequency]} (feature_totals self))
       (Counter_update {[y := frequency]} (class_totals self)).

Definition learn_one (x : gmap string Z) (y : string) (self : ComplementNB)
  : ComplementNB :=
  let self1 :=
    mkNB (alpha self) (Counter_update_elements [y] (class_counts self))
         (feature_counts self) (feature_totals self) (class_totals self) in
  fold_left (learn_feature y) (map_to_list x) self1.

(** *** Reading methods

    The reading methods are written in a state-and-exception monad over
    the estimator, so that what they do to [self] is part of the model. *)

Definition NBM (A : Type) : Type := ComplementNB -> result A * ComplementNB.

#[global] Instance NBM_ret : MRet NBM := fun A a self => (Ok a, self).
#[global] Instance NBM_bind : MBind NBM :=
  fun A B f m self =>
    match m self with
    | (Ok a, self') => f a self'
    | (Raise e, self') => (Raise e, self')
    end.

Definition gets {A : Type} (f : ComplementNB -> A) : NBM A :=
  fun self => (Ok (f self), self).
Definition lift {A : Type} (r : result A) : NBM A :=
  fun self => (r, self).

Definition p_class (c : string) : NBM Q :=
  n ← gets (fun self => Counter_getitem c (class_counts self));
  total ← gets (fun self => sum (map snd (map_to_list (class_counts self))));
  lift (truediv n total).

(** The summand of [joint_log_likelihood] for class [c] and the item
    [(f, frequency)] of [x]. *)
Definition jll_term (c : string) (item : string * Z) : NBM R :=
  let '(f, frequency) := item in
  ft ← gets (fun self => Counter_getitem f (feature_totals self));
  fc ← gets (fun self =>
       dict_get c 0 (inner_items (dict_get f (IDict ∅) (feature_counts self))));
  ct ← gets (fun self => Counter_getitem c (class_totals self));
  n ← gets (fun self => size (feature_counts self));
  q ← lift (truediv (ft - fc + 1) (ct + 1 * Z.of_nat n));
  l ← lift (math_log q);
  mret (IZR frequency * - l)%R.

Definition joint_log_likelihood (x : gmap string Z) : NBM (gmap string R) :=
  cs ← gets (fun self => keys (class_counts self));
  entries ← mapM (fun c => terms ← mapM (jll_term c) (map_to_list x);
                           mret (c, fsum terms)) cs;
  mret (list_to_map entries).

(** Modelled from the spec: [base.Groupby(keys=y).apply(np.sum, X.values)],
    whose source is not part of the files at hand.  "Group rows by label,
    sum each feature column within each group": the result is one row of
    column sums per distinct label, and the labels.  The sums are those
    of [np.sum] over [X.values]. *)
Definition Groupby_apply_sum (y : list string) (rows : list (list Z)) (n : nat)
  : list (list Z) * list string :=
  let labels := merge_sort (fun a b => String.leb a b) (remove_dups y) in
  (map (fun k =>
          map (fun j =>
                 int64 (sum (map (fun yr => nth j (snd yr) 0)
                                 (filter (fun yr => fst yr = k) (zip y rows)))))
              (seq 0 n))
       labels,
   labels).

Definition learn_many (X : DataFrame Z) (y : list string) (self : ComplementNB)
  : ComplementNB :=
  let '(agg, index) := Groupby_apply_sum y (values X) (length (columns X)) in
  let agg := mkDF index (columns X) agg in
  mkNB (alpha self)
       (Counter_update (value_counts y) (class_counts self))
       (dict_update (IDict <$> to_dict_index (T agg)) (feature_counts self))
       (Counter_update (sum_rows X) (feature_totals self))
       (Counter_update (sum_columns agg) (class_totals self)).

Definition joint_log_likelihood_many (X : DataFrame Z) : NBM (DataFrame R) :=
  known ← gets (fun self =>
       filter (fun x => x ∈ dom (feature_counts self)) (columns X));
  unknown ← gets (fun self =>
       filter (fun x => x ∉ dom (feature_counts self)) (columns X));
  divider ← gets (fun self =>
       sort_index (from_dict_index
         (map (fun c => (c, Counter_getitem c (class_totals self)
                            + 1 * Z.of_nat (size (feature_counts self))))
              (keys (class_counts self)))));
  f ← gets (fun self => T (from_dict_index (map_to_list (feature_totals self))));
  f ← lift (getitem f known);
  let f := setitem (sort_index f) unknown 0 in
  fwc ← gets (fun self => fillna 0 (from_dicts (inner_items <$> feature_counts self)));
  fwc ← lift (getitem fwc known);
  let fwc := setitem (sort_index fwc) unknown 0 in
  d ← lift (subtract fwc f);
  q ← lift (divide (neg_add d 1) divider);
  fwc ← lift (neg_log q);
  lift (matmul_T X fwc).

(** The rows of a table as feature maps, as a caller scoring the table row
    by row passes them. *)
Definition row_dicts (X : DataFrame Z) : list (gmap string Z) :=
  map (zip_dict (columns X)) (values X).

(** *** The doctest of the class *)

Definition sentences : list (gmap string Z * string) :=
  [ ({[ "food" := 2; "meat" := 1; "brain" := 1 ]}, "health");
    ({[ "food" := 1; "meat" := 1; "kitchen" := 9; "jobjobjobjobjob" := 1 ]},
     "butcher");
    ({[ "food" := 2; "meat" := 1; "job" := 1 ]}, "health") ]%string.

Definition learn_all (l : list (gmap string Z * string)) (self : ComplementNB)
  : ComplementNB :=
  fold_left (fun self xy => learn_one (fst xy) (snd xy) self) l self.

End complement.

(** ** [creme/compat/creme_to_sklearn.py] *)

Module creme_to_sklearn.

(** *** The wrapped estimators

    An estimator object has a class, of which the adapters only ask which
    of the base types of [creme.base] it derives from, and a state, which
    its methods read and update.  The methods themselves are the interface
    [Estimator]; [fit_one] returns [self]. *)

Record bases : Type := mkBases {
  Regressor : bool;
  BinaryClassifier : bool;
  MultiClassifier : bool;
  Transformer : bool;
  SupervisedTransformer : bool;
  Clusterer : bool
}.

Record object (S : Type) : Type := mkObj { cls : bases; state : S }.
Arguments mkObj {S} cls state.
Arguments cls {S} o.
Arguments state {S} o.

Class Estimator (S : Type) : Type := {
  fit_one : S -> gmap nat Z -> option Z -> S;
  predict_one : S -> gmap nat Z -> Z;
  predict_proba_one : S -> gmap nat Z -> gmap Z Q;
  transform_one : S -> gmap nat Z -> list Z
}.

(** The attributes an adapter can hold; one that is not set is [None]. *)
Record Adapter : Type := mkAdapter {
  estimator : nat;
  instance_ : option nat;
  n_features_in_ : option nat;
  classes_ : option (list Z);
  label_encoder_ : option (list Z);
  labels_ : option (list Z)
}.

(** What the inference methods return. *)
Inductive output : Type :=
| Column (v : list Z)
| Table (v : list (list Z))
| Probas (v : list (list Q)).

(** *** sklearn utilities *)

(** [X.shape[1]] *)
Definition shape1 (X : list (list Z)) : nat := length (hd [] X).

(** [utils.check_array(X, **SKLEARN_INPUT_X_PARAMS)]: a two-dimensional
    numeric array with at least one row and one column. *)
Definition check_array (X : list (list Z)) : result (list (list Z)) :=
  match X with
  | [] => Raise ValueError
  | r :: rs =>
      if forallb (fun r' => Nat.eqb (length r') (length r)) rs
      then if Nat.eqb (length r) 0 then Raise ValueError else Ok X
      else Raise ValueError
  end.

(** [utils.check_X_y(X, y, ...)]: [X] as above and [y] of the same length. *)
Definition check_X_y (X : list (list Z)) (y : option (list Z))
  : result (list (list Z) * list Z) :=
  match y with
  | None => Raise ValueError
  | Some y =>
      X ← check_array X;
      if decide (length y = length X) then Ok (X, y) else Raise ValueError
  end.

(** [utils.multiclass.unique_labels(y)]: the distinct labels, ordered. *)
Definition unique_labels (y : list Z) : list Z :=
  merge_sort Z.le (remove_dups y).

(** [LabelEncoder.transform] and [inverse_transform] for an encoder fitted
    on [classes]. *)
Definition encode (classes : list Z) (y : list Z) : result (list Z) :=
  mapM (fun l => match list_find (fun c => c = l) classes with
                 | Some (i, _) => Ok (Z.of_nat i)
                 | None => Raise ValueError
                 end) y.

Definition decode (classes : list Z) (codes : list Z) : result (list Z) :=
  mapM (fun c => if decide (0 <= c)
                 then match classes !! Z.to_nat c with
                      | Some l => Ok l
                      | None => Raise ValueError
                      end
                 else Raise ValueError) codes.

(** Storing into an array of [dtype=np.int32]. *)
Definition int32 (z : Z) : Z := (z + 2 ^ 31) mod 2 ^ 32 - 2 ^ 31.

(** Modelled from the spec: [stream.iter_array], whose source is not part
    of the files at hand.  "Given a table X (and optional aligned y),
    produce, in row order, a finite sequence of (feature_map, label_or_none)
    pairs, one per row, where feature_map is a mapping from column index to
    that row's numeric value." *)
Definition iter_array (X : list (list Z)) (y : option (list Z))
  : list (gmap nat Z * option Z) :=
  let xs := map (fun r => list_to_map (zip (seq 0 (length r)) r)) X in
  match y with
  | Some y => zip xs (map Some y)
  | None => map (fun x => (x, None)) xs
  end.

(** *** The adapter methods

    The methods run in a state-and-exception monad.  The state is the
    adapter's attributes together with the store of estimator objects, in
    which [estimator] and [instance_] are addresses: what is shared and what
    is copied is part of the model.  A method that returns [self] returns
    [tt]. *)

Section Methods.
Context {S : Type} `{!Estimator S}.

Definition world : Type := Adapter * gmap nat (object S).

Definition SKM (A : Type) : Type := world -> result A * world.

#[global] Instance SKM_ret : MRet SKM := fun A a w => (Ok a, w).
#[global] Instance SKM_bind : MBind SKM :=
  fun A B f m w =>
    match m w with
    | (Ok a, w') => f a w'
    | (Raise e, w') => (Raise e, w')
    end.

Definition raise {A : Type} (e : exn) : SKM A := fun w => (Raise e, w).
Definition lift {A : Type} (r : result A) : SKM A := fun w => (r, w).

(** Reading and setting the attributes of [self]. *)
Definition self : SKM Adapter := fun w => (Ok (fst w), w).
Definition set_self (f : Adapter -> Adapter) : SKM unit :=
  fun w => (Ok tt, (f (fst w), snd w)).

Definition set_instance_ (l : nat) (a : Adapter) : Adapter :=
  mkAdapter (estimator a) (Some l) (n_features_in_ a) (classes_ a)
            (label_encoder_ a) (labels_ a).
Definition set_n_features_in_ (n : nat) (a : Adapter) : Adapter :=
  mkAdapter (estimator a) (instance_ a) (Some n) (classes_ a)
            (label_encoder_ a) (labels_ a).
Definition set_classes_ (c : list Z) (a : Adapter) : Adapter :=
  mkAdapter (estimator a) (instance_ a) (n_features_in_ a) (Some c)
            (label_encoder_ a) (labels_ a).
Definition set_label_encoder_ (c : list Z) (a : Adapter) : Adapter :=
  mkAdapter (estimator a) (instance_ a) (n_features_in_ a) (classes_ a)
            (Some c) (labels_ a).
Definition set_labels_ (v : list Z) (a : Adapter) : Adapter :=
  mkAdapter (estimator a) (instance_ a) (n_features_in_ a) (classes_ a)
            (label_encoder_ a) (Some v).

(** [self.__dict__.pop(attr, None)] for the attributes [fit] resets. *)
Definition pop_instance_ (a : Adapter) : Adapter :=
  mkAdapter (estimator a) None (n_features_in_ a) (classes_ a)
            (label_encoder_ a) (labels_ a).
Definition pop_n_features_in_ (a : Adapter) : Adapter :=
  mkAdapter (estimator a) (instance_ a) None (classes_ a)
            (label_encoder_ a) (labels_ a).
Definition pop_classes_ (a : Adapter) : Adapter :=
  mkAdapter (estimator a) (instance_ a) (n_features_in_ a) None
            (label_encoder_ a) (labels_ a).
Definition pop_label_encoder_ (a : Adapter) : Adapter :=
  mkAdapter (estimator a) (instance_ a) (n_features_in_ a) (classes_ a)
            None (labels_ a).

(** The object at an address. *)
Definition deref (l : nat) : SKM (object S) :=
  fun w => match snd w !! l with
           | Some o => (Ok o, w)
           | None => (Raise AttributeError, w)
           end.

(** [copy.deepcopy(obj)]: a new object with the same class and state, at
    an address not in use. *)
Definition allocate (o : object S) : SKM nat :=
  fun w => let l' := fresh (dom (snd w)) in
           (Ok l', (fst w, <[l' := o]> (snd w))).
Definition deepcopy (l : nat) : SKM nat :=
  o ← deref l; allocate o.

(** [isinstance(self.estimator, base)] *)
Definition isinstance_estimator (base : bases -> bool) : SKM bool :=
  a ← self; o ← deref (estimator a); mret (base (cls o)).

(** [self.instance_], an [AttributeError] when it is not set. *)
Definition the_instance : SKM nat :=
  a ← self;
  match instance_ a with Some l => mret l | None => raise AttributeError end.

(** [self.instance_.fit_one(x, yi)]: updates the object in place. *)
Definition store_object (l : nat) (o : object S) : SKM unit :=
  fun w => (Ok tt, (fst w, <[l := o]> (snd w))).
Definition call_fit_one (x : gmap nat Z) (yi : option Z) : SKM unit :=
  l ← the_instance;
  o ← deref l;
  store_object l (mkObj (cls o) (fit_one (state o) x yi)).

(** A method of [self.instance_] that only reads the object. *)
Definition call_instance {A : Type} (m : S -> A) : SKM A :=
  l ← the_instance; o ← deref l; mret (m (state o)).

(** [for v in l: body(v)] *)
Fixpoint for_each {A : Type} (l : list A) (body : A -> SKM unit) : SKM unit :=
  match l with
  | [] => mret tt
  | v :: l => body v;; for_each l body
  end.

(** The feature-count step shared by the [_partial_fit] methods. *)
Definition store_n_features (X : list (list Z)) : SKM unit :=
  a ← self;
  match n_features_in_ a with
  | Some n => if decide (shape1 X ≠ n) then raise ValueError else mret tt
  | None => mret tt
  end;;
  set_self (set_n_features_in_ (shape1 X)).

(** The deep copy made on the first call. *)
Definition ensure_instance : SKM unit :=
  a ← self;
  match instance_ a with
  | Some _ => mret tt
  | None => l ← deepcopy (estimator a); set_self (set_instance_ l)
  end.

(** [utils.validation.check_is_fitted(self, attributes='instance_')] *)
Definition check_is_fitted : SKM unit :=
  a ← self;
  match instance_ a with Some _ => mret tt | None => raise NotFittedError end.

(** The feature-count check of the inference methods. *)
Definition check_n_features (X : list (list Z)) : SKM unit :=
  a ← self;
  match n_features_in_ a with
  | Some n => if decide (shape1 X ≠ n) then raise ValueError else mret tt
  | None => raise AttributeError
  end.

(** [__init__] of an adapter class: the estimator must derive from one of
    the expected bases. *)
Definition init (expected : bases -> bool) (estimator : nat)
  (store : gmap nat (object S)) : result Adapter :=
  match store !! estimator with
  | Some o =>
      if expected (cls o)
      then Ok (mkAdapter estimator None None None None None)
      else Raise ValueError
  | None => Raise AttributeError
  end.

End Methods.

Arguments world S : clear implicits.
Arguments SKM S A : clear implicits.

(** *** [Creme2SKLRegressor] *)

Module Creme2SKLRegressor.
Section Methods.
Context {S : Type} `{!Estimator S}.

Definition __init__ (estimator : nat) (store : gmap nat (object S))
  : result Adapter :=
  init Regressor estimator store.

Definition _partial_fit (X : list (list Z)) (y : option (list Z)) : SKM S unit :=
  '(X, y) ← lift (check_X_y X y);
  store_n_features X;;
  ensure_instance;;
  for_each (iter_array X (Some y)) (fun xy => call_fit_one (fst xy) (snd xy)).

Definition fit (X : list (list Z)) (y : option (list Z)) : SKM S unit :=
  set_self pop_instance_;;
  set_self pop_n_features_in_;;
  _partial_fit X y.

Definition partial_fit (X : list (list Z)) (y : option (list Z))
  (classes : option (list Z)) : SKM S unit :=
  _partial_fit X y.

Definition predict (X : list (list Z)) : SKM S (list Z) :=
  check_is_fitted;;
  X ← lift (check_array X);
  check_n_features X;;
  mapM (fun xy => call_instance (fun s => predict_one s (fst xy)))
       (iter_array X None).

End Methods.
End Creme2SKLRegressor.

(** *** [Creme2SKLClassifier] *)

Module Creme2SKLClassifier.
Section Methods.
Context {S : Type} `{!Estimator S}.

Definition __init__ (estimator : nat) (store : gmap nat (object S))
  : result Adapter :=
  init (fun b => BinaryClassifier b || MultiClassifier b) estimator store.

(** [utils.multiclass._check_partial_fit_first_call(self, classes)] *)
Definition _check_partial_fit_first_call (classes : option (list Z)) : SKM S unit :=
  a ← self;
  match classes_ a, classes with
  | None, None => raise ValueError
  | Some cs, Some classes =>
      if decide (cs = unique_labels classes) then mret tt else raise ValueError
  | None, Some classes => set_self (set_classes_ (unique_labels classes))
  | Some _, None => mret tt
  end.

(** [self.classes_] *)
Definition the_classes : SKM S (list Z) :=
  a ← self;
  match classes_ a with Some cs => mret cs | None => raise AttributeError end.

(** The encoding of the labels for a classifier that is not a
    [MultiClassifier]; the encoder is fitted on [self.classes_] once. *)
Definition encode_labels (y : list Z) : SKM S (list Z) :=
  a ← self;
  match label_encoder_ a with
  | Some _ => mret tt
  | None => cs ← the_classes; set_self (set_label_encoder_ (unique_labels cs))
  end;;
  a ← self;
  match label_encoder_ a with
  | Some enc => lift (encode enc y)
  | None => raise AttributeError
  end.

(** The warning given for more than two classes and a binary classifier
    changes nothing and is left out. *)
Definition _partial_fit (X : list (list Z)) (y : option (list Z))
  (classes : option (list Z)) : SKM S unit :=
  _check_partial_fit_first_call classes;;
  '(X, y) ← lift (check_X_y X y);
  store_n_features X;;
  cs ← the_classes;
  (if decide (Forall (fun l => l ∈ cs) y) then mret tt else raise ValueError);;
  ensure_instance;;
  isinstance_estimator MultiClassifier ≫= fun multi : bool =>
  y ← (if multi then mret y else encode_labels y);
  for_each (iter_array X (Some y)) (fun xy => call_fit_one (fst xy) (snd xy)).

Definition fit (X : list (list Z)) (y : option (list Z)) : SKM S unit :=
  set_self pop_classes_;;
  set_self pop_instance_;;
  set_self pop_label_encoder_;;
  set_self pop_n_features_in_;;
  classes ← lift (match y with
                  | Some y => Ok (unique_labels y)
                  | None => Raise ValueError
                  end);
  _partial_fit X y (Some classes).

Definition partial_fit (X : list (list Z)) (y : option (list Z))
  (classes : option (list Z)) : SKM S unit :=
  _partial_fit X y classes.

Definition predict_proba (X : list (list Z)) : SKM S (list (list Q)) :=
  check_is_fitted;;
  X ← lift (check_array X);
  check_n_features X;;
  mapM (fun xy =>
          y_pred ← call_instance (fun s => predict_proba_one s (fst xy));
          cs ← the_classes;
          mret (map (fun c => match y_pred !! c with Some p => p | None => 0%Q end) cs))
       (iter_array X None).

Definition predict (X : list (list Z)) : SKM S (list Z) :=
  check_is_fitted;;
  X ← lift (check_array X);
  check_n_features X;;
  y_pred ← mapM (fun xy => call_instance (fun s => predict_one s (fst xy)))
                (iter_array X None);
  a ← self;
  match label_encoder_ a with
  | Some enc => lift (decode enc y_pred)
  | None => mret y_pred
  end.

End Methods.
End Creme2SKLClassifier.

(** *** [Creme2SKLTransformer] *)

Module Creme2SKLTransformer.
Section Methods.
Context {S : Type} `{!Estimator S}.

Definition __init__ (estimator : nat) (store : gmap nat (object S))
  : result Adapter :=
  init Transformer estimator store.

Definition _partial_fit (X : list (list Z)) (y : option (list Z)) : SKM S unit :=
  '(X, y) ← lift (match y with
                  | None => X ← check_array X; Ok (X, None)
                  | Some _ => '(X, y) ← check_X_y X y; Ok (X, Some y)
                  end);
  store_n_features X;;
  ensure_instance;;
  l ← the_instance;
  o ← deref l;
  if SupervisedTransformer (cls o)
  then for_each (iter_array X y) (fun xy => call_fit_one (fst xy) (snd xy))
  else for_each (iter_array X None) (fun xy => call_fit_one (fst xy) None).

Definition fit (X : list (list Z)) (y : option (list Z)) : SKM S unit :=
  set_self pop_instance_;;
  set_self pop_n_features_in_;;
  _partial_fit X y.

Definition partial_fit (X : list (list Z)) (y : option (list Z)) : SKM S unit :=
  _partial_fit X y.

Definition transform (X : list (list Z)) : SKM S (list (list Z)) :=
  check_is_fitted;;
  X ← lift (check_array X);
  check_n_features X;;
  mapM (fun xy => call_instance (fun s => transform_one s (fst xy)))
       (iter_array X None).

End Methods.
End Creme2SKLTransformer.

(** *** [Creme2SKLClusterer] *)

Module Creme2SKLClusterer.
Section Methods.
Context {S : Type} `{!Estimator S}.

Definition __init__ (estimator : nat) (store : gmap nat (object S))
  : result Adapter :=
  init Clusterer estimator store.

(** [self.labels_[i] = label] *)
Definition store_label (i : nat) (label : Z) (a : Adapter) : Adapter :=
  match labels_ a with
  | Some v => set_labels_ (<[i := int32 label]> v) a
  | None => a
  end.

(** [np.empty] gives an array of unspecified contents, here zeros; the
    loop overwrites every entry. *)
Definition _partial_fit (X : list (list Z)) (y : option (list Z)) : SKM S unit :=
  X ← lift (check_array X);
  store_n_features X;;
  ensure_instance;;
  set_self (set_labels_ (replicate (length X) 0));;
  for_each (enumerate (iter_array X None))
    (fun ixy =>
       let x := fst (snd ixy) in
       call_fit_one x None;;
       label ← call_instance (fun s => predict_one s x);
       set_self (store_label (fst ixy) label)).

Definition fit (X : list (list Z)) (y : option (list Z)) : SKM S unit :=
  set_self pop_instance_;;
  set_self pop_n_features_in_;;
  _partial_fit X y.

Definition partial_fit (X : list (list Z)) (y : option (list Z)) : SKM S unit :=
  _partial_fit X y.

Definition predict (X : list (list Z)) : SKM S (list Z) :=
  check_is_fitted;;
  X ← lift (check_array X);
  mapM (fun xy => label ← call_instance (fun s => predict_one s (fst xy));
                  mret (int32 label))
       (iter_array X None).

End Methods.
End Creme2SKLClusterer.

(** *** The four adapters as one

    The calls a caller can make on an adapter, and what each does for each
    of the four classes.  Calling a method a class does not have is an
    [AttributeError]; [classes] is passed to the methods that take it. *)

Inductive variant : Type :=
| RegressorAdapter
| ClassifierAdapter
| TransformerAdapter
| ClustererAdapter.

Inductive call : Type :=
| Fit (X : list (list Z)) (y : option (list Z))
| PartialFit (X : list (list Z)) (y : option (list Z)) (classes : option (list Z))
| Predict (X : list (list Z))
| PredictProba (X : list (list Z))
| Transform (X : list (list Z)).

Section Dispatch.
Context {S : Type} `{!Estimator S}.

Definition construct (v : variant) (estimator : nat) (store : gmap nat (object S))
  : result Adapter :=
  match v with
  | RegressorAdapter => Creme2SKLRegressor.__init__ estimator store
  | ClassifierAdapter => Creme2SKLClassifier.__init__ estimator store
  | TransformerAdapter => Creme2SKLTransformer.__init__ estimator store
  | ClustererAdapter => Creme2SKLClusterer.__init__ estimator store
  end.

Definition fit (v : variant) (X : list (list Z)) (y : option (list Z)) : SKM S unit :=
  match v with
  | RegressorAdapter => Creme2SKLRegressor.fit X y
  | ClassifierAdapter => Creme2SKLClassifier.fit X y
  | TransformerAdapter => Creme2SKLTransformer.fit X y
  | ClustererAdapter => Creme2SKLClusterer.fit X y
  end.

Definition partial_fit (v : variant) (X : list (list Z)) (y : option (list Z))
  (classes : option (list Z)) : SKM S unit :=
  match v with
  | RegressorAdapter => Creme2SKLRegressor.partial_fit X y classes
  | ClassifierAdapter => Creme2SKLClassifier.partial_fit X y classes
  | TransformerAdapter => Creme2SKLTransformer.partial_fit X y
  | ClustererAdapter => Creme2SKLClusterer.partial_fit X y
  end.

Definition predict (v : variant) (X : list (list Z)) : SKM S output :=
  match v with
  | RegressorAdapter => r ← Creme2SKLRegressor.predict X; mret (Column r)
  | ClassifierAdapter => r ← Creme2SKLClassifier.predict X; mret (Column r)
  | TransformerAdapter => raise AttributeError
  | ClustererAdapter => r ← Creme2SKLClusterer.predict X; mret (Column r)
  end.

Definition predict_proba (v : variant) (X : list (list Z)) : SKM S output :=
  match v with
  | ClassifierAdapter => r ← Creme2SKLClassifier.predict_proba X; mret (Probas r)
  | _ => raise AttributeError
  end.

Definition transform (v : variant) (X : list (list Z)) : SKM S output :=
  match v with
  | TransformerAdapter => r ← Creme2SKLTransformer.transform X; mret (Table r)
  | _ => raise AttributeError
  end.

Definition run (v : variant) (c : call) : SKM S output :=
  match c with
  | Fit X y => fit v X y;; mret (Column [])
  | PartialFit X y classes => partial_fit v X y classes;; mret (Column [])
  | Predict X => predict v X
  | PredictProba X => predict_proba v X
  | Transform X => transform v X
  end.

(** A sequence of calls, each made whatever the outcome of the one
    before. *)
Definition run_all (v : variant) (cs : list call) (w : world S) : world S :=
  fold_left (fun w c => snd (run v c w)) cs w.

End Dispatch.

(** *** An estimator for examples

    Its state is the list of the samples it was given; it predicts the
    number of samples seen so far. *)

#[global] Instance recorder : Estimator (list (gmap nat Z * option Z)) := {|
  fit_one s x y := s ++ [(x, y)];
  predict_one s x := Z.of_nat (length s);
  predict_proba_one s x := ∅;
  transform_one s x := map snd (map_to_list x)
|}.

Definition all_bases : bases := mkBases true true true true true true.

(** A second estimator for examples: it learns nothing, and its state is
    the number it predicts. *)
#[global] Instance constant_predictor : Estimator Z := {|
  fit_one s x y := s;
  predict_one s x := s;
  predict_proba_one s x := ∅;
  transform_one s x := []
|}.

(** *** [convert_creme_to_sklearn]

    A creme estimator is a [compose.Pipeline], with its named steps in
    order, or any other estimator object, given by its address.  The
    result is an adapter of one of the four classes or what the constructor
    of sklearn's [pipeline.Pipeline] makes of the converted steps; that
    constructor belongs to sklearn and is a parameter here. *)

#[local] Set Warnings "-register-all".

Inductive creme_estimator : Type :=
| Plain (l : nat)
| Pipeline (steps : list (string * creme_estimator)).

Inductive converted (P : Type) : Type :=
| Wrapped (v : variant) (obj : Adapter)
| SKPipeline (p : P).
Arguments Wrapped {P} v obj.
Arguments SKPipeline {P} p.

(** The list [wrappers], in its order. *)
Definition wrappers : list ((bases -> bool) * variant) :=
  [ (BinaryClassifier, ClassifierAdapter);
    (Clusterer, ClustererAdapter);
    (MultiClassifier, ClassifierAdapter);
    (Regressor, RegressorAdapter);
    (Transformer, TransformerAdapter) ].

Section Convert.
Context {S : Type} `{!Estimator S}.
Variable P : Type.
Variable pipeline_Pipeline : list (string * converted P) -> result P.

(** [obj = wrapper(estimator); obj.instance_ = copy.deepcopy(estimator)] *)
Definition wrap (v : variant) (l : nat) (store : gmap nat (object S))
  : result (converted P) * gmap nat (object S) :=
  match construct v l store with
  | Ok obj =>
      match (l' ← deepcopy l; set_self (set_instance_ l')) (obj, store) with
      | (Ok _, (obj, store)) => (Ok (Wrapped v obj), store)
      | (Raise e, (_, store)) => (Raise e, store)
      end
  | Raise e => (Raise e, store)
  end.

(** The loop over [wrappers]. *)
Fixpoint first_wrapper (ws : list ((bases -> bool) * variant)) (l : nat)
  (store : gmap nat (object S)) : result (converted P) * gmap nat (object S) :=
  match ws with
  | [] => (Raise ValueError, store)
  | (base_type, wrapper) :: ws =>
      match store !! l with
      | Some o =>
          if base_type (cls o) then wrap wrapper l store
          else first_wrapper ws l store
      | None => (Raise AttributeError, store)
      end
  end.

(** The list comprehension over the steps of a pipeline, [convert] being
    the conversion of one step. *)
Definition convert_steps
  (convert : creme_estimator -> gmap nat (object S)
             -> result (converted P) * gmap nat (object S))
  : list (string * creme_estimator) -> gmap nat (object S)
    -> result (list (string * converted P)) * gmap nat (object S) :=
  fix loop steps store :=
    match steps with
    | [] => (Ok [], store)
    | (name, step) :: steps =>
        match convert step store with
        | (Ok c, store) =>
            match loop steps store with
            | (Ok cs, store) => (Ok ((name, c) :: cs), store)
            | (Raise e, store) => (Raise e, store)
            end
        | (Raise e, store) => (Raise e, store)
        end
    end.

Fixpoint convert_creme_to_sklearn (estimator : creme_estimator)
  (store : gmap nat (object S)) : result (converted P) * gmap nat (object S) :=
  match estimator with
  | Pipeline steps =>
      match convert_steps convert_creme_to_sklearn steps store with
      | (Ok cs, store) =>
          (match pipeline_Pipeline cs with
           | Ok p => Ok (SKPipeline p)
           | Raise e => Raise e
           end, store)
      | (Raise e, store) => (Raise e, store)
      end
  | Plain l => first_wrapper wrappers l store
  end.

End Convert.

(** Induction on a creme estimator, the steps of a pipeline included. *)
Fixpoint creme_estimator_steps_ind (Q : creme_estimator -> Prop)
  (HPlain : forall l, Q (Plain l))
  (HPipeline : forall steps, Forall (fun ns => Q (snd ns)) steps -> Q (Pipeline steps))
  (e : creme_estimator) : Q e :=
  match e with
  | Plain l => HPlain l
  | Pipeline steps =>
      HPipeline steps
        ((fix all (steps : list (string * creme_estimator))
            : Forall (fun ns => Q (snd ns)) steps :=
            match steps with
            | [] => @List.Forall_nil _ (fun ns => Q (snd ns))
            | ns :: steps =>
                @List.Forall_cons _ (fun ns => Q (snd ns)) ns steps
                  (match ns as ns0 return Q (snd ns0) with
                   | (_, step) => creme_estimator_steps_ind Q HPlain HPipeline step
                   end)
                  (all steps)
            end) steps)
  end.

End creme_to_sklearn.

(** * Properties *)

(** ** Definitions used to state the properties of [ComplementNB] *)

Module complement_spec.
Import pd complement.

(** The four statistics maps, by content. *)
Definition statistics (self : ComplementNB)
  : gmap string Z * gmap string (gmap string Z) * gmap string Z * gmap string Z :=
  (class_counts self, inner_items <$> feature_counts self,
   feature_totals self, class_totals self).

(** [feature_counts[f][c]], 0 when [f] or [c] was not observed. *)
Definition feature_count (self : ComplementNB) (f c : string) : Z :=
  match feature_counts self !! f with
  | Some i => match inner_items i !! c with Some v => v | None => 0 end
  | None => 0
  end.

(** [feature_totals[f]], 0 when [f] was not observed. *)
Definition feature_total (self : ComplementNB) (f : string) : Z :=
  match feature_totals self !! f with Some v => v | None => 0 end.

(** [class_totals[c]] and the number of distinct features observed. *)
Definition class_total (self : ComplementNB) (c : string) : Z :=
  match class_totals self !! c with Some v => v | None => 0 end.
Definition n_features (self : ComplementNB) : Z :=
  Z.of_nat (size (feature_counts self)).

(** The two invariants of the statistics. *)
Definition class_totals_invariant (self : ComplementNB) : Prop :=
  forall c, class_total self c
            = sum (map (fun f => feature_count self f c) (keys (feature_counts self))).

Definition feature_totals_invariant (self : ComplementNB) : Prop :=
  forall f, feature_total self f
            = sum (map (fun c => feature_count self f c) (keys (class_counts self))).

(** The score of class [c] for the query [x], as the specification gives
    it. *)
Definition complement_rate (self : ComplementNB) (f c : string) : R :=
  (IZR (feature_total self f - feature_count self f c + 1)
   / IZR (class_total self c + n_features self))%R.

(** The quotient is defined and positive: numerator and denominator are
    not 0 and have the same sign. *)
Definition rate_positive (self : ComplementNB) (f c : string) : Prop :=
  0 < (feature_total self f - feature_count self f c + 1)
      * (class_total self c + n_features self).

#[global] Instance rate_positive_dec (self : ComplementNB) (f c : string)
  : Decision (rate_positive self f c).
Proof. unfold rate_positive. apply _. Defined.

Definition score (self : ComplementNB) (x : gmap string Z) (c : string) : R :=
  fsum (map (fun item => (IZR (snd item) * - ln (complement_rate self (fst item) c))%R)
            (map_to_list x)).

(** The statistics as calls of [learn_one] alone leave them: the values of
    [feature_counts] are [Counter]s, a class counted for a feature is an
    observed class, and the two invariants hold. *)
Record consistent (self : ComplementNB) : Prop := mkConsistent {
  cons_counter : forall f i, feature_counts self !! f = Some i ->
                             exists m, i = ICounter m;
  cons_classes : forall f c, feature_count self f c <> 0 ->
                             c ∈ dom (class_counts self);
  cons_class_totals : class_totals_invariant self;
  cons_feature_totals : feature_totals_invariant self
}.

(** No negative count. *)
Definition non_negative (self : ComplementNB) : Prop :=
  forall f c, 0 <= feature_count self f c.

(** A sample whose frequencies are not negative. *)
Definition non_negative_sample (xy : gmap string Z * string) : Prop :=
  map_Forall (fun _ v => 0 <= v) (fst xy).

(** Every observed class was observed at least once. *)
Definition positive_counts (self : ComplementNB) : Prop :=
  map_Forall (fun _ v => 1 <= v) (class_counts self).

(** A method that leaves [self] as it was, whatever it returns. *)
Definition read_only {A : Type} (m : NBM A) : Prop :=
  forall self, snd (m self) = self.

(** Scoring a table row by row and stacking the results, and the rows of
    the table [joint_log_likelihood_many] returns, each as a map from the
    class to its score. *)
Definition stacked (X : DataFrame Z) (self : ComplementNB)
  : result (list (gmap string R)) :=
  mapM (fun x => fst (joint_log_likelihood x self)) (row_dicts X).

Definition batched (X : DataFrame Z) (self : ComplementNB)
  : result (list (gmap string R)) :=
  J ← fst (joint_log_likelihood_many X self);
  mret (map (zip_dict (columns J)) (values J)).

(** Inputs of the examples. *)
Definition one_row : DataFrame Z := mkDF ["r0"] ["a"] [[1]].

Definition two_classes : ComplementNB :=
  learn_one {[ "k" := 2 ]} "B" (learn_one {[ "k" := 1 ]} "A" (init 1)).

Definition unknown_first : DataFrame Z := mkDF ["r0"] ["u"; "k"] [[1; 0]].

Definition known_first : DataFrame Z := mkDF ["r0"] ["k"; "u"] [[0; 1]].

(** The sentences of the doctest as one table of counts, and their
    labels. *)
Definition sentences_X : DataFrame Z :=
  mkDF ["0"; "1"; "2"]
       ["food"; "meat"; "brain"; "kitchen"; "jobjobjobjobjob"; "job"]
       [ [2; 1; 1; 0; 0; 0];
         [1; 1; 0; 9; 1; 0];
         [2; 1; 0; 0; 0; 1] ].

Definition sentences_y : list string := ["health"; "butcher"; "health"].

(** The number of samples of [l] labelled [c], and the number of labels of
    [y] equal to [c]. *)
Definition n_labelled (c : string) (l : list (gmap string Z * string)) : Z :=
  Z.of_nat (length (filter (fun xy => snd xy = c) l)).

Definition n_equal (c : string) (y : list string) : Z :=
  Z.of_nat (length (filter (fun l => l = c) y)).

(** The exceptions a quotient that is not defined or not positive gives:
    the division by zero and the error of [math.log]. *)
Definition arithmetic_error (e : exn) : Prop :=
  e = ZeroDivisionError \/ e = ValueError.

(** Every value of [feature_counts] is a [Counter]: none was stored by
    [learn_many]. *)
Definition counters_only (self : ComplementNB) : Prop :=
  forall f i, feature_counts self !! f = Some i -> exists m, i = ICounter m.

(** The values that fit an [int64]. *)
Definition in_int64 (z : Z) : Prop := - 2 ^ 63 <= z < 2 ^ 63.

(** A table that holds [int64] values. *)
Definition int64_table (X : DataFrame Z) : Prop :=
  Forall (Forall in_int64) (values X).

(** A table of two rows whose column sums to [2 ^ 63], one more than an
    [int64] holds. *)
Definition two_large_rows : DataFrame Z :=
  mkDF ["r0"; "r1"] ["a"] [[2 ^ 62]; [2 ^ 62]].

(** The samples [learn_one] is given when the rows [l], each with its
    label, are learned one by one as dicts over the columns [cols]. *)
Definition row_samples (cols : list string) (l : list (string * list Z))
  : list (gmap string Z * string) :=
  map (fun yr => (zip_dict cols (snd yr), fst yr)) l.

(** A batch [learn_many] can be compared with its rows learned one by one:
    distinct column labels, at least one column and one row, a label for
    each row, and rows of the width of the table. *)
Definition well_formed_batch (X : DataFrame Z) (y : list string) : Prop :=
  NoDup (columns X) /\ columns X <> [] /\ values X <> []
  /\ length y = length (values X)
  /\ Forall (fun row => length row = length (columns X)) (values X).

(** The table holds [int64] values and every sum [learn_many] takes over
    the batch fits an [int64]: the sum of each column and, for each label,
    the sum of each column over the rows of that label and the sum of all
    the entries of those rows. *)
Definition sums_fit_int64 (X : DataFrame Z) (y : list string) : Prop :=
  int64_table X
  /\ Forall (fun j => in_int64 (sum (map (fun row => nth j row 0) (values X))))
         (seq 0 (length (columns X)))
  /\ Forall (fun c =>
        Forall (fun j =>
                  in_int64 (sum (map (fun yr => nth j (snd yr) 0)
                                     (filter (fun yr => fst yr = c)
                                             (zip y (values X))))))
               (seq 0 (length (columns X)))
        /\ in_int64 (sum (map (fun yr => sum (snd yr))
                              (filter (fun yr => fst yr = c) (zip y (values X))))))
       y.

End complement_spec.

(** ** Definitions used to state the properties of the adapters *)

Module creme_to_sklearn_spec.
Import creme_to_sklearn.

Section Spec.
Context {S : Type} `{!Estimator S}.

(** The samples an estimator learns, one after the other. *)
Definition learn (samples : list (gmap nat Z * option Z)) (s : S) : S :=
  fold_left (fun s xy => fit_one s (fst xy) (snd xy)) samples s.

(** A call that learns. *)
Definition is_learning (c : call) : bool :=
  match c with Fit _ _ | PartialFit _ _ _ => true | _ => false end.

(** The store holds everything an earlier store held, unchanged. *)
Definition keeps (before after : gmap nat (object S)) : Prop :=
  forall l o, before !! l = Some o -> after !! l = Some o.

(** The adapter, whose estimator is at address [e], has written to none of
    the objects of the store [before]: they are all still there, unchanged,
    and [instance_] is not one of them. *)
Definition owned (before : gmap nat (object S)) (e : nat) (w : world S) : Prop :=
  estimator (fst w) = e
  /\ keeps before (snd w)
  /\ forall l, instance_ (fst w) = Some l -> before !! l = None.

(** A computation under which a property of the state is stable, whether
    it returns or raises. *)
Definition preserves {A : Type} (P : world S -> Prop) (m : SKM S A) : Prop :=
  forall w, P w -> P (snd (m w)).

(** The object a learning call starts from, the instance if there is one
    and the estimator to be copied if not, and the address of the instance
    once the call is over. *)
Definition start_object (w : world S) : option (object S) :=
  match instance_ (fst w) with
  | Some l => snd w !! l
  | None => snd w !! estimator (fst w)
  end.

Definition target (w : world S) : nat :=
  match instance_ (fst w) with
  | Some l => l
  | None => fresh (dom (snd w))
  end.

(** The state of the object [self.instance_] refers to. *)
Definition instance_state (w : world S) : option S :=
  l ← instance_ (fst w); o ← snd w !! l; Some (state o).

(** The labels a clusterer assigns while learning the rows [xs] one after
    the other from the state [s]: each row is learned, then labelled. *)
Fixpoint online_labels (xs : list (gmap nat Z)) (s : S) : list Z :=
  match xs with
  | [] => []
  | x :: xs => let s' := fit_one s x None in predict_one s' x :: online_labels xs s'
  end.

(** The rows of a table as the feature maps the estimator is given. *)
Definition feature_maps (X : list (list Z)) : list (gmap nat Z) :=
  map fst (iter_array X None).

(** The class set and the label encoder a call of the classifier's
    [_partial_fit] works with, given the attributes before the call and the
    argument [classes]. *)
Definition classes_after (a : Adapter) (classes : option (list Z))
  : option (list Z) :=
  match classes_ a, classes with
  | None, None => None
  | Some cs, Some c => if decide (cs = unique_labels c) then Some cs else None
  | None, Some c => Some (unique_labels c)
  | Some cs, None => Some cs
  end.

Definition encoder_after (a : Adapter) (cs : list Z) : list Z :=
  match label_encoder_ a with Some enc => enc | None => unique_labels cs end.

(** A table, and a target where the adapter takes one, that pass the
    validation of the adapter. *)
Definition valid_input (v : variant) (X : list (list Z)) (y : option (list Z))
  : Prop :=
  match v, y with
  | (RegressorAdapter | ClassifierAdapter), None => False
  | ClustererAdapter, _ | TransformerAdapter, None => check_array X = Ok X
  | _, Some y' => check_X_y X y = Ok (X, y')
  end.

(** The labels of [y] are among the classes [cs]; asked of the classifier
    adapter only. *)
Definition labels_within (v : variant) (cs : list Z) (y : option (list Z)) : Prop :=
  match v, y with
  | ClassifierAdapter, Some y' => Forall (fun l => l ∈ cs) y'
  | _, _ => True
  end.

(** The codes of the labels [y] under an encoder fitted on [enc]. *)
Definition codes (enc : list Z) (y : list Z) : list Z :=
  match encode enc y with Ok c => c | Raise _ => y end.

(** The samples a learning call of each adapter gives to the instance, for
    an estimator of class [b] and, for a classifier that is not a
    [MultiClassifier], the label encoder [enc]. *)
Definition streamed (v : variant) (b : bases) (enc : list Z)
  (X : list (list Z)) (y : option (list Z)) : list (gmap nat Z * option Z) :=
  match v with
  | RegressorAdapter => iter_array X y
  | ClassifierAdapter =>
      if MultiClassifier b then iter_array X y
      else iter_array X (codes enc <$> y)
  | TransformerAdapter =>
      if SupervisedTransformer b then iter_array X y else iter_array X None
  | ClustererAdapter => iter_array X None
  end.

(** What [fit] leaves, as a function of the estimator [ot] and of the
    arguments of the call alone. *)
Definition reflects_only (v : variant) (ot : object S) (X : list (list Z))
  (y : option (list Z)) (w : world S) : Prop :=
  instance_state w
  = Some (learn (streamed v (cls ot) (unique_labels (default [] y)) X y) (state ot))
  /\ n_features_in_ (fst w) = Some (shape1 X)
  /\ (v = ClassifierAdapter ->
      classes_ (fst w) = Some (unique_labels (default [] y))
      /\ label_encoder_ (fst w)
         = if MultiClassifier (cls ot) then None
           else Some (unique_labels (default [] y))).



End Spec.

(** Inputs of the examples: a store with one estimator, which derives from
    every base type, at address 7, and the adapter constructed on it. *)
Definition template0 : object (list (gmap nat Z * option Z)) :=
  mkObj all_bases [].

Definition store0 : gmap nat (object (list (gmap nat Z * option Z))) :=
  {[ 7%nat := template0 ]}.

Definition adapter0 : Adapter := mkAdapter 7 None None None None None.



(** The methods each adapter class has: all four learn, the regressor, the
    classifier and the clusterer predict, the classifier gives
    probabilities, the transformer transforms. *)
Definition supported (v : variant) (c : call) : bool :=
  match v, c with
  | _, (Fit _ _ | PartialFit _ _ _) => true
  | (RegressorAdapter | ClassifierAdapter | ClustererAdapter), Predict _ => true
  | ClassifierAdapter, PredictProba _ => true
  | TransformerAdapter, Transform _ => true
  | _, _ => false
  end.

(** The table a call is given. *)
Definition table (c : call) : list (list Z) :=
  match c with
  | Fit X _ | PartialFit X _ _ | Predict X | PredictProba X | Transform X => X
  end.

(** [reshape_probas] of [predict_proba], for the classes [cs]: the
    probability of each class in the order of [cs], 0 for a class the
    prediction does not mention. *)
Definition reshape_probas (cs : list Z) (y_pred : gmap Z Q) : list Q :=
  map (fun c => match y_pred !! c with Some p => p | None => 0%Q end) cs.

(** More inputs of the examples: a transformer that is not supervised, at
    address 3 of a store of its own. *)
Definition transformer0 : object (list (gmap nat Z * option Z)) :=
  mkObj (mkBases false false false true false false) [].

Definition store1 : gmap nat (object (list (gmap nat Z * option Z))) :=
  {[ 3%nat := transformer0 ]}.

Definition adapter1 : Adapter := mkAdapter 3 None None None None None.

(** The adapter class for an estimator of class [b]: that of the first
    base type, in the order of [wrappers], the estimator derives from. *)
Definition wrapper_of (b : bases) : option variant :=
  if BinaryClassifier b then Some ClassifierAdapter
  else if Clusterer b then Some ClustererAdapter
  else if MultiClassifier b then Some ClassifierAdapter
  else if Regressor b then Some RegressorAdapter
  else if Transformer b then Some TransformerAdapter
  else None.

(** The estimators that are not pipelines and occur in a creme estimator,
    steps of steps included. *)
Fixpoint leaves (e : creme_estimator) : list nat :=
  match e with
  | Plain l => [l]
  | Pipeline steps => flat_map (fun ns => leaves (snd ns)) steps
  end.

(** For the examples: a constructor of sklearn pipelines that accepts every
    list of steps and keeps their number, and a store with a regressor at
    address 1 and, at address 2, an estimator that derives from none of the
    base types. *)
Definition pipeline_count (steps : list (string * converted nat)) : result nat :=
  Ok (length steps).

Definition regressor0 : object (list (gmap nat Z * option Z)) :=
  mkObj (mkBases true false false false false false) [].

Definition stranger0 : object (list (gmap nat Z * option Z)) :=
  mkObj (mkBases false false false false false false) [].

Definition store2 : gmap nat (object (list (gmap nat Z * option Z))) :=
  {[ 1%nat := regressor0; 2%nat := stranger0 ]}.

End creme_to_sklearn_spec.

(** ** Properties of [ComplementNB] *)

Module complement_props.
Import pd complement complement_spec.

(** *** Reading methods leave the estimator unchanged *)

Lemma read_only_ret {A : Type} (a : A) : read_only (mret a).
Proof. intros self. reflexivity. Qed.

Lemma read_only_gets {A : Type} (f : ComplementNB -> A) : read_only (gets f).
Proof. intros self. reflexivity. Qed.

Lemma read_only_lift {A : Type} (r : result A) : read_only (lift r).
Proof. intros self. reflexivity. Qed.

Lemma read_only_bind {A B : Type} (m : NBM A) (f : A -> NBM B) :
  read_only m -> (forall a, read_only (f a)) -> read_only (m ≫= f).
Proof.
  intros Hm Hf self. unfold mbind, NBM_bind.
  specialize (Hm self). destruct (m self) as [[a | e] self']; simpl in *; subst.
  - apply Hf.
  - reflexivity.
Qed.

Lemma read_only_mapM {A B : Type} (f : A -> NBM B) (l : list A) :
  (forall a, read_only (f a)) -> read_only (mapM f l).
Proof.
  intros Hf. induction l as [| a l IH]; simpl.
  - apply read_only_ret.
  - apply read_only_bind; [apply Hf |]. intros b.
    apply read_only_bind; [apply IH |]. intros k. apply read_only_ret.
Qed.

Ltac read_only_steps :=
  repeat first
    [ apply read_only_ret | apply read_only_gets | apply read_only_lift
    | apply read_only_mapM; intros ?
    | apply read_only_bind; [| intros ?] ].

Lemma read_only_p_class (c : string) : read_only (p_class c).
Proof. unfold p_class. read_only_steps. Qed.

Lemma read_only_jll_term (c : string) (item : string * Z) :
  read_only (jll_term c item).
Proof. destruct item as [f frequency]. unfold jll_term. read_only_steps. Qed.

Lemma read_only_joint_log_likelihood (x : gmap string Z) :
  read_only (joint_log_likelihood x).
Proof.
  unfold joint_log_likelihood.
  apply read_only_bind; [apply read_only_gets |]. intros cs.
  apply read_only_bind; [| intros ?; apply read_only_ret].
  apply read_only_mapM. intros c.
  apply read_only_bind; [| intros ?; apply read_only_ret].
  apply read_only_mapM. intros item. apply read_only_jll_term.
Qed.

Lemma read_only_joint_log_likelihood_many (X : DataFrame Z) :
  read_only (joint_log_likelihood_many X).
Proof. unfold joint_log_likelihood_many. read_only_steps. Qed.

(** C10 (reading methods change nothing).
    The reading methods [p_class], [joint_log_likelihood] and
    [joint_log_likelihood_many] leave the estimator, and so its four
    statistics maps, exactly as they were: whatever the query, and whether
    they return or raise, no entry is added for a class or a feature that
    was never seen. *)
Theorem C10_reading_methods_leave_statistics
  (self : ComplementNB) (c : string) (x : gmap string Z) (X : DataFrame Z) :
  snd (p_class c self) = self
  /\ snd (joint_log_likelihood x self) = self
  /\ snd (joint_log_likelihood_many X self) = self.
Proof.
  split; [apply read_only_p_class |].
  split; [apply read_only_joint_log_likelihood |].
  apply read_only_joint_log_likelihood_many.
Qed.

(** *** The prior of a class that was never seen *)

Lemma Qred_zero_div (t : Z) : Qred (inject_Z 0 / inject_Z t) = 0%Q.
Proof.
  change 0%Q with (Qred 0). apply Qred_complete.
  unfold Qdiv. apply Qmult_0_l.
Qed.

(** [p_class] when the total is not 0. *)
Lemma p_class_eval (self : ComplementNB) (c : string) :
  sum (map snd (map_to_list (class_counts self))) <> 0 ->
  p_class c self
  = (Ok (Qred (inject_Z (Counter_getitem c (class_counts self))
               / inject_Z (sum (map snd (map_to_list (class_counts self)))))),
     self).
Proof.
  intros Htotal. unfold p_class, mbind, NBM_bind, gets, lift, truediv.
  destruct (decide _) as [H0 | _]; [contradiction | reflexivity].
Qed.

(** C5 (prior of a class never seen).
    For a class [c] that has no entry in [class_counts],
    [p_class c] returns exactly 0 and leaves the estimator unchanged
    whenever the counts of the observed classes do not sum to 0, that is
    once a sample has been learned. *)
Theorem C5_p_class_unseen (self : ComplementNB) (c : string) :
  class_counts self !! c = None ->
  sum (map snd (map_to_list (class_counts self))) <> 0 ->
  p_class c self = (Ok 0%Q, self).
Proof.
  intros Hc Htotal. rewrite p_class_eval by exact Htotal.
  unfold Counter_getitem. rewrite Hc.
  by rewrite Qred_zero_div.
Qed.

Lemma C5_p_class_unseen_witness :
  class_counts (learn_all sentences (init 1)) !! "nope" = None
  /\ sum (map snd (map_to_list (class_counts (learn_all sentences (init 1))))) <> 0
  /\ p_class "nope" (learn_all sentences (init 1))
     = (Ok 0%Q, learn_all sentences (init 1)).
Proof.
  assert (H1 : class_counts (learn_all sentences (init 1)) !! "nope" = None)
    by (vm_compute; reflexivity).
  assert (H2 : sum (map snd (map_to_list (class_counts (learn_all sentences (init 1)))))
               <> 0) by (vm_compute; discriminate).
  split; [exact H1 |]. split; [exact H2 |].
  exact (C5_p_class_unseen _ _ H1 H2).
Defined.

(** C5 does not extend to the estimator that has learned nothing: the sum
    of no counts is 0 and the division raises. *)
Lemma C5_p_class_nothing_learned :
  class_counts (init 1) !! "c" = None
  /\ p_class "c" (init 1) = (Raise ZeroDivisionError, init 1).
Proof. split; reflexivity. Qed.

(** *** The scores of [joint_log_likelihood] *)

Lemma feature_count_get (self : ComplementNB) (f c : string) :
  dict_get c 0 (inner_items (dict_get f (IDict ∅) (feature_counts self)))
  = feature_count self f c.
Proof.
  unfold dict_get, feature_count.
  destruct (feature_counts self !! f) as [i |]; simpl; [reflexivity |].
  by rewrite lookup_empty.
Qed.

Lemma Q2R_inject_Z (z : Z) : Q2R (inject_Z z) = IZR z.
Proof. unfold Q2R, inject_Z. simpl. rewrite Rinv_1. apply Rmult_1_r. Qed.

Lemma inject_Z_pos (z : Z) : 0 < z -> (0 < inject_Z z)%Q.
Proof. intros Hz. unfold Qlt, inject_Z. simpl. lia. Qed.

Lemma Q2R_quotient (a b : Z) :
  b <> 0 -> Q2R (Qred (inject_Z a / inject_Z b)) = (IZR a / IZR b)%R.
Proof.
  intros Hb. rewrite (Qeq_eqR _ _ (Qred_correct _)).
  rewrite Q2R_div, !Q2R_inject_Z; [reflexivity |].
  unfold Qeq, inject_Z. simpl. lia.
Qed.

Lemma IZR_quotient_pos (a b : Z) : 0 < a * b -> (0 < IZR a / IZR b)%R.
Proof.
  intros H.
  assert (Hc : (0 < a /\ 0 < b) \/ (a < 0 /\ b < 0)).
  { destruct (Z.lt_trichotomy a 0) as [Ha | [-> | Ha]]; [right | lia | left];
      (split; [exact Ha | nia]). }
  destruct Hc as [[Ha Hb] | [Ha Hb]].
  - apply Rdiv_lt_0_compat; by apply IZR_lt.
  - replace (IZR a / IZR b)%R with (IZR (- a) / IZR (- b))%R.
    + apply Rdiv_lt_0_compat; apply IZR_lt; lia.
    + rewrite !opp_IZR. field. apply not_0_IZR. lia.
Qed.

Lemma quotient_pos (a b : Z) :
  0 < a * b -> (0 < Qred (inject_Z a / inject_Z b))%Q.
Proof.
  intros H. apply Rlt_Qlt. rewrite RMicromega.Q2R_0, Q2R_quotient by lia.
  by apply IZR_quotient_pos.
Qed.

Lemma math_log_quotient (a b : Z) :
  0 < a * b ->
  math_log (Qred (inject_Z a / inject_Z b)) = Ok (ln (IZR a / IZR b)).
Proof.
  intros Hab. unfold math_log.
  destruct (Qle_bool _ 0) eqn:Hle.
  - apply Qle_bool_iff in Hle. pose proof (quotient_pos a b Hab) as Hpos.
    exfalso. eapply Qlt_not_le; eassumption.
  - rewrite Q2R_quotient; [reflexivity | lia].
Qed.

Lemma mapM_NBM_pure {A B : Type} (f : A -> NBM B) (g : A -> B) (l : list A)
  (self : ComplementNB) :
  Forall (fun a => f a self = (Ok (g a), self)) l ->
  mapM f l self = (Ok (map g l), self).
Proof.
  induction 1 as [| a l Ha _ IH]; [reflexivity |].
  cbn. unfold mbind, NBM_bind at 1. rewrite Ha.
  unfold NBM_bind at 1. fold (mapM f l). rewrite IH. reflexivity.
Qed.

Lemma jll_term_eval (self : ComplementNB) (c : string) (item : string * Z) :
  rate_positive self (fst item) c ->
  jll_term c item self
  = (Ok (IZR (snd item) * - ln (complement_rate self (fst item) c))%R, self).
Proof.
  destruct item as [f frequency]. unfold rate_positive. simpl. intros Hrate.
  unfold jll_term, mbind, NBM_bind, gets, lift. simpl.
  rewrite feature_count_get, Z.mul_1_l.
  change (Counter_getitem f (feature_totals self)) with (feature_total self f).
  change (Counter_getitem c (class_totals self)) with (class_total self c).
  change (Z.of_nat (size (feature_counts self))) with (n_features self).
  unfold truediv. destruct (decide _) as [H0 | _]; [lia |].
  rewrite math_log_quotient by assumption. reflexivity.
Qed.

Lemma keys_dom {V : Type} (d : gmap string V) (k : string) :
  k ∈ keys d <-> k ∈ dom d.
Proof.
  unfold keys. rewrite elem_of_dom. split.
  - intros Hk. apply list_elem_of_fmap in Hk as [[k' v] [-> Hkv]].
    apply elem_of_map_to_list in Hkv. eauto.
  - intros [v Hv]. apply list_elem_of_fmap. exists (k, v).
    split; [reflexivity |]. by apply elem_of_map_to_list.
Qed.

Lemma NoDup_keys {V : Type} (d : gmap string V) : NoDup (keys d).
Proof. apply NoDup_fst_map_to_list. Qed.

(** The dict built by a comprehension [{k: h(k) for k in ks}]. *)
Lemma lookup_comprehension {V : Type} (h : string -> V) (ks : list string)
  (k : string) :
  k ∈ ks ->
  (list_to_map (map (fun k => (k, h k)) ks) : gmap string V) !! k = Some (h k).
Proof.
  induction ks as [| k' ks IH]; intros Hk; [by apply not_elem_of_nil in Hk |].
  simpl. destruct (decide (k' = k)) as [-> | Hne].
  - apply lookup_insert_eq.
  - rewrite lookup_insert_ne by done. apply IH.
    apply elem_of_cons in Hk as [-> | Hk]; [done | exact Hk].
Qed.

Lemma dom_comprehension {V : Type} (h : string -> V) (ks : list string) :
  dom (list_to_map (map (fun k => (k, h k)) ks) : gmap string V)
  = list_to_set ks.
Proof.
  induction ks as [| k ks IH]; simpl.
  - apply dom_empty_L.
  - by rewrite dom_insert_L, IH.
Qed.

(** The map [joint_log_likelihood] returns when every quotient is defined
    and positive. *)
Lemma joint_log_likelihood_eval (self : ComplementNB) (x : gmap string Z) :
  Forall (fun c => Forall (fun f => rate_positive self f c) (keys x))
         (keys (class_counts self)) ->
  joint_log_likelihood x self
  = (Ok (list_to_map (map (fun c => (c, score self x c)) (keys (class_counts self)))),
     self).
Proof.
  intros Hrate.
  unfold joint_log_likelihood, mbind at 1, NBM_bind at 1, gets at 1.
  unfold mbind at 1, NBM_bind at 1.
  rewrite (mapM_NBM_pure _ (fun c => (c, score self x c))); [reflexivity |].
  apply Forall_forall. intros c Hc.
  rewrite Forall_forall in Hrate. specialize (Hrate c Hc).
  rewrite Forall_forall in Hrate.
  unfold mbind, NBM_bind.
  rewrite (mapM_NBM_pure _
    (fun item => (IZR (snd item) * - ln (complement_rate self (fst item) c))%R)).
  - reflexivity.
  - apply Forall_forall. intros [f v] Hfv. apply jll_term_eval.
    apply Hrate. unfold keys. apply list_elem_of_fmap. by exists (f, v).
Qed.

(** C3 (scores of [joint_log_likelihood]).
    When, for every observed class [c] and every feature
    [f] of the query [x], the quotient
    [(feature_totals[f] - feature_counts[f][c] + 1) / (class_totals[c] + V)],
    with [V] the number of distinct features observed, is defined and
    positive, [joint_log_likelihood x] returns a map whose keys are exactly
    the observed classes and whose value at [c] is the sum over the items
    [(f, frequency)] of [x] of [frequency * -log] of that quotient; a
    feature of [x] that was never observed is not skipped and enters with
    total 0 and count 0. The estimator is left unchanged. *)
Theorem C3_joint_log_likelihood_scores (self : ComplementNB) (x : gmap string Z) :
  Forall (fun c => Forall (fun f => rate_positive self f c) (keys x))
         (keys (class_counts self)) ->
  exists m : gmap string R,
    joint_log_likelihood x self = (Ok m, self)
    /\ dom m = dom (class_counts self)
    /\ forall c, c ∈ dom (class_counts self) -> m !! c = Some (score self x c).
Proof.
  intros Hrate.
  exists (list_to_map (map (fun c => (c, score self x c)) (keys (class_counts self)))).
  split; [| split].
  - by apply joint_log_likelihood_eval.
  - rewrite dom_comprehension. apply set_eq. intros k.
    by rewrite elem_of_list_to_set, keys_dom.
  - intros c Hc. apply lookup_comprehension. by apply keys_dom.
Qed.

Lemma C3_joint_log_likelihood_scores_witness :
  Forall (fun c =>
            Forall (fun f => rate_positive two_classes f c)
                   (keys ({[ "u" := 1; "k" := 3 ]} : gmap string Z)))
         (keys (class_counts two_classes))
  /\ exists m : gmap string R,
       joint_log_likelihood {[ "u" := 1; "k" := 3 ]} two_classes
       = (Ok m, two_classes)
       /\ dom m = dom (class_counts two_classes)
       /\ forall c, c ∈ dom (class_counts two_classes) ->
                    m !! c = Some (score two_classes {[ "u" := 1; "k" := 3 ]} c).
Proof.
  assert (H : Forall (fun c =>
                 Forall (fun f => rate_positive two_classes f c)
                        (keys ({[ "u" := 1; "k" := 3 ]} : gmap string Z)))
              (keys (class_counts two_classes)))
    by (apply (bool_decide_unpack _); vm_compute; exact I).
  split; [exact H |].
  exact (C3_joint_log_likelihood_scores two_classes _ H).
Defined.

(** C3 does not extend to an estimator that observed a class but no
    feature: the denominator is 0 and a query with a feature raises. *)
Lemma C3_no_feature_observed :
  class_counts (learn_one ∅ "c" (init 1)) !! "c" = Some 1
  /\ joint_log_likelihood {[ "a" := 1 ]} (learn_one ∅ "c" (init 1))
     = (Raise ZeroDivisionError, learn_one ∅ "c" (init 1)).
Proof. split; vm_compute; reflexivity. Qed.

(** *** Learning in batches *)

(** C1 (batches against single samples).
    Two calls of [learn_many], each with the one
    row [{a: 1}] of class [c], leave [feature_counts[a][c]] at 1, the value
    of the second batch alone, where two calls of [learn_one] with the same
    rows have 2; the other three maps agree. [learn_many] stores the batch
    sums into [feature_counts] with [dict.update], which replaces the entry
    of a feature, and adds to the three other maps. *)
Theorem C1_second_batch_replaces_feature_counts :
  statistics (learn_many one_row ["c"] (learn_many one_row ["c"] (init 1)))
  = ({[ "c" := 2 ]}, {[ "a" := {[ "c" := 1 ]} ]}, {[ "a" := 2 ]}, {[ "c" := 2 ]})
  /\ statistics (learn_one {[ "a" := 1 ]} "c" (learn_one {[ "a" := 1 ]} "c" (init 1)))
     = ({[ "c" := 2 ]}, {[ "a" := {[ "c" := 2 ]} ]}, {[ "a" := 2 ]}, {[ "c" := 2 ]}).
Proof. split; vm_compute; reflexivity. Qed.

(** C2 (invariants of the totals).
    After the same two calls of [learn_many],
    [class_totals[c]] is 2 and [feature_totals[a]] is 2, while the only
    entry of [feature_counts] is [feature_counts[a][c] = 1]: neither
    invariant holds. *)
Theorem C2_second_batch_breaks_invariants :
  ~ class_totals_invariant
      (learn_many one_row ["c"] (learn_many one_row ["c"] (init 1)))
  /\ ~ feature_totals_invariant
         (learn_many one_row ["c"] (learn_many one_row ["c"] (init 1))).
Proof.
  split.
  - intros H. specialize (H "c"). vm_compute in H. discriminate.
  - intros H. specialize (H "a"). vm_compute in H. discriminate.
Qed.

(** The entry [learn_many] leaves is a plain dict, so a later [learn_one]
    replaces the count of its class too, where the totals add up. *)
Example learn_one_after_a_batch :
  statistics (learn_one {[ "a" := 5 ]} "c" (learn_many one_row ["c"] (init 1)))
  = ({[ "c" := 2 ]}, {[ "a" := {[ "c" := 5 ]} ]}, {[ "a" := 6 ]}, {[ "c" := 6 ]}).
Proof. vm_compute. reflexivity. Qed.

(** The replacement, in general. *)

Lemma fold_insert_lookup {V : Type} (l : list (string * V)) (d : gmap string V)
  (k : string) :
  NoDup (map fst l) ->
  fold_left (fun d '(k, v) => <[k := v]> d) l d !! k
  = match (list_to_map l : gmap string V) !! k with
    | Some v => Some v
    | None => d !! k
    end.
Proof.
  revert d. induction l as [| [k0 v0] l IH]; intros d Hnd; [reflexivity |].
  apply NoDup_cons in Hnd as [Hk0 Hnd]. simpl. rewrite IH by exact Hnd.
  destruct (decide (k0 = k)) as [-> | Hne].
  - rewrite !lookup_insert_eq.
    by rewrite (proj1 (not_elem_of_list_to_map l k) Hk0).
  - by rewrite !lookup_insert_ne by done.
Qed.

Lemma dict_update_lookup {V : Type} (m d : gmap string V) (k : string) :
  dict_update m d !! k = match m !! k with Some v => Some v | None => d !! k end.
Proof.
  unfold dict_update. rewrite fold_insert_lookup by apply NoDup_fst_map_to_list.
  by rewrite list_to_map_to_list.
Qed.

Lemma zip_dict_is_Some {A : Type} (labels : list string) (row : list A) (k : string) :
  length labels = length row -> k ∈ labels -> is_Some (zip_dict labels row !! k).
Proof.
  intros Hlen Hk. unfold zip_dict.
  destruct (list_to_map (zip labels row) !! k) as [v |] eqn:Hl; [by eexists |].
  apply not_elem_of_list_to_map in Hl. rewrite fst_zip in Hl by lia. contradiction.
Qed.

(** X13 ([learn_many] replaces the counts of its columns).
    Whatever the estimator held, after [learn_many] the entry of
    [feature_counts] for a column of the batch is the one the batch alone
    gives. *)
Lemma learn_many_replaces_feature_counts (X : DataFrame Z) (y : list string)
  (self self' : ComplementNB) (f : string) :
  f ∈ columns X ->
  feature_counts (learn_many X y self) !! f
  = feature_counts (learn_many X y self') !! f.
Proof.
  intros Hf. unfold learn_many.
  destruct (Groupby_apply_sum y (values X) (length (columns X))) as [agg idx].
  cbn [feature_counts]. rewrite !dict_update_lookup.
  destruct ((IDict <$> to_dict_index (T (mkDF idx (columns X) agg))) !! f)
    as [i |] eqn:Hi; [reflexivity |].
  exfalso. rewrite lookup_fmap in Hi.
  destruct (zip_dict_is_Some (index (T (mkDF idx (columns X) agg)))
              (map (zip_dict (columns (T (mkDF idx (columns X) agg))))
                   (values (T (mkDF idx (columns X) agg)))) f) as [d Hd].
  - cbn. by rewrite !length_map, length_seq.
  - exact Hf.
  - unfold to_dict_index in Hi. rewrite Hd in Hi. discriminate.
Qed.

(** *** Scoring a table *)

Lemma ln_three_halves_pos : (0 < ln (Q2R (3 # 2)))%R.
Proof.
  rewrite <- ln_1. apply ln_increasing; [lra |].
  unfold Q2R. simpl. lra.
Qed.

Lemma ln_half_neg : (ln (Q2R (1 # 2)) < 0)%R.
Proof.
  rewrite <- ln_1. apply ln_increasing.
  - unfold Q2R. simpl. lra.
  - unfold Q2R. simpl. lra.
Qed.

(** C4 (scoring a table against scoring its rows).
    The estimator has seen feature [k] with
    classes [A] and [B]; the table has the columns [u], never seen, and
    [k], in this order, and the one row [u = 1, k = 0]. Row by row, class
    [A] scores [-log(1/2)], the weight of [u]. [joint_log_likelihood_many]
    puts the weights of the known columns first and the unknown ones last,
    multiplies by position, and returns [-log(3/2)], the weight of [k],
    for class [A]. *)
Theorem C4_unknown_column_before_known :
  stacked unknown_first two_classes
  = Ok [ {[ "A" := (0 + 0 * - ln (Q2R (3 # 2)) + 1 * - ln (Q2R (1 # 2)))%R;
            "B" := (0 + 0 * - ln (Q2R (2 # 3)) + 1 * - ln (Q2R (1 # 3)))%R ]} ]
  /\ batched unknown_first two_classes
     = Ok [ {[ "A" := (0 + 1 * (-1 * ln (Q2R (3 # 2))) + 0 * (-1 * ln (Q2R (1 # 2))))%R;
               "B" := (0 + 1 * (-1 * ln (Q2R (2 # 3))) + 0 * (-1 * ln (Q2R (1 # 3))))%R ]} ]
  /\ (0 + 0 * - ln (Q2R (3 # 2)) + 1 * - ln (Q2R (1 # 2)))%R
     <> (0 + 1 * (-1 * ln (Q2R (3 # 2))) + 0 * (-1 * ln (Q2R (1 # 2))))%R.
Proof.
  split; [vm_compute; reflexivity |].
  split; [vm_compute; reflexivity |].
  pose proof ln_three_halves_pos. pose proof ln_half_neg. lra.
Qed.


(** *** Sums over lists, and the keys of a dict *)

Lemma sum_from (l : list Z) (a : Z) : fold_left Z.add l a = a + sum l.
Proof.
  unfold sum. revert a. induction l as [| b l IH]; intros a; simpl; [lia |].
  rewrite (IH (a + b)), (IH (0 + b)). lia.
Qed.

Lemma sum_cons (a : Z) (l : list Z) : sum (a :: l) = a + sum l.
Proof. unfold sum at 1. simpl. apply sum_from. Qed.

Lemma sum_nil : sum [] = 0.
Proof. reflexivity. Qed.

Lemma sum_Permutation (l1 l2 : list Z) : l1 ≡ₚ l2 -> sum l1 = sum l2.
Proof.
  induction 1 as [| a l1 l2 _ IH | a b l | l1 l2 l3 _ IH1 _ IH2].
  - reflexivity.
  - rewrite !sum_cons. lia.
  - rewrite !sum_cons. lia.
  - lia.
Qed.

Lemma sum_map_add {A : Type} (g h : A -> Z) (l : list A) :
  sum (map (fun a => g a + h a) l) = sum (map g l) + sum (map h l).
Proof.
  induction l as [| a l IH]; [reflexivity |].
  simpl. rewrite !sum_cons. lia.
Qed.

Lemma sum_map_ext {A : Type} (g h : A -> Z) (l : list A) :
  (forall a, a ∈ l -> g a = h a) -> sum (map g l) = sum (map h l).
Proof.
  intros H. induction l as [| a l IH]; [reflexivity |].
  simpl. rewrite !sum_cons, IH, (H a); [reflexivity | by left |].
  intros b Hb. apply H. by right.
Qed.

Lemma sum_map_zero {A : Type} (g : A -> Z) (l : list A) :
  (forall a, a ∈ l -> g a = 0) -> sum (map g l) = 0.
Proof.
  intros H. induction l as [| a l IH]; [reflexivity |].
  simpl. rewrite sum_cons, IH, (H a); [reflexivity | by left |].
  intros b Hb. apply H. by right.
Qed.

Lemma sum_indicator (k : string) (v : Z) (l : list string) :
  NoDup l ->
  sum (map (fun k' => if decide (k' = k) then v else 0) l)
  = if decide (k ∈ l) then v else 0.
Proof.
  induction 1 as [| a l Ha _ IH]; [reflexivity |].
  simpl. rewrite sum_cons, IH.
  destruct (decide (a = k)) as [-> | Hne].
  - rewrite (decide_True (P := k ∈ k :: l)) by (by left).
    rewrite (decide_False (P := k ∈ l)) by done. lia.
  - destruct (decide (k ∈ l)) as [Hk | Hk].
    + rewrite (decide_True (P := k ∈ a :: l)) by (by right). lia.
    + rewrite (decide_False (P := k ∈ a :: l)); [lia |]. intros Hin.
      apply elem_of_cons in Hin as [-> | Hin]; contradiction.
Qed.

Lemma sum_nonneg (l : list Z) : Forall (fun z => 0 <= z) l -> 0 <= sum l.
Proof.
  induction 1 as [| a l Ha _ IH]; [by rewrite sum_nil |].
  rewrite sum_cons. lia.
Qed.

Lemma sum_ge_elem (l : list Z) (a : Z) :
  Forall (fun z => 0 <= z) l -> a ∈ l -> a <= sum l.
Proof.
  induction 1 as [| b l Hb Hl IH]; intros Ha; [by apply not_elem_of_nil in Ha |].
  rewrite sum_cons. pose proof (sum_nonneg l Hl).
  apply elem_of_cons in Ha as [-> | Ha]; [lia |]. specialize (IH Ha). lia.
Qed.

Lemma union_singleton_elem (k : string) (s : gset string) :
  k ∈ s -> {[ k ]} ∪ s = s.
Proof.
  intros Hk. apply set_eq. intros k'.
  rewrite elem_of_union, elem_of_singleton.
  split; [intros [-> | H]; [exact Hk | exact H] | intros H; by right].
Qed.

Lemma keys_Permutation {V W : Type} (d1 : gmap string V) (d2 : gmap string W) :
  dom d1 = dom d2 -> keys d1 ≡ₚ keys d2.
Proof.
  intros Hd. apply NoDup_Permutation; [apply NoDup_keys | apply NoDup_keys |].
  intros k. by rewrite !keys_dom, Hd.
Qed.

Lemma keys_insert_new {V : Type} (d : gmap string V) (k : string) (v : V) :
  d !! k = None -> keys (<[k := v]> d) ≡ₚ k :: keys d.
Proof.
  intros Hk. unfold keys. by rewrite map_to_list_insert.
Qed.

(** *** The invariants along calls of [learn_one] *)

Lemma Counter_update_singleton (k : string) (v : Z) (c : gmap string Z) :
  Counter_update {[ k := v ]} c = <[k := v + dict_get k 0 c]> c.
Proof. unfold Counter_update. by rewrite map_to_list_singleton. Qed.

Lemma feature_total_learn_feature (y : string) (self : ComplementNB)
  (f : string) (v : Z) (f' : string) :
  feature_total (learn_feature y self (f, v)) f'
  = feature_total self f' + (if decide (f' = f) then v else 0).
Proof.
  unfold feature_total, learn_feature. cbn [feature_totals].
  rewrite Counter_update_singleton. unfold dict_get.
  destruct (decide (f' = f)) as [-> | Hne].
  - rewrite lookup_insert_eq. destruct (feature_totals self !! f); lia.
  - rewrite lookup_insert_ne by done. destruct (feature_totals self !! f'); lia.
Qed.

Lemma class_total_learn_feature (y : string) (self : ComplementNB)
  (f : string) (v : Z) (c : string) :
  class_total (learn_feature y self (f, v)) c
  = class_total self c + (if decide (c = y) then v else 0).
Proof.
  unfold class_total, learn_feature. cbn [class_totals].
  rewrite Counter_update_singleton. unfold dict_get.
  destruct (decide (c = y)) as [-> | Hne].
  - rewrite lookup_insert_eq. destruct (class_totals self !! y); lia.
  - rewrite lookup_insert_ne by done. destruct (class_totals self !! c); lia.
Qed.

Lemma feature_counts_learn_feature (y : string) (self : ComplementNB)
  (f : string) (v : Z) (f' : string) :
  feature_counts (learn_feature y self (f, v)) !! f'
  = if decide (f' = f)
    then Some (inner_update y v
                 (match feature_counts self !! f with
                  | Some i => i
                  | None => ICounter ∅
                  end))
    else feature_counts self !! f'.
Proof.
  unfold learn_feature. cbn [feature_counts].
  destruct (decide (f' = f)) as [-> | Hne].
  - rewrite lookup_alter_eq. destruct (feature_counts self !! f) as [i |] eqn:Hf.
    + by rewrite Hf.
    + by rewrite lookup_insert_eq.
  - rewrite lookup_alter_ne by done.
    destruct (feature_counts self !! f); [reflexivity |].
    by rewrite lookup_insert_ne.
Qed.

Lemma feature_count_learn_feature (y : string) (self : ComplementNB)
  (f : string) (v : Z) (f' c : string) :
  (forall i, feature_counts self !! f = Some i -> exists m, i = ICounter m) ->
  feature_count (learn_feature y self (f, v)) f' c
  = feature_count self f' c
    + (if decide (f' = f) then if decide (c = y) then v else 0 else 0).
Proof.
  intros Hcounter. unfold feature_count at 1.
  rewrite feature_counts_learn_feature.
  destruct (decide (f' = f)) as [-> | Hne]; [| unfold feature_count; 
    destruct (feature_counts self !! f') as [i |]; [destruct (_ !! c) |]; lia].
  unfold feature_count. destruct (feature_counts self !! f) as [i |] eqn:Hf.
  - destruct (Hcounter i eq_refl) as [m ->]. cbn.
    rewrite Counter_update_singleton. unfold dict_get.
    destruct (decide (c = y)) as [-> | Hc].
    + rewrite lookup_insert_eq. destruct (m !! y); lia.
    + rewrite lookup_insert_ne by done. destruct (m !! c); lia.
  - cbn. rewrite Counter_update_singleton. unfold dict_get.
    destruct (decide (c = y)) as [-> | Hc].
    + rewrite lookup_insert_eq, lookup_empty. lia.
    + rewrite lookup_insert_ne by done. rewrite lookup_empty. lia.
Qed.

Lemma dom_feature_counts_learn_feature (y : string) (self : ComplementNB)
  (f : string) (v : Z) :
  dom (feature_counts (learn_feature y self (f, v)))
  = {[ f ]} ∪ dom (feature_counts self).
Proof.
  unfold learn_feature. cbn [feature_counts]. rewrite dom_alter_L.
  destruct (feature_counts self !! f) as [i |] eqn:Hf.
  - apply elem_of_dom_2 in Hf. by rewrite union_singleton_elem.
  - by rewrite dom_insert_L.
Qed.

Lemma feature_count_unobserved (self : ComplementNB) (f c : string) :
  f ∉ dom (feature_counts self) -> feature_count self f c = 0.
Proof.
  intros Hf. apply not_elem_of_dom in Hf. unfold feature_count. by rewrite Hf.
Qed.

Lemma sum_keys_learn_feature (y : string) (self : ComplementNB)
  (f : string) (v : Z) (g : string -> Z) :
  (f ∉ dom (feature_counts self) -> g f = 0) ->
  sum (map g (keys (feature_counts (learn_feature y self (f, v)))))
  = sum (map g (keys (feature_counts self))).
Proof.
  intros Hg. destruct (decide (f ∈ dom (feature_counts self))) as [Hf | Hf].
  - apply sum_Permutation, fmap_Permutation, keys_Permutation.
    rewrite dom_feature_counts_learn_feature. by apply union_singleton_elem.
  - rewrite (sum_Permutation _ (map g (f :: keys (feature_counts self)))).
    + simpl. rewrite sum_cons, Hg by done. lia.
    + apply fmap_Permutation.
      apply NoDup_Permutation; [apply NoDup_keys | |].
      * constructor; [by rewrite keys_dom | apply NoDup_keys].
      * intros k. rewrite elem_of_cons, !keys_dom,
          dom_feature_counts_learn_feature, elem_of_union, elem_of_singleton.
        reflexivity.
Qed.

Lemma consistent_learn_feature (y : string) (self : ComplementNB)
  (f : string) (v : Z) :
  y ∈ dom (class_counts self) ->
  consistent self -> consistent (learn_feature y self (f, v)).
Proof.
  intros Hy [Hcounter Hclasses Hct Hft]. split.
  - intros f' i. rewrite feature_counts_learn_feature.
    destruct (decide (f' = f)) as [-> | Hne]; [| apply Hcounter].
    intros [= <-]. destruct (feature_counts self !! f) as [i |] eqn:Hf.
    + destruct (Hcounter f i Hf) as [m ->]. by eexists.
    + by eexists.
  - intros f' c. rewrite feature_count_learn_feature by apply Hcounter.
    change (class_counts (learn_feature y self (f, v))) with (class_counts self).
    destruct (decide (f' = f)) as [-> | Hne];
      [destruct (decide (c = y)) as [-> | Hc] |].
    + done.
    + rewrite Z.add_0_r. apply Hclasses.
    + rewrite Z.add_0_r. apply Hclasses.
  - intros c. rewrite class_total_learn_feature.
    rewrite (sum_map_ext _
      (fun f' => feature_count self f' c
                 + (if decide (f' = f) then if decide (c = y) then v else 0 else 0)))
      by (intros; apply feature_count_learn_feature, Hcounter).
    rewrite sum_map_add, sum_keys_learn_feature
      by (apply feature_count_unobserved).
    rewrite <- Hct. f_equal.
    rewrite sum_indicator by apply NoDup_keys.
    rewrite (decide_True (P := f ∈ keys _)); [reflexivity |].
    rewrite keys_dom, dom_feature_counts_learn_feature.
    apply elem_of_union_l. by apply elem_of_singleton.
  - intros f'. rewrite feature_total_learn_feature.
    change (class_counts (learn_feature y self (f, v))) with (class_counts self).
    rewrite (sum_map_ext _
      (fun c => feature_count self f' c
                + (if decide (f' = f) then if decide (c = y) then v else 0 else 0)))
      by (intros; apply feature_count_learn_feature, Hcounter).
    rewrite sum_map_add, <- Hft. f_equal.
    destruct (decide (f' = f)) as [-> | Hne].
    + rewrite sum_indicator by apply NoDup_keys.
      rewrite (decide_True (P := y ∈ keys _)); [reflexivity | by apply keys_dom].
    + apply eq_sym, sum_map_zero. done.
Qed.

Lemma consistent_count_class (y : string) (self : ComplementNB) :
  consistent self ->
  consistent (mkNB (alpha self) (Counter_update_elements [y] (class_counts self))
                   (feature_counts self) (feature_totals self) (class_totals self)).
Proof.
  intros [Hcounter Hclasses Hct Hft].
  assert (Hdom : dom (Counter_update_elements [y] (class_counts self))
                 = {[ y ]} ∪ dom (class_counts self))
    by (cbn; apply dom_insert_L).
  split; try done.
  - intros f c Hfc. cbn [class_counts]. rewrite Hdom.
    apply elem_of_union_r. by apply (Hclasses f).
  - intros f. unfold feature_total. cbn [feature_totals class_counts].
    fold (feature_total self f). rewrite Hft.
    set (g := fun c => feature_count self f c).
    change (sum (map g (keys (class_counts self)))
            = sum (map g (keys (Counter_update_elements [y] (class_counts self))))).
    destruct (decide (y ∈ dom (class_counts self))) as [Hy | Hy].
    + apply sum_Permutation, fmap_Permutation, keys_Permutation.
      rewrite Hdom. by rewrite union_singleton_elem.
    + apply not_elem_of_dom in Hy.
      rewrite (sum_Permutation
                 (map g (keys (Counter_update_elements [y] (class_counts self))))
                 (map g (y :: keys (class_counts self))))
        by (apply fmap_Permutation; cbn; apply keys_insert_new, Hy).
      simpl. rewrite sum_cons.
      assert (Hg : g y = 0); [| lia].
      destruct (decide (g y = 0)) as [H0 | H0]; [exact H0 |].
      apply Hclasses, not_elem_of_dom in H0; [done | exact Hy].
Qed.

Lemma consistent_learn_one (x : gmap string Z) (y : string) (self : ComplementNB) :
  consistent self -> consistent (learn_one x y self).
Proof.
  intros Hc. unfold learn_one.
  set (self1 := mkNB _ _ _ _ _).
  assert (H1 : consistent self1) by (by apply consistent_count_class).
  assert (Hy : y ∈ dom (class_counts self1)).
  { cbn. rewrite dom_insert_L. apply elem_of_union_l. by apply elem_of_singleton. }
  clearbody self1. revert self1 H1 Hy.
  induction (map_to_list x) as [| [f v] l IH]; intros self1 H1 Hy; [exact H1 |].
  simpl. apply IH; [by apply consistent_learn_feature | exact Hy].
Qed.

Lemma consistent_init (a : Q) : consistent (init a).
Proof.
  split.
  - intros f i Hf. cbn in Hf. by rewrite lookup_empty in Hf.
  - intros f c H. exfalso. apply H. reflexivity.
  - intros c. reflexivity.
  - intros f. reflexivity.
Qed.

Lemma consistent_learn_all (l : list (gmap string Z * string)) (self : ComplementNB) :
  consistent self -> consistent (learn_all l self).
Proof.
  revert self. induction l as [| [x y] l IH]; intros self Hc; [exact Hc |].
  simpl. apply IH. by apply consistent_learn_one.
Qed.

(** X12 (the invariants along [learn_one]).
    After any sequence of calls of [learn_one] on a new estimator, the
    total of every class is the sum of its counts over the observed
    features, and the total of every feature is the sum of its counts over
    the observed classes. *)
Lemma learn_one_keeps_invariants (l : list (gmap string Z * string)) (a : Q) :
  class_totals_invariant (learn_all l (init a))
  /\ feature_totals_invariant (learn_all l (init a)).
Proof.
  destruct (consistent_learn_all l (init a) (consistent_init a)) as [_ _ Hct Hft].
  by split.
Qed.

(** *** Estimators that learned samples of non-negative frequencies *)

Lemma non_negative_learn_feature (y : string) (self : ComplementNB)
  (f : string) (v : Z) :
  consistent self -> 0 <= v -> non_negative self ->
  non_negative (learn_feature y self (f, v)).
Proof.
  intros Hc Hv Hnn f' c. rewrite feature_count_learn_feature by apply Hc.
  specialize (Hnn f' c). repeat destruct (decide _); lia.
Qed.

Lemma non_negative_learn_one (x : gmap string Z) (y : string) (self : ComplementNB) :
  consistent self -> map_Forall (fun _ v => 0 <= v) x -> non_negative self ->
  non_negative (learn_one x y self).
Proof.
  intros Hc Hx Hnn. unfold learn_one.
  set (self1 := mkNB _ _ _ _ _).
  assert (H1 : consistent self1) by (by apply consistent_count_class).
  assert (Hy : y ∈ dom (class_counts self1)).
  { cbn. rewrite dom_insert_L. apply elem_of_union_l. by apply elem_of_singleton. }
  assert (Hnn1 : non_negative self1) by exact Hnn.
  assert (Hl : Forall (fun fv => 0 <= snd fv) (map_to_list x)).
  { apply Forall_forall. intros [f v] Hfv. apply elem_of_map_to_list in Hfv.
    by apply (Hx f v). }
  clearbody self1. revert self1 H1 Hy Hnn1.
  induction Hl as [| [f v] l Hv _ IH]; intros self1 H1 Hy Hnn1; [exact Hnn1 |].
  simpl. apply IH.
  - by apply consistent_learn_feature.
  - exact Hy.
  - by apply non_negative_learn_feature.
Qed.

Lemma non_negative_learn_all (l : list (gmap string Z * string)) (self : ComplementNB) :
  consistent self -> Forall non_negative_sample l -> non_negative self ->
  non_negative (learn_all l self).
Proof.
  intros Hc Hl. revert self Hc.
  induction Hl as [| [x y] l Hx _ IH]; intros self Hc Hnn; [exact Hnn |].
  simpl. apply IH.
  - by apply consistent_learn_one.
  - by apply non_negative_learn_one.
Qed.

Lemma rate_positive_consistent (self : ComplementNB) (f c : string) :
  consistent self -> non_negative self ->
  feature_counts self <> ∅ ->
  c ∈ dom (class_counts self) ->
  rate_positive self f c.
Proof.
  intros [_ _ Hct Hft] Hnn Hne Hc. unfold rate_positive.
  assert (Hnum : feature_count self f c <= feature_total self f).
  { rewrite Hft. apply sum_ge_elem.
    - apply Forall_forall. intros z Hz.
      apply list_elem_of_fmap in Hz as [c' [-> _]]. apply Hnn.
    - apply list_elem_of_fmap. exists c. split; [reflexivity | by apply keys_dom]. }
  assert (Hden : 0 <= class_total self c).
  { rewrite Hct. apply sum_nonneg, Forall_forall. intros z Hz.
    apply list_elem_of_fmap in Hz as [f' [-> _]]. apply Hnn. }
  assert (HV : 1 <= n_features self).
  { unfold n_features. apply map_size_non_empty_iff in Hne. lia. }
  apply Z.mul_pos_pos; lia.
Qed.

(** *** The total of [class_counts] *)

Lemma class_counts_learn_one (x : gmap string Z) (y : string) (self : ComplementNB) :
  class_counts (learn_one x y self)
  = <[y := dict_get y 0 (class_counts self) + 1]> (class_counts self).
Proof.
  unfold learn_one. set (self1 := mkNB _ _ _ _ _).
  change (<[y := dict_get y 0 (class_counts self) + 1]> (class_counts self))
    with (class_counts self1).
  clearbody self1. revert self1.
  induction (map_to_list x) as [| [f v] l IH]; intros self1; [reflexivity |].
  simpl. by rewrite IH.
Qed.

Lemma positive_counts_learn_one (x : gmap string Z) (y : string)
  (self : ComplementNB) :
  positive_counts self -> positive_counts (learn_one x y self).
Proof.
  unfold positive_counts. intros Hp. rewrite class_counts_learn_one.
  apply map_Forall_insert_2; [| exact Hp].
  unfold dict_get. destruct (class_counts self !! y) as [v |] eqn:Hy; [| lia].
  specialize (Hp y v Hy). simpl in Hp. lia.
Qed.

Lemma learned_counts (l : list (gmap string Z * string)) (self : ComplementNB) :
  positive_counts self ->
  positive_counts (learn_all l self)
  /\ (l <> [] -> class_counts (learn_all l self) <> ∅).
Proof.
  revert self. induction l as [| [x y] l IH]; intros self Hp; [by split |].
  simpl. destruct (IH (learn_one x y self) (positive_counts_learn_one x y self Hp))
    as [Hp' Hne].
  split; [exact Hp' |]. intros _. destruct l as [| xy l].
  - simpl. rewrite class_counts_learn_one. apply insert_non_empty.
  - apply Hne. discriminate.
Qed.

Lemma sum_ge_length (l : list Z) :
  Forall (fun v => 1 <= v) l -> Z.of_nat (length l) <= sum l.
Proof.
  induction 1 as [| v l Hv _ IH]; [by rewrite sum_nil |].
  rewrite sum_cons. simpl length. lia.
Qed.

Lemma total_positive (self : ComplementNB) :
  positive_counts self -> class_counts self <> ∅ ->
  0 < sum (map snd (map_to_list (class_counts self))).
Proof.
  intros Hp Hne.
  assert (Hl : Forall (fun v => 1 <= v) (map snd (map_to_list (class_counts self)))).
  { apply Forall_forall. intros v Hv.
    apply list_elem_of_fmap in Hv as [[c v'] [-> Hcv]].
    apply elem_of_map_to_list in Hcv. by apply (Hp c v'). }
  apply sum_ge_length in Hl. rewrite length_map in Hl.
  assert (Hlen : length (map_to_list (class_counts self)) <> 0%nat).
  { intros H0. apply Hne, map_to_list_empty_iff. by apply nil_length_inv. }
  lia.
Qed.


(** *** The reading methods on estimators that learned with [learn_one] *)

(** On an estimator that learned one sample or more, a class that was never
    seen has prior 0. *)
Lemma p_class_unseen_after_learning (l : list (gmap string Z * string)) (a : Q)
  (c : string) :
  l <> [] ->
  class_counts (learn_all l (init a)) !! c = None ->
  p_class c (learn_all l (init a)) = (Ok 0%Q, learn_all l (init a)).
Proof.
  intros Hl Hc.
  assert (Hp : positive_counts (init a)) by (intros k v Hk; by cbn in Hk).
  destruct (learned_counts l (init a) Hp) as [Hp' Hne].
  pose proof (total_positive _ Hp' (Hne Hl)) as Htotal.
  rewrite p_class_eval by lia.
  unfold Counter_getitem. rewrite Hc. by rewrite Qred_zero_div.
Qed.

(** X14 (scoring after learning).
    On an estimator that learned samples of non-negative frequencies, among
    them a feature, every query is scored for every observed class. *)
Lemma joint_log_likelihood_after_learning (l : list (gmap string Z * string))
  (a : Q) (x : gmap string Z) :
  Forall non_negative_sample l ->
  feature_counts (learn_all l (init a)) <> ∅ ->
  exists m : gmap string R,
    joint_log_likelihood x (learn_all l (init a)) = (Ok m, learn_all l (init a))
    /\ dom m = dom (class_counts (learn_all l (init a)))
    /\ forall c, c ∈ dom (class_counts (learn_all l (init a))) ->
                 m !! c = Some (score (learn_all l (init a)) x c).
Proof.
  intros Hl Hne.
  pose proof (consistent_learn_all l (init a) (consistent_init a)) as Hc.
  assert (Hnn : non_negative (learn_all l (init a))).
  { apply non_negative_learn_all; [apply consistent_init | exact Hl |].
    intros f c. reflexivity. }
  eexists. split; [| split].
  - apply joint_log_likelihood_eval.
    apply Forall_forall. intros c Hcl. apply Forall_forall. intros f _.
    apply rate_positive_consistent; [exact Hc | exact Hnn | exact Hne |].
    by apply keys_dom.
  - rewrite dom_comprehension. apply set_eq. intros k.
    by rewrite elem_of_list_to_set, keys_dom.
  - intros c Hcl. apply lookup_comprehension. by apply keys_dom.
Qed.


(** When a class was observed with no feature at all, the table of weights
    has no row for it while the divider has one, and
    [joint_log_likelihood_many] raises where [joint_log_likelihood]
    scores. *)
Example class_without_features :
  batched one_row (learn_one ∅ "B" (learn_one {[ "a" := 1 ]} "A" (init 1)))
  = Raise ValueError
  /\ exists m,
       stacked one_row (learn_one ∅ "B" (learn_one {[ "a" := 1 ]} "A" (init 1)))
       = Ok [m].
Proof.
  split; [vm_compute; reflexivity |].
  eexists. vm_compute. reflexivity.
Qed.

(** *** The doctest of the class *)

(** Learning the three sentences one by one or as one batch gives the
    priors 2/3 and 1/3, and the same statistics when the rows of the batch
    are learned one by one. *)
Example doctest_priors :
  fst (p_class "health" (learn_all sentences (init 1))) = Ok (2 # 3)%Q
  /\ fst (p_class "butcher" (learn_all sentences (init 1))) = Ok (1 # 3)%Q
  /\ fst (p_class "health" (learn_many sentences_X sentences_y (init 1)))
     = Ok (2 # 3)%Q
  /\ fst (p_class "butcher" (learn_many sentences_X sentences_y (init 1)))
     = Ok (1 # 3)%Q.
Proof. repeat split; vm_compute; reflexivity. Qed.

Example doctest_one_batch :
  statistics (learn_many sentences_X sentences_y (init 1))
  = statistics (learn_all (zip (row_dicts sentences_X) sentences_y) (init 1)).
Proof. vm_compute. reflexivity. Qed.

(** With the unseen column after the seen one, the two ways of scoring
    agree. *)
Example known_column_first_agrees :
  stacked known_first two_classes = batched known_first two_classes.
Proof.
  assert (Hs : stacked known_first two_classes
               = Ok [ {[ "A" := (0 + 0 * - ln (Q2R (3 # 2)) + 1 * - ln (Q2R (1 # 2)))%R;
                         "B" := (0 + 0 * - ln (Q2R (2 # 3)) + 1 * - ln (Q2R (1 # 3)))%R ]} ])
    by (vm_compute; reflexivity).
  assert (Hb : batched known_first two_classes
               = Ok [ {[ "A" := (0 + 0 * (-1 * ln (Q2R (3 # 2)))
                                 + 1 * (-1 * ln (Q2R (1 # 2))))%R;
                         "B" := (0 + 0 * (-1 * ln (Q2R (2 # 3)))
                                 + 1 * (-1 * ln (Q2R (1 # 3))))%R ]} ])
    by (vm_compute; reflexivity).
  rewrite Hs, Hb. do 3 f_equal.
  - ring.
  - f_equal. ring.
Qed.

End complement_props.

(** ** Properties of the adapters *)

Module creme_to_sklearn_props.
Import creme_to_sklearn creme_to_sklearn_spec.

(** *** Inference before fitting, and with another number of columns *)

Section Errors.
Context {S : Type} `{!Estimator S}.

Lemma not_fitted_regressor_predict (X : list (list Z)) (w : world S) :
  instance_ (fst w) = None ->
  Creme2SKLRegressor.predict X w = (Raise NotFittedError, w).
Proof.
  intros H. unfold Creme2SKLRegressor.predict, check_is_fitted, self.
  unfold mbind, SKM_bind. simpl. rewrite H. reflexivity.
Qed.

Lemma not_fitted_classifier_predict (X : list (list Z)) (w : world S) :
  instance_ (fst w) = None ->
  Creme2SKLClassifier.predict X w = (Raise NotFittedError, w).
Proof.
  intros H. unfold Creme2SKLClassifier.predict, check_is_fitted, self.
  unfold mbind, SKM_bind. simpl. rewrite H. reflexivity.
Qed.

Lemma not_fitted_classifier_predict_proba (X : list (list Z)) (w : world S) :
  instance_ (fst w) = None ->
  Creme2SKLClassifier.predict_proba X w = (Raise NotFittedError, w).
Proof.
  intros H. unfold Creme2SKLClassifier.predict_proba, check_is_fitted, self.
  unfold mbind, SKM_bind. simpl. rewrite H. reflexivity.
Qed.

Lemma not_fitted_transformer_transform (X : list (list Z)) (w : world S) :
  instance_ (fst w) = None ->
  Creme2SKLTransformer.transform X w = (Raise NotFittedError, w).
Proof.
  intros H. unfold Creme2SKLTransformer.transform, check_is_fitted, self.
  unfold mbind, SKM_bind. simpl. rewrite H. reflexivity.
Qed.

Lemma not_fitted_clusterer_predict (X : list (list Z)) (w : world S) :
  instance_ (fst w) = None ->
  Creme2SKLClusterer.predict X w = (Raise NotFittedError, w).
Proof.
  intros H. unfold Creme2SKLClusterer.predict, check_is_fitted, self.
  unfold mbind, SKM_bind. simpl. rewrite H. reflexivity.
Qed.

(** The check the three other adapters make: with [instance_] set and
    [n_features_in_] at [n], a valid table of another width is refused. *)
Lemma shape_mismatch_regressor_predict (X : list (list Z)) (w : world S)
  (l n : nat) :
  instance_ (fst w) = Some l -> n_features_in_ (fst w) = Some n ->
  check_array X = Ok X -> shape1 X <> n ->
  Creme2SKLRegressor.predict X w = (Raise ValueError, w).
Proof.
  intros Hi Hn HX Hne.
  unfold Creme2SKLRegressor.predict, check_is_fitted, check_n_features, self, lift, raise.
  unfold mbind, SKM_bind. simpl. rewrite Hi, HX. simpl. rewrite Hn.
  destruct (decide _); [reflexivity | contradiction].
Qed.

Lemma shape_mismatch_classifier_predict (X : list (list Z)) (w : world S)
  (l n : nat) :
  instance_ (fst w) = Some l -> n_features_in_ (fst w) = Some n ->
  check_array X = Ok X -> shape1 X <> n ->
  Creme2SKLClassifier.predict X w = (Raise ValueError, w)
  /\ Creme2SKLClassifier.predict_proba X w = (Raise ValueError, w).
Proof.
  intros Hi Hn HX Hne.
  unfold Creme2SKLClassifier.predict, Creme2SKLClassifier.predict_proba,
    check_is_fitted, check_n_features, self, lift, raise.
  unfold mbind, SKM_bind. simpl. rewrite Hi, HX. simpl. rewrite Hn.
  destruct (decide _); [split; reflexivity | contradiction].
Qed.

Lemma shape_mismatch_transformer_transform (X : list (list Z)) (w : world S)
  (l n : nat) :
  instance_ (fst w) = Some l -> n_features_in_ (fst w) = Some n ->
  check_array X = Ok X -> shape1 X <> n ->
  Creme2SKLTransformer.transform X w = (Raise ValueError, w).
Proof.
  intros Hi Hn HX Hne.
  unfold Creme2SKLTransformer.transform, check_is_fitted, check_n_features, self, lift, raise.
  unfold mbind, SKM_bind. simpl. rewrite Hi, HX. simpl. rewrite Hn.
  destruct (decide _); [reflexivity | contradiction].
Qed.

End Errors.

(** C8 (errors of the inference methods).
    A clusterer adapter fitted on a table of 3
    columns predicts for a table of 4 columns and raises nothing:
    [Creme2SKLClusterer.predict] does not compare the width of [X] with
    [n_features_in_]. The regressor adapter, fitted and asked the same,
    raises [ValueError], as do the classifier and transformer adapters;
    before any fit both raise the not-fitted error. *)
Theorem C8_clusterer_predict_accepts_other_width :
  n_features_in_ (fst (snd (fit ClustererAdapter [[1; 2; 3]] None (adapter0, store0))))
  = Some 3%nat
  /\ fst (predict ClustererAdapter [[1; 2; 3; 4]]
            (snd (fit ClustererAdapter [[1; 2; 3]] None (adapter0, store0))))
     = Ok (Column [1])
  /\ fst (predict RegressorAdapter [[1; 2; 3; 4]]
            (snd (fit RegressorAdapter [[1; 2; 3]] (Some [5]) (adapter0, store0))))
     = Raise ValueError
  /\ fst (predict ClustererAdapter [[1; 2; 3]] (adapter0, store0))
     = Raise NotFittedError
  /\ fst (predict RegressorAdapter [[1; 2; 3]] (adapter0, store0))
     = Raise NotFittedError.
Proof. repeat split; vm_compute; reflexivity. Qed.

(** *** The caller's estimator is never written to *)

Section Frame.
Context {S : Type} `{!Estimator S}.
Variable P : world S -> Prop.

Lemma preserves_ret {A : Type} (a : A) : preserves P (mret a).
Proof. intros w Hw. exact Hw. Qed.

Lemma preserves_raise {A : Type} (e : exn) : preserves P (raise (A := A) e).
Proof. intros w Hw. exact Hw. Qed.

Lemma preserves_lift {A : Type} (r : result A) : preserves P (lift r).
Proof. intros w Hw. exact Hw. Qed.

Lemma preserves_self : preserves P self.
Proof. intros w Hw. exact Hw. Qed.

Lemma preserves_deref (l : nat) : preserves P (deref l).
Proof. intros w Hw. unfold deref. by destruct (snd w !! l). Qed.

Lemma preserves_bind {A B : Type} (m : SKM S A) (f : A -> SKM S B) :
  preserves P m -> (forall a, preserves P (f a)) -> preserves P (m ≫= f).
Proof.
  intros Hm Hf w Hw. unfold mbind, SKM_bind.
  specialize (Hm w Hw). destruct (m w) as [[a | e] w']; simpl in *.
  - by apply Hf.
  - exact Hm.
Qed.

Lemma preserves_for_each {A : Type} (l : list A) (body : A -> SKM S unit) :
  (forall a, preserves P (body a)) -> preserves P (for_each l body).
Proof.
  intros Hbody. induction l as [| a l IH]; simpl.
  - apply preserves_ret.
  - apply preserves_bind; [apply Hbody | intros _; exact IH].
Qed.

Lemma preserves_mapM {A B : Type} (f : A -> SKM S B) (l : list A) :
  (forall a, preserves P (f a)) -> preserves P (mapM f l).
Proof.
  intros Hf. induction l as [| a l IH]; simpl.
  - apply preserves_ret.
  - apply preserves_bind; [apply Hf |]. intros b.
    apply preserves_bind; [exact IH |]. intros k. apply preserves_ret.
Qed.

End Frame.

Section Owned.
Context {S : Type} `{!Estimator S}.
Variable before : gmap nat (object S).
Variable e : nat.

Lemma owned_set_self (f : Adapter -> Adapter) :
  (forall a, estimator (f a) = estimator a
             /\ (instance_ (f a) = instance_ a \/ instance_ (f a) = None)) ->
  preserves (owned before e) (set_self f).
Proof.
  intros Hf [a σ] (He & Hkeep & Hinst). destruct (Hf a) as [Hest Hi].
  split; [| split; [exact Hkeep |]]; simpl in *.
  - by rewrite Hest.
  - intros l Hl. destruct Hi as [Heq | Heq]; rewrite Heq in Hl.
    + by apply Hinst.
    + discriminate.
Qed.

Lemma owned_store_label (i : nat) (label : Z) :
  preserves (owned before e) (set_self (Creme2SKLClusterer.store_label i label)).
Proof.
  apply owned_set_self. intros a.
  unfold Creme2SKLClusterer.store_label. destruct (labels_ a); simpl; tauto.
Qed.

Lemma owned_ensure_instance : preserves (owned before e) ensure_instance.
Proof.
  intros [a σ] (He & Hkeep & Hinst).
  unfold ensure_instance, deepcopy, deref, allocate, self.
  unfold mbind, SKM_bind. simpl in *.
  destruct (instance_ a) as [l |] eqn:Hl; simpl.
  - split; [exact He |]. split; [exact Hkeep | simpl; by rewrite Hl].
  - destruct (σ !! estimator a) as [o |] eqn:Ho; simpl.
    + assert (Hfresh : σ !! fresh (dom σ) = None)
        by (apply not_elem_of_dom, is_fresh).
      split; [exact He |]. split; simpl.
      * intros l' o' Hl'. rewrite lookup_insert_ne; [by apply Hkeep |].
        intros <-. apply Hkeep in Hl'. congruence.
      * intros l' [= <-]. destruct (before !! fresh (dom σ)) as [o' |] eqn:Hb;
          [| reflexivity].
        apply Hkeep in Hb. congruence.
    + split; [exact He |]. split; [exact Hkeep | simpl; by rewrite Hl].
Qed.

Lemma owned_call_fit_one (x : gmap nat Z) (yi : option Z) :
  preserves (owned before e) (call_fit_one x yi).
Proof.
  intros [a σ] (He & Hkeep & Hinst).
  unfold call_fit_one, the_instance, deref, store_object, self, raise.
  unfold mbind, SKM_bind. simpl in *.
  destruct (instance_ a) as [l |] eqn:Hl; simpl.
  - destruct (σ !! l) as [o |] eqn:Ho; simpl.
    + split; [exact He |]. split; simpl; [| by rewrite Hl].
      intros l' o' Hl'. rewrite lookup_insert_ne; [by apply Hkeep |].
      intros <-. rewrite (Hinst l eq_refl) in Hl'. discriminate.
    + split; [exact He |]. split; [exact Hkeep | simpl; by rewrite Hl].
  - split; [exact He |]. split; [exact Hkeep | simpl; by rewrite Hl].
Qed.

Lemma owned_call_instance {A : Type} (m : S -> A) :
  preserves (owned before e) (call_instance m).
Proof.
  unfold call_instance, the_instance.
  apply preserves_bind.
  - apply preserves_bind; [apply preserves_self |]. intros a.
    destruct (instance_ a); [apply preserves_ret | apply preserves_raise].
  - intros l. apply preserves_bind; [apply preserves_deref |].
    intros o. apply preserves_ret.
Qed.

End Owned.

Ltac owned_step :=
  first
    [ apply preserves_ret | apply preserves_raise | apply preserves_lift
    | apply preserves_self | apply preserves_deref
    | apply owned_ensure_instance | apply owned_call_fit_one
    | apply owned_call_instance | apply owned_store_label
    | apply owned_set_self; intros ?; simpl; tauto
    | apply preserves_for_each; intros ?
    | apply preserves_mapM; intros ?
    | apply preserves_bind; [| intros ?]
    | match goal with
      | |- preserves _ (match ?x with _ => _ end) => destruct x
      | |- preserves _ (if ?x then _ else _) => destruct x
      | |- preserves _ (let '(_, _) := ?x in _) => destruct x
      end ].

Ltac owned_steps := repeat owned_step.

Section OwnedMethods.
Context {S : Type} `{!Estimator S}.
Variable before : gmap nat (object S).
Variable e : nat.

Lemma owned_fit (v : variant) (X : list (list Z)) (y : option (list Z)) :
  preserves (owned before e) (fit v X y).
Proof.
  destruct v; unfold fit.
  - unfold Creme2SKLRegressor.fit, Creme2SKLRegressor._partial_fit,
      store_n_features. owned_steps.
  - unfold Creme2SKLClassifier.fit, Creme2SKLClassifier._partial_fit,
      Creme2SKLClassifier._check_partial_fit_first_call,
      Creme2SKLClassifier.the_classes, Creme2SKLClassifier.encode_labels,
      isinstance_estimator, store_n_features. owned_steps.
  - unfold Creme2SKLTransformer.fit, Creme2SKLTransformer._partial_fit,
      the_instance, store_n_features. owned_steps.
  - unfold Creme2SKLClusterer.fit, Creme2SKLClusterer._partial_fit,
      store_n_features. owned_steps.
Qed.

Lemma owned_partial_fit (v : variant) (X : list (list Z)) (y : option (list Z))
  (classes : option (list Z)) :
  preserves (owned before e) (partial_fit v X y classes).
Proof.
  destruct v; unfold partial_fit.
  - unfold Creme2SKLRegressor.partial_fit, Creme2SKLRegressor._partial_fit,
      store_n_features. owned_steps.
  - unfold Creme2SKLClassifier.partial_fit, Creme2SKLClassifier._partial_fit,
      Creme2SKLClassifier._check_partial_fit_first_call,
      Creme2SKLClassifier.the_classes, Creme2SKLClassifier.encode_labels,
      isinstance_estimator, store_n_features. owned_steps.
  - unfold Creme2SKLTransformer.partial_fit, Creme2SKLTransformer._partial_fit,
      the_instance, store_n_features. owned_steps.
  - unfold Creme2SKLClusterer.partial_fit, Creme2SKLClusterer._partial_fit,
      store_n_features. owned_steps.
Qed.

Lemma owned_run (v : variant) (c : call) : preserves (owned before e) (run v c).
Proof.
  destruct c; unfold run.
  - apply preserves_bind; [apply owned_fit | intros _; apply preserves_ret].
  - apply preserves_bind; [apply owned_partial_fit | intros _; apply preserves_ret].
  - destruct v; unfold predict, Creme2SKLRegressor.predict,
      Creme2SKLClassifier.predict, Creme2SKLClusterer.predict,
      check_is_fitted, check_n_features; owned_steps.
  - destruct v; unfold predict_proba, Creme2SKLClassifier.predict_proba,
      Creme2SKLClassifier.the_classes, check_is_fitted, check_n_features;
      owned_steps.
  - destruct v; unfold transform, Creme2SKLTransformer.transform,
      check_is_fitted, check_n_features; owned_steps.
Qed.

Lemma owned_run_all (v : variant) (cs : list call) (w : world S) :
  owned before e w -> owned before e (run_all v cs w).
Proof.
  revert w. induction cs as [| c cs IH]; intros w Hw; [exact Hw |].
  apply IH. by apply owned_run.
Qed.

End OwnedMethods.

(** C6 (the caller's estimator is not mutated).
    Take an adapter of any of the four classes, constructed on an
    estimator at address [e] of the caller's store. After any sequence of
    calls of [fit], [partial_fit] and the inference methods, with any
    arguments and whether they succeed or raise, the object at [e] is what
    it was, and so is every other object the store held: the adapter
    writes only to the copy it made. *)
Theorem C6_fit_leaves_the_estimator {S : Type} `{!Estimator S}
  (v : variant) (e : nat) (store : gmap nat (object S)) (a : Adapter)
  (cs : list call) :
  construct v e store = Ok a ->
  snd (run_all v cs (a, store)) !! e = store !! e
  /\ keeps store (snd (run_all v cs (a, store))).
Proof.
  intros Hc.
  assert (Ha : a = mkAdapter e None None None None None /\ is_Some (store !! e)).
  { destruct v; unfold construct, Creme2SKLRegressor.__init__,
      Creme2SKLClassifier.__init__, Creme2SKLTransformer.__init__,
      Creme2SKLClusterer.__init__, init in Hc;
      destruct (store !! e) as [o |]; try discriminate;
      match type of Hc with (if ?b then _ else _) = _ => destruct b end;
      try discriminate; injection Hc as <-; eauto. }
  destruct Ha as [-> [o Ho]].
  assert (Hown : owned store e (mkAdapter e None None None None None, store)).
  { split; [reflexivity |]. split; [by intros l o' Hl | intros l Hl; discriminate]. }
  apply (owned_run_all store e v cs) in Hown. destruct Hown as (_ & Hkeep & _).
  split; [| exact Hkeep]. rewrite Ho. by apply Hkeep.
Qed.

Lemma C6_fit_leaves_the_estimator_witness :
  construct ClassifierAdapter 7%nat store0 = Ok adapter0
  /\ snd (run_all ClassifierAdapter
            [Fit [[1; 2]; [3; 4]] (Some [0; 1]);
             PartialFit [[5; 6]] (Some [1]) None]
            (adapter0, store0)) !! 7%nat = store0 !! 7%nat
  /\ keeps store0
       (snd (run_all ClassifierAdapter
               [Fit [[1; 2]; [3; 4]] (Some [0; 1]);
                PartialFit [[5; 6]] (Some [1]) None]
               (adapter0, store0))).
Proof.
  assert (H : construct ClassifierAdapter 7%nat store0 = Ok adapter0)
    by reflexivity.
  split; [exact H |].
  exact (C6_fit_leaves_the_estimator ClassifierAdapter 7%nat store0 adapter0 _ H).
Defined.

(** *** What a learning call does, step by step *)

Section Exec.
Context {S : Type} `{!Estimator S}.

Lemma bind_Ok {A B : Type} (m : SKM S A) (f : A -> SKM S B) (w w' : world S) (a : A) :
  m w = (Ok a, w') -> (m ≫= f) w = f a w'.
Proof. intros H. unfold mbind, SKM_bind. by rewrite H. Qed.

Lemma bind_Raise {A B : Type} (m : SKM S A) (f : A -> SKM S B) (w w' : world S) (e : exn) :
  m w = (Raise e, w') -> (m ≫= f) w = (Raise e, w').
Proof. intros H. unfold mbind, SKM_bind. by rewrite H. Qed.

Lemma store_n_features_ok (X : list (list Z)) (a : Adapter) (σ : gmap nat (object S)) :
  n_features_in_ a = None \/ n_features_in_ a = Some (shape1 X) ->
  store_n_features X (a, σ) = (Ok tt, (set_n_features_in_ (shape1 X) a, σ)).
Proof.
  intros Hn. unfold store_n_features, self, set_self, raise.
  unfold mbind, SKM_bind. simpl.
  destruct Hn as [-> | ->]; [reflexivity |].
  destruct (decide _); [contradiction | reflexivity].
Qed.

Lemma ensure_instance_ok (a : Adapter) (σ : gmap nat (object S)) (o : object S) :
  start_object (a, σ) = Some o ->
  ensure_instance (a, σ)
  = (Ok tt, (set_instance_ (target (a, σ)) a, <[target (a, σ) := o]> σ)).
Proof.
  unfold start_object, target, ensure_instance, deepcopy, deref, allocate, self, set_self.
  unfold mbind, SKM_bind. simpl. intros Ho.
  destruct a as [e [l |] n c le lb]; simpl in *.
  - by rewrite insert_id.
  - by rewrite Ho.
Qed.

Lemma for_each_call_fit_one {A : Type} (fx : A -> gmap nat Z) (fy : A -> option Z)
  (rows : list A) (a : Adapter) (σ : gmap nat (object S)) (l : nat) (o : object S) :
  instance_ a = Some l -> σ !! l = Some o ->
  for_each rows (fun v => call_fit_one (fx v) (fy v)) (a, σ)
  = (Ok tt, (a, <[l := mkObj (cls o)
                          (learn (map (fun v => (fx v, fy v)) rows) (state o))]> σ)).
Proof.
  intros Hl. revert σ o. induction rows as [| v rows IH]; intros σ o Ho; simpl.
  - unfold mret, SKM_ret. rewrite insert_id; [reflexivity |]. by destruct o.
  - unfold mbind, SKM_bind.
    unfold call_fit_one at 1, the_instance, deref, store_object, self.
    unfold mbind, SKM_bind. simpl. rewrite Hl. simpl. rewrite Ho. simpl.
    rewrite (IH _ (mkObj (cls o) (fit_one (state o) (fx v) (fy v))))
      by apply lookup_insert_eq.
    simpl. by rewrite insert_insert_eq.
Qed.

Lemma for_each_fit_one (rows : list (gmap nat Z * option Z)) (a : Adapter)
  (σ : gmap nat (object S)) (l : nat) (o : object S) :
  instance_ a = Some l -> σ !! l = Some o ->
  for_each rows (fun xy => call_fit_one (fst xy) (snd xy)) (a, σ)
  = (Ok tt, (a, <[l := mkObj (cls o) (learn rows (state o))]> σ)).
Proof.
  intros Hl Ho. rewrite (for_each_call_fit_one fst snd rows a σ l o Hl Ho).
  replace (map (fun v : gmap nat Z * option Z => (fst v, snd v)) rows) with rows;
    [reflexivity |].
  rewrite <- (map_id rows) at 1. apply map_ext. by intros [x y].
Qed.

Lemma iter_array_None (X : list (list Z)) :
  map (fun xy : gmap nat Z * option Z => (fst xy, None)) (iter_array X None)
  = iter_array X None.
Proof. unfold iter_array. rewrite map_map. reflexivity. Qed.

Lemma for_each_fit_one_None (X : list (list Z)) (a : Adapter)
  (σ : gmap nat (object S)) (l : nat) (o : object S) :
  instance_ a = Some l -> σ !! l = Some o ->
  for_each (iter_array X None) (fun xy => call_fit_one (fst xy) None) (a, σ)
  = (Ok tt, (a, <[l := mkObj (cls o) (learn (iter_array X None) (state o))]> σ)).
Proof.
  intros Hl Ho.
  rewrite (for_each_call_fit_one fst (fun _ => None) _ a σ l o Hl Ho).
  by rewrite iter_array_None.
Qed.



Lemma lift_eval {A : Type} (r : result A) (w : world S) : lift r w = (r, w).
Proof. reflexivity. Qed.

Lemma regressor_partial_fit_ok (X : list (list Z)) (y : list Z) (a : Adapter)
  (σ : gmap nat (object S)) (o : object S) :
  check_X_y X (Some y) = Ok (X, y) ->
  n_features_in_ a = None \/ n_features_in_ a = Some (shape1 X) ->
  start_object (a, σ) = Some o ->
  Creme2SKLRegressor._partial_fit X (Some y) (a, σ)
  = (Ok tt,
     (set_instance_ (target (a, σ)) (set_n_features_in_ (shape1 X) a),
      <[target (a, σ) := mkObj (cls o) (learn (iter_array X (Some y)) (state o))]> σ)).
Proof.
  intros HX Hn Ho. unfold Creme2SKLRegressor._partial_fit.
  rewrite HX.
  erewrite bind_Ok by apply lift_eval. cbv beta iota.
  erewrite bind_Ok by (apply store_n_features_ok; exact Hn).
  erewrite bind_Ok by (apply ensure_instance_ok; exact Ho).
  erewrite for_each_fit_one; [| reflexivity | apply lookup_insert_eq].
  by rewrite insert_insert_eq.
Qed.



Lemma transformer_partial_fit_ok (X : list (list Z)) (y : option (list Z))
  (a : Adapter) (σ : gmap nat (object S)) (o : object S) :
  match y with
  | Some y' => check_X_y X y = Ok (X, y')
  | None => check_array X = Ok X
  end ->
  n_features_in_ a = None \/ n_features_in_ a = Some (shape1 X) ->
  start_object (a, σ) = Some o ->
  Creme2SKLTransformer._partial_fit X y (a, σ)
  = (Ok tt,
     (set_instance_ (target (a, σ)) (set_n_features_in_ (shape1 X) a),
      <[target (a, σ) :=
          mkObj (cls o)
            (learn (if SupervisedTransformer (cls o)
                    then iter_array X y else iter_array X None) (state o))]> σ)).
Proof.
  intros HX Hn Ho. unfold Creme2SKLTransformer._partial_fit.
  assert (Hv : match y with
               | None => X ← check_array X; Ok (X, None)
               | Some _ => '(X, y) ← check_X_y X y; Ok (X, Some y)
               end = Ok (X, y)).
  { destruct y as [y' |]; rewrite HX; reflexivity. }
  rewrite Hv.
  erewrite bind_Ok by apply lift_eval. cbv beta iota.
  erewrite bind_Ok by (apply store_n_features_ok; exact Hn).
  erewrite bind_Ok by (apply ensure_instance_ok; exact Ho).
  erewrite bind_Ok by reflexivity.
  erewrite bind_Ok
    by (unfold deref; cbn [snd]; rewrite lookup_insert_eq; reflexivity).
  destruct (SupervisedTransformer (cls o)).
  - erewrite for_each_fit_one; [| reflexivity | apply lookup_insert_eq].
    by rewrite insert_insert_eq.
  - erewrite for_each_fit_one_None; [| reflexivity | apply lookup_insert_eq].
    by rewrite insert_insert_eq.
Qed.



Lemma clusterer_loop (xs : list (gmap nat Z)) (j : nat) (a : Adapter)
  (σ : gmap nat (object S)) (l : nat) (o : object S) (pre : list Z) :
  instance_ a = Some l -> σ !! l = Some o ->
  labels_ a = Some (pre ++ replicate (length xs) 0) -> length pre = j ->
  for_each (zip (seq j (length xs)) (map (fun x => (x, @None Z)) xs))
    (fun ixy =>
       let x := fst (snd ixy) in
       call_fit_one x None;;
       label ← call_instance (fun s => predict_one s x);
       set_self (Creme2SKLClusterer.store_label (fst ixy) label)) (a, σ)
  = (Ok tt,
     (set_labels_ (pre ++ map int32 (online_labels xs (state o))) a,
      <[l := mkObj (cls o) (learn (map (fun x => (x, None)) xs) (state o))]> σ)).
Proof.
  revert j a σ o pre. induction xs as [| x xs IH]; intros j a σ o pre Hl Ho Hlab Hj.
  - simpl. unfold mret, SKM_ret. simpl in Hlab.
    rewrite insert_id by (by destruct o).
    destruct a; simpl in *. by inversion Hlab.
  - cbn [length seq map zip zip_with for_each].
    set (o1 := mkObj (cls o) (fit_one (state o) x None)).
    assert (Hfit : call_fit_one x None (a, σ) = (Ok tt, (a, <[l := o1]> σ))).
    { unfold call_fit_one, the_instance, deref, store_object, self.
      unfold mbind, SKM_bind. simpl. rewrite Hl. simpl. by rewrite Ho. }
    assert (Hpred : call_instance (fun s => predict_one s x) (a, <[l := o1]> σ)
                    = (Ok (predict_one (state o1) x), (a, <[l := o1]> σ))).
    { unfold call_instance, the_instance, deref, self.
      unfold mbind, SKM_bind. simpl. rewrite Hl. simpl.
      by rewrite lookup_insert_eq. }
    erewrite bind_Ok; cycle 1.
    { cbv zeta. cbn [fst snd]. erewrite bind_Ok by exact Hfit.
      erewrite bind_Ok by exact Hpred. reflexivity. }
    assert (Ha1 : Creme2SKLClusterer.store_label j (predict_one (state o1) x) a
                  = set_labels_ ((pre ++ [int32 (predict_one (state o1) x)])
                                 ++ replicate (length xs) 0) a).
    { unfold Creme2SKLClusterer.store_label. rewrite Hlab. simpl.
      rewrite insert_app_r_alt by lia.
      replace (j - length pre)%nat with 0%nat by lia. simpl.
      by rewrite <- app_assoc. }
    cbn [fst snd]. rewrite Ha1.
    rewrite (IH (Datatypes.S j) _ _ o1 (pre ++ [int32 (predict_one (state o1) x)])).
    + simpl. rewrite insert_insert_eq, <- app_assoc. reflexivity.
    + exact Hl.
    + apply lookup_insert_eq.
    + reflexivity.
    + rewrite length_app. simpl. lia.
Qed.

Lemma iter_array_feature_maps (X : list (list Z)) :
  iter_array X None = map (fun x => (x, None)) (feature_maps X).
Proof.
  unfold feature_maps, iter_array. rewrite !map_map. simpl.
  apply map_ext. reflexivity.
Qed.

Lemma length_feature_maps (X : list (list Z)) : length (feature_maps X) = length X.
Proof. unfold feature_maps, iter_array. by rewrite !length_map. Qed.

Lemma clusterer_partial_fit_ok (X : list (list Z)) (y : option (list Z))
  (a : Adapter) (σ : gmap nat (object S)) (o : object S) :
  check_array X = Ok X ->
  n_features_in_ a = None \/ n_features_in_ a = Some (shape1 X) ->
  start_object (a, σ) = Some o ->
  Creme2SKLClusterer._partial_fit X y (a, σ)
  = (Ok tt,
     (set_labels_ (map int32 (online_labels (feature_maps X) (state o)))
        (set_instance_ (target (a, σ)) (set_n_features_in_ (shape1 X) a)),
      <[target (a, σ) := mkObj (cls o) (learn (iter_array X None) (state o))]> σ)).
Proof.
  intros HX Hn Ho. unfold Creme2SKLClusterer._partial_fit.
  rewrite HX.
  erewrite bind_Ok by apply lift_eval.
  erewrite bind_Ok by (apply store_n_features_ok; exact Hn).
  erewrite bind_Ok by (apply ensure_instance_ok; exact Ho).
  erewrite bind_Ok by reflexivity.
  unfold enumerate. rewrite iter_array_feature_maps at 1 2.
  rewrite length_map.
  erewrite (clusterer_loop _ 0 _ _ (target (a, σ)) o []);
    [| reflexivity | apply lookup_insert_eq
     | cbn [fst labels_ set_labels_ app]; by rewrite length_feature_maps
     | reflexivity ].
  cbn [fst snd app].
  change (target (set_n_features_in_ (shape1 X) a, σ)) with (target (a, σ)).
  rewrite insert_insert_eq, <- iter_array_feature_maps. reflexivity.
Qed.

Lemma classifier_partial_fit_ok (X : list (list Z)) (y y' : list Z)
  (classes : option (list Z)) (a : Adapter) (σ : gmap nat (object S))
  (o ot : object S) (cs : list Z) :
  check_X_y X (Some y) = Ok (X, y) ->
  n_features_in_ a = None \/ n_features_in_ a = Some (shape1 X) ->
  start_object (a, σ) = Some o ->
  σ !! estimator a = Some ot ->
  classes_after a classes = Some cs ->
  Forall (fun l => l ∈ cs) y ->
  (if MultiClassifier (cls ot) then y' = y
   else encode (encoder_after a cs) y = Ok y') ->
  Creme2SKLClassifier._partial_fit X (Some y) classes (a, σ)
  = (Ok tt,
     (mkAdapter (estimator a) (Some (target (a, σ))) (Some (shape1 X)) (Some cs)
        (if MultiClassifier (cls ot) then label_encoder_ a
         else Some (encoder_after a cs))
        (labels_ a),
      <[target (a, σ) := mkObj (cls o) (learn (iter_array X (Some y')) (state o))]> σ)).
Proof.
  intros HX Hn Ho Hot Hcs Hy Hy'. destruct a as [e i n c le lb].
  unfold classes_after in Hcs. unfold encoder_after in *.
  cbn [classes_ n_features_in_ estimator label_encoder_ labels_] in *.
  set (a := mkAdapter e i n c le lb) in *.
  unfold Creme2SKLClassifier._partial_fit.
  assert (H1 : Creme2SKLClassifier._check_partial_fit_first_call classes (a, σ)
               = (Ok tt, (mkAdapter e i n (Some cs) le lb, σ))).
  { unfold Creme2SKLClassifier._check_partial_fit_first_call, self, set_self, raise.
    unfold mbind, SKM_bind. subst a. cbn [fst snd classes_].
    destruct c as [c |], classes as [c' |]; try discriminate.
    - destruct (decide _); [| discriminate]. by inversion Hcs.
    - by inversion Hcs.
    - by inversion Hcs. }
  erewrite bind_Ok by exact H1.
  rewrite HX. erewrite bind_Ok by apply lift_eval. cbv beta iota.
  erewrite bind_Ok by (apply store_n_features_ok; exact Hn).
  erewrite bind_Ok by reflexivity.
  destruct (decide (Forall (fun l => l ∈ cs) y)) as [_ | Hn']; [| contradiction].
  erewrite bind_Ok by reflexivity.
  erewrite bind_Ok by (apply ensure_instance_ok; exact Ho).
  change (target (set_n_features_in_ (shape1 X) (mkAdapter e i n (Some cs) le lb), σ))
    with (target (a, σ)).
  assert (Hot' : (<[target (a, σ) := o]> σ) !! e = Some ot).
  { unfold target, start_object in *. subst a. cbn [fst snd instance_ estimator] in *.
    destruct i as [l |].
    - by rewrite insert_id.
    - rewrite lookup_insert_ne; [exact Hot |].
      intros Heq. pose proof (is_fresh (dom σ)) as Hf. rewrite Heq in Hf.
      apply Hf, elem_of_dom. eauto. }
  erewrite (bind_Ok (isinstance_estimator MultiClassifier)); cycle 1.
  { unfold isinstance_estimator, self, deref. unfold mbind, SKM_bind.
    cbn [fst snd estimator set_instance_ set_n_features_in_].
    rewrite Hot'. reflexivity. }
  destruct (MultiClassifier (cls ot)).
  - subst y'. erewrite bind_Ok by reflexivity.
    erewrite for_each_fit_one; [| reflexivity | apply lookup_insert_eq].
    rewrite insert_insert_eq. reflexivity.
  - destruct le as [enc |].
    + erewrite (bind_Ok (Creme2SKLClassifier.encode_labels y)); cycle 1.
      { unfold Creme2SKLClassifier.encode_labels, self, set_self, lift.
        unfold mbind, SKM_bind. cbn. rewrite Hy'. reflexivity. }
      erewrite for_each_fit_one; [| reflexivity | apply lookup_insert_eq].
      rewrite insert_insert_eq. reflexivity.
    + erewrite (bind_Ok (Creme2SKLClassifier.encode_labels y)); cycle 1.
      { unfold Creme2SKLClassifier.encode_labels, Creme2SKLClassifier.the_classes,
          self, set_self, lift.
        unfold mbind, SKM_bind. cbn. rewrite Hy'. reflexivity. }
      erewrite for_each_fit_one; [| reflexivity | apply lookup_insert_eq].
      rewrite insert_insert_eq. reflexivity.
Qed.

End Exec.

(** *** The clusterer adapter and the width of the table *)

Section AnyWidth.
Context {S : Type} `{!Estimator S}.

Lemma mapM_SKM_pure {A B : Type} (f : A -> SKM S B) (g : A -> B) (l : list A)
  (w : world S) :
  Forall (fun a => f a w = (Ok (g a), w)) l ->
  mapM f l w = (Ok (map g l), w).
Proof.
  induction 1 as [| a l Ha _ IH]; [reflexivity |].
  cbn. unfold mbind, SKM_bind at 1. rewrite Ha.
  unfold SKM_bind at 1. fold (mapM f l). rewrite IH. reflexivity.
Qed.


End AnyWidth.

(** *** Labels and their encoding *)

Lemma remove_dups_NoDup_id (l : list Z) : NoDup l -> remove_dups l = l.
Proof.
  induction 1 as [| x l Hx _ IH]; [reflexivity |].
  simpl. destruct (decide_rel _ _ _) as [Hin | _]; [contradiction |].
  by rewrite IH.
Qed.

Lemma elem_of_unique_labels (y : list Z) (l : Z) : l ∈ unique_labels y <-> l ∈ y.
Proof.
  unfold unique_labels. rewrite merge_sort_Permutation. apply elem_of_remove_dups.
Qed.

Lemma unique_labels_idemp (y : list Z) :
  unique_labels (unique_labels y) = unique_labels y.
Proof.
  assert (Hnd : NoDup (unique_labels y)).
  { unfold unique_labels. rewrite merge_sort_Permutation. apply NoDup_remove_dups. }
  unfold unique_labels at 1. rewrite (remove_dups_NoDup_id _ Hnd).
  apply (Sorted_unique Z.le).
  - apply (Sorted_merge_sort Z.le).
  - apply (Sorted_merge_sort Z.le).
  - apply merge_sort_Permutation.
Qed.

Lemma mapM_result_cons {A B : Type} (f : A -> result B) (a : A) (l : list A) :
  mapM f (a :: l)
  = match f a with
    | Ok b => match mapM f l with Ok k => Ok (b :: k) | Raise e => Raise e end
    | Raise e => Raise e
    end.
Proof. reflexivity. Qed.

Lemma encode_total (enc y : list Z) :
  Forall (fun l => l ∈ enc) y -> encode enc y = Ok (codes enc y).
Proof.
  intros Hy. unfold codes.
  assert (H : exists c, encode enc y = Ok c); [| by destruct H as [c ->]].
  unfold encode. induction Hy as [| l y Hl _ [c IH]]; [by eexists |].
  rewrite mapM_result_cons.
  destruct (list_find_elem_of (fun c => c = l) enc l Hl eq_refl) as [[i x] Hf].
  rewrite Hf, IH. by eexists.
Qed.

(** *** What [fit] and [partial_fit] leave *)

Section Learning.
Context {S : Type} `{!Estimator S}.

Lemma instance_state_insert (a : Adapter) (σ : gmap nat (object S)) (l : nat)
  (o : object S) :
  instance_ a = Some l -> instance_state (a, <[l := o]> σ) = Some (state o).
Proof.
  intros Hl. unfold instance_state. cbn [fst snd]. rewrite Hl. cbn.
  by rewrite lookup_insert_eq.
Qed.

Lemma fit_regressor (X : list (list Z)) (y : list Z) (a : Adapter)
  (σ : gmap nat (object S)) (ot : object S) :
  σ !! estimator a = Some ot ->
  check_X_y X (Some y) = Ok (X, y) ->
  Creme2SKLRegressor.fit X (Some y) (a, σ)
  = (Ok tt,
     (mkAdapter (estimator a) (Some (fresh (dom σ))) (Some (shape1 X))
        (classes_ a) (label_encoder_ a) (labels_ a),
      <[fresh (dom σ) := mkObj (cls ot) (learn (iter_array X (Some y)) (state ot))]> σ)).
Proof.
  intros Hot HX. unfold Creme2SKLRegressor.fit.
  erewrite bind_Ok by reflexivity. erewrite bind_Ok by reflexivity.
  cbn [fst snd].
  erewrite regressor_partial_fit_ok; [reflexivity | exact HX | by left | exact Hot].
Qed.

Lemma fit_transformer (X : list (list Z)) (y : option (list Z)) (a : Adapter)
  (σ : gmap nat (object S)) (ot : object S) :
  σ !! estimator a = Some ot ->
  valid_input TransformerAdapter X y ->
  Creme2SKLTransformer.fit X y (a, σ)
  = (Ok tt,
     (mkAdapter (estimator a) (Some (fresh (dom σ))) (Some (shape1 X))
        (classes_ a) (label_encoder_ a) (labels_ a),
      <[fresh (dom σ) :=
          mkObj (cls ot) (learn (streamed TransformerAdapter (cls ot) [] X y)
                                (state ot))]> σ)).
Proof.
  intros Hot HX. unfold Creme2SKLTransformer.fit.
  erewrite bind_Ok by reflexivity. erewrite bind_Ok by reflexivity.
  cbn [fst snd].
  erewrite transformer_partial_fit_ok; [reflexivity | | by left | exact Hot].
  destruct y; exact HX.
Qed.

Lemma fit_clusterer (X : list (list Z)) (y : option (list Z)) (a : Adapter)
  (σ : gmap nat (object S)) (ot : object S) :
  σ !! estimator a = Some ot ->
  check_array X = Ok X ->
  Creme2SKLClusterer.fit X y (a, σ)
  = (Ok tt,
     (mkAdapter (estimator a) (Some (fresh (dom σ))) (Some (shape1 X))
        (classes_ a) (label_encoder_ a)
        (Some (map int32 (online_labels (feature_maps X) (state ot)))),
      <[fresh (dom σ) := mkObj (cls ot) (learn (iter_array X None) (state ot))]> σ)).
Proof.
  intros Hot HX. unfold Creme2SKLClusterer.fit.
  erewrite bind_Ok by reflexivity. erewrite bind_Ok by reflexivity.
  cbn [fst snd].
  erewrite clusterer_partial_fit_ok; [reflexivity | exact HX | by left | exact Hot].
Qed.

Lemma fit_classifier (X : list (list Z)) (y : list Z) (a : Adapter)
  (σ : gmap nat (object S)) (ot : object S) :
  σ !! estimator a = Some ot ->
  check_X_y X (Some y) = Ok (X, y) ->
  Creme2SKLClassifier.fit X (Some y) (a, σ)
  = (Ok tt,
     (mkAdapter (estimator a) (Some (fresh (dom σ))) (Some (shape1 X))
        (Some (unique_labels y))
        (if MultiClassifier (cls ot) then None else Some (unique_labels y))
        (labels_ a),
      <[fresh (dom σ) :=
          mkObj (cls ot)
            (learn (streamed ClassifierAdapter (cls ot) (unique_labels y) X (Some y))
                   (state ot))]> σ)).
Proof.
  intros Hot HX. unfold Creme2SKLClassifier.fit.
  do 4 (erewrite bind_Ok by reflexivity).
  erewrite bind_Ok by apply lift_eval.
  cbn [fst snd].
  erewrite (classifier_partial_fit_ok X y
              (if MultiClassifier (cls ot) then y else codes (unique_labels y) y)
              _ _ σ ot ot (unique_labels y)).
  - unfold encoder_after. cbn. rewrite unique_labels_idemp.
    unfold streamed. destruct (MultiClassifier (cls ot)); reflexivity.
  - exact HX.
  - by left.
  - exact Hot.
  - exact Hot.
  - unfold classes_after. cbn. by rewrite unique_labels_idemp.
  - apply Forall_forall. intros l Hl. by apply elem_of_unique_labels.
  - destruct (MultiClassifier (cls ot)); [reflexivity |].
    unfold encoder_after. cbn. rewrite unique_labels_idemp.
    apply encode_total, Forall_forall. intros l Hl. by apply elem_of_unique_labels.
Qed.

End Learning.

Section Calls.
Context {S : Type} `{!Estimator S}.

Lemma fit_reflects_only (v : variant) (w : world S) (ot : object S)
  (X : list (list Z)) (y : option (list Z)) :
  snd w !! estimator (fst w) = Some ot ->
  valid_input v X y ->
  exists w', fit v X y w = (Ok tt, w') /\ reflects_only v ot X y w'.
Proof.
  destruct w as [a σ]. cbn [fst snd]. intros Hot HX.
  destruct v; unfold fit, valid_input in *.
  - destruct y as [y |]; [| contradiction].
    eexists. split; [by apply fit_regressor |].
    split; [by apply instance_state_insert |]. split; [reflexivity | discriminate].
  - destruct y as [y |]; [| contradiction].
    eexists. split; [by apply fit_classifier |].
    split; [by apply instance_state_insert |]. split; [reflexivity |].
    intros _. split; reflexivity.
  - eexists. split; [by apply fit_transformer |].
    split; [by apply instance_state_insert |]. split; [reflexivity | discriminate].
  - assert (HX' : check_array X = Ok X) by (by destruct y).
    eexists. split; [by apply fit_clusterer |].
    split; [by apply instance_state_insert |]. split; [reflexivity | discriminate].
Qed.

Lemma learn_app (r1 r2 : list (gmap nat Z * option Z)) (s : S) :
  learn r2 (learn r1 s) = learn (r1 ++ r2) s.
Proof. unfold learn. by rewrite fold_left_app. Qed.

Lemma fresh_ne (σ : gmap nat (object S)) (e : nat) (o : object S) :
  σ !! e = Some o -> fresh (dom σ) <> e.
Proof.
  intros He Heq. pose proof (is_fresh (dom σ)) as Hf. rewrite Heq in Hf.
  apply Hf, elem_of_dom. eauto.
Qed.

Lemma construct_fresh (v : variant) (e : nat) (σ : gmap nat (object S)) (a : Adapter) :
  construct v e σ = Ok a -> a = mkAdapter e None None None None None.
Proof.
  intros Hc.
  destruct v; unfold construct, Creme2SKLRegressor.__init__,
    Creme2SKLClassifier.__init__, Creme2SKLTransformer.__init__,
    Creme2SKLClusterer.__init__, init in Hc;
    destruct (σ !! e) as [o |]; try discriminate;
    match type of Hc with (if ?b then _ else _) = _ => destruct b end;
    try discriminate; by injection Hc as <-.
Qed.

Ltac fields :=
  cbn [fst snd estimator instance_ n_features_in_ classes_ label_encoder_ labels_
       set_instance_ set_n_features_in_ set_labels_].

Lemma partial_fit_twice (v : variant) (e : nat) (σ : gmap nat (object S))
  (a0 : Adapter) (ot : object S) (classes : list Z)
  (X1 X2 : list (list Z)) (y1 y2 : option (list Z)) :
  construct v e σ = Ok a0 ->
  σ !! e = Some ot ->
  valid_input v X1 y1 -> valid_input v X2 y2 ->
  shape1 X2 = shape1 X1 ->
  labels_within v (unique_labels classes) y1 ->
  labels_within v (unique_labels classes) y2 ->
  exists w1 w2,
    partial_fit v X1 y1 (Some classes) (a0, σ) = (Ok tt, w1)
    /\ partial_fit v X2 y2 None w1 = (Ok tt, w2)
    /\ instance_state w2
       = Some (learn (streamed v (cls ot) (unique_labels classes) X1 y1
                      ++ streamed v (cls ot) (unique_labels classes) X2 y2)
                     (state ot))
    /\ n_features_in_ (fst w2) = Some (shape1 X1).
Proof.
  intros Hc Hot H1 H2 Hw Hy1 Hy2. apply construct_fresh in Hc. subst a0.
  pose proof (fresh_ne σ e ot Hot) as Hne.
  destruct v; unfold partial_fit, valid_input, labels_within in *.
  - destruct y1 as [y1 |]; [| contradiction]. destruct y2 as [y2 |]; [| contradiction].
    unfold Creme2SKLRegressor.partial_fit.
    eexists. eexists. split; [| split].
    + apply regressor_partial_fit_ok; [exact H1 | by left | exact Hot].
    + apply regressor_partial_fit_ok; [exact H2 | right; fields; by rewrite Hw |].
      unfold start_object, target. fields. apply lookup_insert_eq.
    + unfold target. fields.
      rewrite insert_insert_eq. split.
      * rewrite instance_state_insert by reflexivity. cbn [state]. by rewrite learn_app.
      * fields. by rewrite Hw.
  - destruct y1 as [y1 |]; [| contradiction]. destruct y2 as [y2 |]; [| contradiction].
    unfold Creme2SKLClassifier.partial_fit.
    set (cs := unique_labels classes) in *.
    assert (Hcs : unique_labels cs = cs) by apply unique_labels_idemp.
    eexists. eexists. split; [| split].
    + apply (classifier_partial_fit_ok X1 y1
               (if MultiClassifier (cls ot) then y1 else codes cs y1)
               _ _ σ ot ot cs);
        [exact H1 | by left | exact Hot | exact Hot | reflexivity | exact Hy1 |].
      destruct (MultiClassifier (cls ot)); [reflexivity |].
      unfold encoder_after. fields. rewrite Hcs. by apply encode_total.
    + eapply (classifier_partial_fit_ok X2 y2
               (if MultiClassifier (cls ot) then y2 else codes cs y2)
               _ _ _ _ ot cs).
      * exact H2.
      * right. fields. by rewrite Hw.
      * unfold start_object, target. fields. apply lookup_insert_eq.
      * unfold target. fields. by rewrite lookup_insert_ne.
      * reflexivity.
      * exact Hy2.
      * unfold encoder_after. fields.
        destruct (MultiClassifier (cls ot)); [reflexivity |].
        unfold encoder_after. fields. rewrite Hcs. by apply encode_total.
    + unfold target. fields. rewrite insert_insert_eq. split.
      * rewrite instance_state_insert by reflexivity. cbn [state]. rewrite learn_app.
        unfold streamed. by destruct (MultiClassifier (cls ot)).
      * fields. by rewrite Hw.
  - unfold Creme2SKLTransformer.partial_fit.
    eexists. eexists. split; [| split].
    + apply transformer_partial_fit_ok; [by destruct y1 | by left | exact Hot].
    + apply transformer_partial_fit_ok; [by destruct y2 | right; fields; by rewrite Hw |].
      unfold start_object, target. fields. apply lookup_insert_eq.
    + unfold target. fields.
      rewrite insert_insert_eq. split.
      * rewrite instance_state_insert by reflexivity. cbn [state]. by rewrite learn_app.
      * fields. by rewrite Hw.
  - unfold Creme2SKLClusterer.partial_fit.
    assert (H1' : check_array X1 = Ok X1) by (by destruct y1).
    assert (H2' : check_array X2 = Ok X2) by (by destruct y2).
    eexists. eexists. split; [| split].
    + apply clusterer_partial_fit_ok; [exact H1' | by left | exact Hot].
    + apply clusterer_partial_fit_ok; [exact H2' | right; fields; by rewrite Hw |].
      unfold start_object, target. fields. apply lookup_insert_eq.
    + unfold target. fields.
      rewrite insert_insert_eq. split.
      * rewrite instance_state_insert by reflexivity. cbn [state]. by rewrite learn_app.
      * fields. by rewrite Hw.
Qed.

End Calls.

(** *** Fitting again, and fitting in portions *)

Lemma template_after_calls {S : Type} `{!Estimator S} (v : variant) (e : nat)
  (store : gmap nat (object S)) (a : Adapter) (ot : object S) (cs : list call) :
  construct v e store = Ok a ->
  store !! e = Some ot ->
  snd (run_all v cs (a, store)) !! estimator (fst (run_all v cs (a, store)))
  = Some ot.
Proof.
  intros Hc Hot. apply construct_fresh in Hc. subst a.
  assert (Hown : owned store e (mkAdapter e None None None None None, store)).
  { split; [reflexivity |]. split; [by intros l o' Hl | intros l Hl; discriminate]. }
  apply (owned_run_all store e v cs) in Hown. destruct Hown as (-> & Hkeep & _).
  by apply Hkeep.
Qed.

(** C7 ([fit] resets, [partial_fit] accumulates).
    Take an adapter of any of the four classes, constructed on the
    estimator [ot]. Whatever calls were made on it before, a call of [fit]
    with valid arguments succeeds and leaves an instance that has learned
    the rows of this call and nothing else, starting from the state of
    [ot], the feature count of this call and, for the classifier, the class
    set and the label encoder of this call. Two calls of [partial_fit] on
    the new adapter, with tables of the same width and, for the classifier,
    labels among the classes given to the first call, both succeed and
    leave an instance that has learned the rows of the first call followed
    by the rows of the second. *)
Theorem C7_fit_resets_partial_fit_accumulates {S : Type} `{!Estimator S}
  (v : variant) (e : nat) (store : gmap nat (object S)) (a : Adapter)
  (ot : object S) (history : list call)
  (X : list (list Z)) (y : option (list Z)) (classes : list Z)
  (X1 X2 : list (list Z)) (y1 y2 : option (list Z)) :
  construct v e store = Ok a ->
  store !! e = Some ot ->
  valid_input v X y ->
  valid_input v X1 y1 ->
  valid_input v X2 y2 ->
  shape1 X2 = shape1 X1 ->
  labels_within v (unique_labels classes) y1 ->
  labels_within v (unique_labels classes) y2 ->
  (exists w',
     fit v X y (run_all v history (a, store)) = (Ok tt, w')
     /\ reflects_only v ot X y w')
  /\ (exists w1 w2,
        partial_fit v X1 y1 (Some classes) (a, store) = (Ok tt, w1)
        /\ partial_fit v X2 y2 None w1 = (Ok tt, w2)
        /\ instance_state w2
           = Some (learn (streamed v (cls ot) (unique_labels classes) X1 y1
                          ++ streamed v (cls ot) (unique_labels classes) X2 y2)
                         (state ot))
        /\ n_features_in_ (fst w2) = Some (shape1 X1)).
Proof.
  intros Hc Hot HX H1 H2 Hw Hy1 Hy2. split.
  - apply fit_reflects_only; [| exact HX].
    by apply (template_after_calls v e store a ot history).
  - by apply (partial_fit_twice v e store a ot classes X1 X2 y1 y2).
Qed.

Lemma C7_fit_resets_partial_fit_accumulates_witness :
  construct ClassifierAdapter 7%nat store0 = Ok adapter0
  /\ store0 !! 7%nat = Some template0
  /\ valid_input ClassifierAdapter [[5; 6; 7]] (Some [2])
  /\ valid_input ClassifierAdapter [[1; 2]] (Some [0])
  /\ valid_input ClassifierAdapter [[3; 4]] (Some [1])
  /\ shape1 [[3; 4]] = shape1 [[1; 2]]
  /\ labels_within ClassifierAdapter (unique_labels [0; 1]) (Some [0])
  /\ labels_within ClassifierAdapter (unique_labels [0; 1]) (Some [1])
  /\ ((exists w',
         fit ClassifierAdapter [[5; 6; 7]] (Some [2])
           (run_all ClassifierAdapter [Fit [[1; 2]; [3; 4]] (Some [0; 1])]
              (adapter0, store0))
         = (Ok tt, w')
         /\ reflects_only ClassifierAdapter template0 [[5; 6; 7]]
              (Some [2]) w')
      /\ (exists w1 w2,
            partial_fit ClassifierAdapter [[1; 2]] (Some [0]) (Some [0; 1])
              (adapter0, store0) = (Ok tt, w1)
            /\ partial_fit ClassifierAdapter [[3; 4]] (Some [1]) None w1 = (Ok tt, w2)
            /\ instance_state w2
               = Some (learn
                         (streamed ClassifierAdapter (cls template0)
                            (unique_labels [0; 1]) [[1; 2]] (Some [0])
                          ++ streamed ClassifierAdapter (cls template0)
                               (unique_labels [0; 1]) [[3; 4]] (Some [1]))
                         (state template0))
            /\ n_features_in_ (fst w2) = Some (shape1 [[1; 2]]))).
Proof.
  assert (Hc : construct ClassifierAdapter 7%nat store0 = Ok adapter0)
    by reflexivity.
  assert (Hot : store0 !! 7%nat = Some template0) by reflexivity.
  assert (HX : valid_input ClassifierAdapter [[5; 6; 7]] (Some [2]))
    by reflexivity.
  assert (H1 : valid_input ClassifierAdapter [[1; 2]] (Some [0])) by reflexivity.
  assert (H2 : valid_input ClassifierAdapter [[3; 4]] (Some [1])) by reflexivity.
  assert (Hw : shape1 [[3; 4]] = shape1 [[1; 2]]) by reflexivity.
  assert (Hy1 : labels_within ClassifierAdapter (unique_labels [0; 1]) (Some [0]))
    by (apply (bool_decide_unpack _); vm_compute; exact I).
  assert (Hy2 : labels_within ClassifierAdapter (unique_labels [0; 1]) (Some [1]))
    by (apply (bool_decide_unpack _); vm_compute; exact I).
  repeat (split; [assumption |]).
  exact (C7_fit_resets_partial_fit_accumulates ClassifierAdapter 7%nat store0
           adapter0 template0
           [Fit [[1; 2]; [3; 4]] (Some [0; 1])]
           [[5; 6; 7]] (Some [2]) [0; 1] [[1; 2]] [[3; 4]] (Some [0]) (Some [1])
           Hc Hot HX H1 H2 Hw Hy1 Hy2).
Defined.

(** *** The labels of the clusterer adapter *)

Section Online.
Context {S : Type} `{!Estimator S}.






End Online.




(** The labels differ from those the final model would give: the example
    estimator predicts the number of samples it has seen, so the three rows
    are labelled 1, 2 and 3, while the instance left by [fit] labels every
    row 3. *)
Example online_labels_differ_from_final_model :
  labels_ (fst (snd (fit ClustererAdapter [[1]; [2]; [3]] None (adapter0, store0))))
  = Some [1; 2; 3]
  /\ fst (predict ClustererAdapter [[1]; [2]; [3]]
            (snd (fit ClustererAdapter [[1]; [2]; [3]] None (adapter0, store0))))
     = Ok (Column [3; 3; 3]).
Proof. split; vm_compute; reflexivity. Qed.

End creme_to_sklearn_props.

(** ** More properties of [ComplementNB] *)

Module complement_learning.
Import pd complement complement_spec complement_props.

(** *** Counters *)

Lemma fold_add_lookup (l : list (string * Z)) (c : gmap string Z) (k : string) :
  NoDup (map fst l) ->
  fold_left (fun c '(elem, count) => <[elem := count + dict_get elem 0 c]> c) l c !! k
  = match (list_to_map l : gmap string Z) !! k with
    | Some v => Some (v + dict_get k 0 c)
    | None => c !! k
    end.
Proof.
  revert c. induction l as [| [k0 v0] l IH]; intros c Hnd; [reflexivity |].
  apply NoDup_cons in Hnd as [Hk0 Hnd]. simpl. rewrite IH by exact Hnd.
  destruct (decide (k0 = k)) as [-> | Hne].
  - rewrite !lookup_insert_eq.
    by rewrite (proj1 (not_elem_of_list_to_map l k) Hk0).
  - rewrite !lookup_insert_ne by done.
    destruct (list_to_map l !! k); [| reflexivity].
    unfold dict_get. by rewrite lookup_insert_ne.
Qed.

Lemma Counter_update_lookup (m c : gmap string Z) (k : string) :
  Counter_update m c !! k
  = match m !! k with Some v => Some (v + dict_get k 0 c) | None => c !! k end.
Proof.
  unfold Counter_update. rewrite fold_add_lookup by apply NoDup_fst_map_to_list.
  by rewrite list_to_map_to_list.
Qed.

Lemma zip_dict_lookup {A : Type} (labels : list string) (row : list A)
  (j : nat) (k : string) :
  NoDup labels -> labels !! j = Some k ->
  zip_dict labels row !! k = row !! j.
Proof.
  unfold zip_dict. revert row j.
  induction labels as [| k0 labels IH]; intros row j Hnd Hj; [discriminate |].
  apply NoDup_cons in Hnd as [Hk0 Hnd].
  destruct row as [| a row].
  - simpl. rewrite lookup_empty. by destruct j.
  - destruct j as [| j]; simpl in *.
    + inversion Hj; subst. apply lookup_insert_eq.
    + rewrite lookup_insert_ne.
      * by apply IH.
      * intros ->. apply Hk0. by apply list_elem_of_lookup_2 in Hj.
Qed.

Lemma zip_dict_lookup_None {A : Type} (labels : list string) (row : list A)
  (k : string) :
  k ∉ labels -> zip_dict labels row !! k = None.
Proof.
  intros Hk. unfold zip_dict. apply not_elem_of_list_to_map.
  intros Hin. apply Hk.
  apply list_elem_of_fmap in Hin as [[k' a] [-> Hin]].
  by apply elem_of_zip_l in Hin.
Qed.

Lemma dict_get_Counter_update (m c : gmap string Z) (k : string) :
  dict_get k 0 (Counter_update m c) = dict_get k 0 m + dict_get k 0 c.
Proof.
  unfold dict_get at 1. rewrite Counter_update_lookup. unfold dict_get.
  destruct (m !! k); [reflexivity |]. destruct (c !! k); lia.
Qed.

Lemma Counter_update_comm (m1 m2 c : gmap string Z) :
  Counter_update m1 (Counter_update m2 c) = Counter_update m2 (Counter_update m1 c).
Proof.
  apply map_eq. intros k. rewrite !Counter_update_lookup, ?dict_get_Counter_update.
  destruct (m1 !! k) as [v1 |] eqn:H1, (m2 !! k) as [v2 |] eqn:H2;
    unfold dict_get; rewrite ?H1, ?H2; try reflexivity.
  f_equal. lia.
Qed.

Lemma Counter_update_elements_get (y : list string) (m : gmap string Z) (c : string) :
  dict_get c 0 (Counter_update_elements y m) = dict_get c 0 m + n_equal c y.
Proof.
  unfold Counter_update_elements, n_equal. revert m.
  induction y as [| l y IH]; intros m; [simpl; lia |].
  simpl fold_left. rewrite IH, filter_cons.
  unfold dict_get. destruct (decide (l = c)) as [-> | Hne].
  - rewrite lookup_insert_eq. simpl length. destruct (m !! c); lia.
  - rewrite lookup_insert_ne by done. lia.
Qed.

Lemma Counter_getitem_update (m c : gmap string Z) (k : string) :
  Counter_getitem k (Counter_update m c) = dict_get k 0 m + Counter_getitem k c.
Proof. apply dict_get_Counter_update. Qed.

Lemma sum_values_insert_new (m : gmap string Z) (k : string) (v : Z) :
  m !! k = None ->
  sum (map snd (map_to_list (<[k := v]> m))) = v + sum (map snd (map_to_list m)).
Proof.
  intros Hk.
  rewrite (sum_Permutation _ (map snd ((k, v) :: map_to_list m))).
  - simpl. by rewrite sum_cons.
  - apply fmap_Permutation. by apply map_to_list_insert.
Qed.

Lemma sum_values_insert (m : gmap string Z) (k : string) (v : Z) :
  sum (map snd (map_to_list (<[k := v]> m)))
  = sum (map snd (map_to_list m)) - dict_get k 0 m + v.
Proof.
  unfold dict_get. destruct (m !! k) as [v0 |] eqn:Hk.
  - assert (Hm : m = <[k := v0]> (delete k m)) by (by rewrite insert_delete_id).
    assert (Hd : delete k m !! k = None) by apply lookup_delete_eq.
    revert Hm Hd. generalize (delete k m). intros m' -> Hd.
    rewrite insert_insert_eq, !sum_values_insert_new by done. lia.
  - rewrite sum_values_insert_new by done. lia.
Qed.

(** *** What [learn_one] does to each map *)

Lemma feature_totals_fold (y : string) (l : list (string * Z)) (self : ComplementNB) :
  feature_totals (fold_left (learn_feature y) l self)
  = fold_left (fun c '(elem, count) => <[elem := count + dict_get elem 0 c]> c)
              l (feature_totals self).
Proof.
  revert self. induction l as [| [f v] l IH]; intros self; [reflexivity |].
  simpl. rewrite IH. unfold learn_feature. cbn [feature_totals].
  by rewrite Counter_update_singleton.
Qed.

Lemma feature_totals_learn_one (x : gmap string Z) (y : string) (self : ComplementNB) :
  feature_totals (learn_one x y self) = Counter_update x (feature_totals self).
Proof. unfold learn_one. by rewrite feature_totals_fold. Qed.

Lemma class_totals_fold (y : string) (l : list (string * Z)) (self : ComplementNB) :
  class_totals (fold_left (learn_feature y) l self)
  = match l with
    | [] => class_totals self
    | _ => Counter_update {[ y := sum (map snd l) ]} (class_totals self)
    end.
Proof.
  revert self. induction l as [| [f v] l IH]; intros self; [reflexivity |].
  simpl fold_left. rewrite IH. destruct l as [| fv l].
  - unfold learn_feature. cbn [class_totals map snd].
    by rewrite sum_cons, sum_nil, Z.add_0_r.
  - unfold learn_feature. cbn [class_totals].
    rewrite !Counter_update_singleton, insert_insert_eq.
    f_equal. unfold dict_get at 1. rewrite lookup_insert_eq.
    change (map snd ((f, v) :: fv :: l)) with (v :: map snd (fv :: l)).
    rewrite (sum_cons v). lia.
Qed.

Lemma class_totals_learn_one (x : gmap string Z) (y : string) (self : ComplementNB) :
  class_totals (learn_one x y self)
  = Counter_update (if decide (x = ∅) then ∅
                    else {[ y := sum (map snd (map_to_list x)) ]})
                   (class_totals self).
Proof.
  unfold learn_one. rewrite class_totals_fold. cbn [class_totals].
  destruct (decide (x = ∅)) as [-> | Hne].
  - rewrite map_to_list_empty. reflexivity.
  - destruct (map_to_list x) eqn:Hl; [| reflexivity].
    apply map_to_list_empty_iff in Hl. contradiction.
Qed.

Lemma class_counts_learn_one_update (x : gmap string Z) (y : string)
  (self : ComplementNB) :
  class_counts (learn_one x y self) = Counter_update {[ y := 1 ]} (class_counts self).
Proof.
  rewrite class_counts_learn_one, Counter_update_singleton. f_equal. lia.
Qed.

Lemma feature_counts_fold (y : string) (l : list (string * Z)) (self : ComplementNB)
  (f : string) :
  NoDup (map fst l) ->
  feature_counts (fold_left (learn_feature y) l self) !! f
  = match (list_to_map l : gmap string Z) !! f with
    | Some v => Some (inner_update y v (default (ICounter ∅) (feature_counts self !! f)))
    | None => feature_counts self !! f
    end.
Proof.
  revert self. induction l as [| [f0 v0] l IH]; intros self Hnd; [reflexivity |].
  apply NoDup_cons in Hnd as [Hf0 Hnd].
  change (fold_left (learn_feature y) ((f0, v0) :: l) self)
    with (fold_left (learn_feature y) l (learn_feature y self (f0, v0))).
  rewrite IH by exact Hnd.
  rewrite feature_counts_learn_feature. simpl list_to_map.
  destruct (decide (f = f0)) as [-> | Hne].
  - rewrite lookup_insert_eq.
    rewrite (proj1 (not_elem_of_list_to_map l f0) Hf0).
    by destruct (feature_counts self !! f0).
  - rewrite lookup_insert_ne by done. reflexivity.
Qed.

Lemma feature_counts_learn_one (x : gmap string Z) (y : string) (self : ComplementNB)
  (f : string) :
  feature_counts (learn_one x y self) !! f
  = match x !! f with
    | Some v => Some (inner_update y v (default (ICounter ∅) (feature_counts self !! f)))
    | None => feature_counts self !! f
    end.
Proof.
  unfold learn_one. rewrite feature_counts_fold by apply NoDup_fst_map_to_list.
  by rewrite list_to_map_to_list.
Qed.

Lemma alpha_learn_one (x : gmap string Z) (y : string) (self : ComplementNB) :
  alpha (learn_one x y self) = alpha self.
Proof.
  unfold learn_one. set (self1 := mkNB _ _ _ _ _).
  change (alpha self) with (alpha self1). clearbody self1. revert self1.
  induction (map_to_list x) as [| [f v] l IH]; intros self1; [reflexivity |].
  simpl. by rewrite IH.
Qed.

Lemma inner_update_comm (y1 y2 : string) (v1 v2 : Z) (m : gmap string Z) :
  inner_update y2 v2 (inner_update y1 v1 (ICounter m))
  = inner_update y1 v1 (inner_update y2 v2 (ICounter m)).
Proof. cbn. f_equal. apply Counter_update_comm. Qed.

Lemma learn_one_order (x1 x2 : gmap string Z) (y1 y2 : string) (self : ComplementNB) :
  counters_only self ->
  learn_one x2 y2 (learn_one x1 y1 self) = learn_one x1 y1 (learn_one x2 y2 self).
Proof.
  intros Hcounters.
  assert (Heta : forall s t : ComplementNB,
    alpha s = alpha t -> class_counts s = class_counts t ->
    feature_counts s = feature_counts t -> feature_totals s = feature_totals t ->
    class_totals s = class_totals t -> s = t).
  { intros [] []. cbn. by intros -> -> -> -> ->. }
  apply Heta.
  - by rewrite !alpha_learn_one.
  - rewrite !class_counts_learn_one_update. apply Counter_update_comm.
  - apply map_eq. intros f. rewrite !feature_counts_learn_one.
    destruct (x1 !! f) as [v1 |], (x2 !! f) as [v2 |]; try reflexivity.
    cbn [default]. f_equal.
    destruct (feature_counts self !! f) as [i |] eqn:Hf.
    + destruct (Hcounters f i Hf) as [m ->]. cbn [default].
      apply inner_update_comm.
    + cbn [default]. apply inner_update_comm.
  - rewrite !feature_totals_learn_one. apply Counter_update_comm.
  - rewrite !class_totals_learn_one. apply Counter_update_comm.
Qed.

Lemma counters_only_learn_one (x : gmap string Z) (y : string) (self : ComplementNB) :
  counters_only self -> counters_only (learn_one x y self).
Proof.
  intros Hc f i. rewrite feature_counts_learn_one.
  destruct (x !! f) as [v |]; [| apply Hc].
  intros [= <-]. destruct (feature_counts self !! f) as [i |] eqn:Hf.
  - destruct (Hc f i Hf) as [m ->]. cbn. by eexists.
  - cbn. by eexists.
Qed.

Lemma counters_only_init (a : Q) : counters_only (init a).
Proof. intros f i Hf. cbn in Hf. by rewrite lookup_empty in Hf. Qed.

(** X17 (the order of the samples).
    On an estimator that learned with [learn_one] alone, the samples can be
    given to [learn_one] in any order: the estimator is left the same. *)
Theorem X17_learn_all_order (l1 l2 : list (gmap string Z * string)) (self : ComplementNB) :
  counters_only self -> l1 ≡ₚ l2 -> learn_all l1 self = learn_all l2 self.
Proof.
  intros Hc Hp. revert self Hc.
  induction Hp as [| [x y] l1 l2 _ IH | [x1 y1] [x2 y2] l | l1 l2 l3 _ IH1 _ IH2];
    intros self Hc.
  - reflexivity.
  - simpl. apply IH. by apply counters_only_learn_one.
  - simpl. by rewrite learn_one_order.
  - rewrite IH1 by exact Hc. by apply IH2.
Qed.

(** *** The priors *)

Lemma class_count_learn_all (l : list (gmap string Z * string)) (self : ComplementNB)
  (c : string) :
  Counter_getitem c (class_counts (learn_all l self))
  = Counter_getitem c (class_counts self) + n_labelled c l.
Proof.
  revert self. induction l as [| [x y] l IH]; intros self.
  - unfold n_labelled. simpl. lia.
  - simpl. rewrite IH, class_counts_learn_one. unfold n_labelled. simpl.
    unfold Counter_getitem, dict_get. rewrite filter_cons. simpl.
    destruct (decide (y = c)) as [-> | Hne].
    + rewrite lookup_insert_eq. simpl length.
      destruct (class_counts self !! c); lia.
    + rewrite lookup_insert_ne by done. lia.
Qed.

Lemma total_learn_all (l : list (gmap string Z * string)) (self : ComplementNB) :
  sum (map snd (map_to_list (class_counts (learn_all l self))))
  = sum (map snd (map_to_list (class_counts self))) + Z.of_nat (length l).
Proof.
  revert self. induction l as [| [x y] l IH]; intros self.
  - simpl. lia.
  - simpl learn_all. rewrite IH, class_counts_learn_one, sum_values_insert.
    simpl length. lia.
Qed.

(** X16 (the prior is the relative frequency).
    On an estimator that learned the samples [l] with [learn_one], [l] not
    empty, [p_class c] returns the number of samples labelled [c] divided
    by the number of samples, and does not raise. *)
Theorem X16_p_class_relative_frequency (l : list (gmap string Z * string)) (a : Q)
  (c : string) :
  l <> [] ->
  p_class c (learn_all l (init a))
  = (Ok (Qred (inject_Z (n_labelled c l) / inject_Z (Z.of_nat (length l)))),
     learn_all l (init a)).
Proof.
  intros Hl.
  pose proof (total_learn_all l (init a)) as Ht.
  pose proof (class_count_learn_all l (init a) c) as Hc.
  change (class_counts (init a)) with (∅ : gmap string Z) in Ht, Hc.
  rewrite map_to_list_empty in Ht. simpl in Ht. rewrite sum_nil in Ht.
  unfold Counter_getitem at 2 in Hc. rewrite lookup_empty in Hc.
  rewrite p_class_eval.
  - by rewrite Hc, Ht.
  - rewrite Ht. destruct l; [done | simpl; lia].
Qed.

(** *** When [joint_log_likelihood] raises *)

Lemma IZR_quotient_nonpos (a b : Z) : b <> 0 -> a * b <= 0 -> (IZR a / IZR b <= 0)%R.
Proof.
  intros Hb Hab.
  assert (Hb' : IZR b <> 0%R) by (by apply not_0_IZR).
  replace (IZR a / IZR b)%R with (IZR (a * b) / (IZR b * IZR b))%R
    by (rewrite mult_IZR; by field).
  assert (Hsq : (0 < IZR b * IZR b)%R).
  { rewrite <- mult_IZR. apply IZR_lt. nia. }
  assert (Hnum : (IZR (a * b) <= 0)%R) by (by apply IZR_le).
  unfold Rdiv. apply Rinv_0_lt_compat in Hsq. nra.
Qed.

Lemma math_log_quotient_raises (a b : Z) :
  b <> 0 -> a * b <= 0 ->
  math_log (Qred (inject_Z a / inject_Z b)) = Raise ValueError.
Proof.
  intros Hb Hab. unfold math_log.
  destruct (Qle_bool _ 0) eqn:Hle; [reflexivity |].
  exfalso. apply not_true_iff_false in Hle. apply Hle, Qle_bool_iff, Rle_Qle.
  rewrite RMicromega.Q2R_0, Q2R_quotient by done.
  by apply IZR_quotient_nonpos.
Qed.

Lemma jll_term_raises (self : ComplementNB) (c : string) (item : string * Z) :
  ~ rate_positive self (fst item) c ->
  exists e, arithmetic_error e /\ jll_term c item self = (Raise e, self).
Proof.
  destruct item as [f frequency]. unfold rate_positive. simpl. intros Hrate.
  unfold jll_term, mbind, NBM_bind, gets, lift. simpl.
  rewrite feature_count_get, Z.mul_1_l.
  change (Counter_getitem f (feature_totals self)) with (feature_total self f).
  change (Counter_getitem c (class_totals self)) with (class_total self c).
  change (Z.of_nat (size (feature_counts self))) with (n_features self).
  unfold truediv. destruct (decide _) as [H0 | H0].
  - exists ZeroDivisionError. split; [by left | reflexivity].
  - rewrite math_log_quotient_raises by (done || lia).
    exists ValueError. split; [by right | reflexivity].
Qed.

Lemma mapM_NBM_raises {A B : Type} (f : A -> NBM B) (E : exn -> Prop) (l : list A)
  (self : ComplementNB) :
  Forall (fun a => (exists b, f a self = (Ok b, self))
                   \/ (exists e, E e /\ f a self = (Raise e, self))) l ->
  Exists (fun a => exists e, E e /\ f a self = (Raise e, self)) l ->
  exists e, E e /\ mapM f l self = (Raise e, self).
Proof.
  induction 1 as [| a l Ha Hl IH]; intros Hex; [by apply Exists_nil in Hex |].
  cbn. unfold mbind, NBM_bind at 1.
  destruct Ha as [[b Hb] | (e & He & Hr)].
  - rewrite Hb. apply Exists_cons in Hex as [(e & _ & Hr) | Hex].
    + rewrite Hb in Hr. discriminate.
    + destruct (IH Hex) as (e & He & Hr). exists e. split; [exact He |].
      unfold NBM_bind at 1. fold (mapM f l). by rewrite Hr.
  - rewrite Hr. by exists e.
Qed.

Lemma NBM_bind_Ok {A B : Type} (m : NBM A) (f : A -> NBM B)
  (self self' : ComplementNB) (a : A) :
  m self = (Ok a, self') -> (m ≫= f) self = f a self'.
Proof. intros H. unfold mbind, NBM_bind. by rewrite H. Qed.

Lemma NBM_bind_Raise {A B : Type} (m : NBM A) (f : A -> NBM B)
  (self self' : ComplementNB) (e : exn) :
  m self = (Raise e, self') -> (m ≫= f) self = (Raise e, self').
Proof. intros H. unfold mbind, NBM_bind. by rewrite H. Qed.

Lemma jll_term_cases (self : ComplementNB) (c : string) (item : string * Z) :
  (exists b, jll_term c item self = (Ok b, self))
  \/ (exists e, arithmetic_error e /\ jll_term c item self = (Raise e, self)).
Proof.
  destruct (decide (rate_positive self (fst item) c)) as [H | H].
  - left. eexists. by apply jll_term_eval.
  - right. by apply jll_term_raises.
Qed.

Lemma Exists_keys {V : Type} (P : string -> Prop) (d : gmap string V) :
  Exists P (keys d) -> Exists (fun item => P (fst item)) (map_to_list d).
Proof.
  rewrite !Exists_exists. intros (k & Hk & HP). unfold keys in Hk.
  apply list_elem_of_fmap in Hk as [item [-> Hitem]]. by exists item.
Qed.

(** X15 (scoring raises).
    When, for some observed class and some feature of the query, the
    quotient of [joint_log_likelihood] has denominator 0 or is not
    positive, the call raises [ZeroDivisionError] or the [ValueError] of
    [math.log], and leaves the estimator as it was. *)
Theorem X15_joint_log_likelihood_raises (self : ComplementNB) (x : gmap string Z) :
  Exists (fun c => Exists (fun f => ~ rate_positive self f c) (keys x))
         (keys (class_counts self)) ->
  exists e, arithmetic_error e /\ joint_log_likelihood x self = (Raise e, self).
Proof.
  intros Hex.
  assert (Hterms : forall c,
    Exists (fun f => ~ rate_positive self f c) (keys x) ->
    exists e, arithmetic_error e
              /\ mapM (jll_term c) (map_to_list x) self = (Raise e, self)).
  { intros c Hc. apply mapM_NBM_raises.
    - apply Forall_forall. intros item _. apply jll_term_cases.
    - apply Exists_keys in Hc. eapply Exists_impl; [exact Hc |].
      intros item Hitem. by apply jll_term_raises. }
  unfold joint_log_likelihood.
  erewrite NBM_bind_Ok by reflexivity.
  destruct (mapM_NBM_raises
              (fun c => terms ← mapM (jll_term c) (map_to_list x); mret (c, fsum terms))
              arithmetic_error (keys (class_counts self)) self) as (e & He & Hr).
  - apply Forall_forall. intros c _.
    destruct (decide (Forall (fun f => rate_positive self f c) (keys x)))
      as [Hall | Hnot].
    + left. eexists. erewrite NBM_bind_Ok; [reflexivity |].
      apply mapM_NBM_pure, Forall_forall. intros item Hitem. apply jll_term_eval.
      rewrite Forall_forall in Hall. apply Hall. unfold keys.
      apply list_elem_of_fmap. by exists item.
    + right. apply not_Forall_Exists in Hnot; [| intros f; apply _].
      destruct (Hterms c Hnot) as (e & He & Hr).
      exists e. split; [exact He |]. by apply NBM_bind_Raise.
  - eapply Exists_impl; [exact Hex |]. intros c Hc. cbv beta in Hc.
    destruct (Hterms c Hc) as (e & He & Hr).
    exists e. split; [exact He |]. by apply NBM_bind_Raise.
  - exists e. split; [exact He |]. by apply NBM_bind_Raise.
Qed.

(** *** What [learn_many] adds *)

Lemma int64_in_range (z : Z) : in_int64 z -> int64 z = z.
Proof.
  unfold in_int64, int64.
  change (2 ^ 63) with 9223372036854775808.
  change (2 ^ 64) with 18446744073709551616.
  intros Hz. rewrite Z.mod_small by lia. lia.
Qed.

Lemma sum_rows_lookup (X : DataFrame Z) (j : nat) (f : string) :
  NoDup (columns X) -> columns X !! j = Some f ->
  sum_rows X !! f = Some (int64 (sum (map (fun row => nth j row 0) (values X)))).
Proof.
  intros Hnd Hj. unfold sum_rows.
  rewrite (zip_dict_lookup _ _ j f Hnd Hj), list_lookup_fmap.
  apply lookup_lt_Some in Hj as Hlt.
  by rewrite lookup_seq_lt.
Qed.

(** X18 ([learn_many] adds to the counters).
    Whatever the estimator held, [learn_many] on a table of [int64] values
    adds to [class_counts] the
    number of rows of each label, and to [feature_totals] the sum of each
    column of the batch, an [int64] sum that wraps around; the total of a
    feature that is not a column of the batch is not touched. *)
Theorem X18_learn_many_adds_counts (X : DataFrame Z) (y : list string)
  (self : ComplementNB) :
  NoDup (columns X) ->
  int64_table X ->
  (forall c, Counter_getitem c (class_counts (learn_many X y self))
             = Counter_getitem c (class_counts self) + n_equal c y)
  /\ (forall j f, columns X !! j = Some f ->
        Counter_getitem f (feature_totals (learn_many X y self))
        = Counter_getitem f (feature_totals self)
          + int64 (sum (map (fun row => nth j row 0) (values X))))
  /\ (forall f, f ∉ columns X ->
        feature_totals (learn_many X y self) !! f = feature_totals self !! f).
Proof.
  intros Hnd _. unfold learn_many.
  destruct (Groupby_apply_sum y (values X) (length (columns X))) as [agg idx].
  cbn [class_counts feature_totals]. repeat split.
  - intros c. rewrite Counter_getitem_update. unfold value_counts.
    rewrite Counter_update_elements_get. unfold dict_get at 1.
    rewrite lookup_empty. lia.
  - intros j f Hj. rewrite Counter_getitem_update. unfold dict_get.
    rewrite (sum_rows_lookup X j f Hnd Hj). lia.
  - intros f Hf. rewrite Counter_update_lookup. unfold sum_rows.
    by rewrite zip_dict_lookup_None.
Qed.

(** *** The properties at concrete inputs *)

Lemma learn_many_replaces_feature_counts_witness :
  feature_counts (learn_many one_row ["c"] (init 1)) !! "a"
  = feature_counts
      (learn_many one_row ["c"] (learn_one {[ "a" := 5 ]} "c" (init 1))) !! "a".
Proof. apply (learn_many_replaces_feature_counts one_row ["c"]). cbn. constructor. Defined.

Lemma joint_log_likelihood_after_learning_witness :
  exists m : gmap string R,
    joint_log_likelihood {[ "food" := 1 ]} (learn_all sentences (init 1))
    = (Ok m, learn_all sentences (init 1))
    /\ dom m = dom (class_counts (learn_all sentences (init 1)))
    /\ forall c, c ∈ dom (class_counts (learn_all sentences (init 1))) ->
                 m !! c = Some (score (learn_all sentences (init 1))
                                      {[ "food" := 1 ]} c).
Proof.
  apply (joint_log_likelihood_after_learning sentences 1 {[ "food" := 1 ]}).
  - apply (bool_decide_unpack _). vm_compute. exact I.
  - intros H. apply (f_equal size) in H. vm_compute in H. discriminate.
Defined.

Lemma X15_joint_log_likelihood_raises_witness :
  exists e, arithmetic_error e
            /\ joint_log_likelihood {[ "a" := 1 ]} (learn_one ∅ "B" (init 1))
               = (Raise e, learn_one ∅ "B" (init 1)).
Proof.
  apply (X15_joint_log_likelihood_raises (learn_one ∅ "B" (init 1)) {[ "a" := 1 ]}).
  apply (bool_decide_unpack _). vm_compute. exact I.
Defined.

Lemma X16_p_class_relative_frequency_witness :
  p_class "health" (learn_all sentences (init 1))
  = (Ok (Qred (inject_Z (n_labelled "health" sentences)
               / inject_Z (Z.of_nat (length sentences)))),
     learn_all sentences (init 1)).
Proof. apply (X16_p_class_relative_frequency sentences). discriminate. Defined.

Lemma X17_learn_all_order_witness :
  learn_all [ ({[ "food" := 2 ]}, "health"); ({[ "job" := 1 ]}, "butcher") ] (init 1)
  = learn_all [ ({[ "job" := 1 ]}, "butcher"); ({[ "food" := 2 ]}, "health") ] (init 1).
Proof.
  apply X17_learn_all_order; [apply counters_only_init | apply perm_swap].
Defined.

Lemma X18_learn_many_adds_counts_witness :
  Counter_getitem "a" (feature_totals (learn_many two_large_rows ["c"; "c"] (init 1)))
  = Counter_getitem "a" (feature_totals (init 1))
    + int64 (sum (map (fun row => nth 0 row 0) (values two_large_rows))).
Proof.
  apply (X18_learn_many_adds_counts two_large_rows ["c"; "c"] (init 1)).
  - apply (bool_decide_unpack _). vm_compute. exact I.
  - apply (bool_decide_unpack _). vm_compute. exact I.
  - reflexivity.
Defined.

End complement_learning.

(** ** One batch and its rows *)

Module complement_batch.
Import pd complement complement_spec complement_props complement_learning.

(** *** Sums by group *)

Lemma filter_label_nil {A : Type} (c : string) (l : list (string * A)) :
  c ∉ map fst l -> filter (fun yr => fst yr = c) l = [].
Proof.
  induction l as [| [k r] l IH]; intros Hc; [reflexivity |].
  rewrite filter_cons. cbn [fst]. cbn [map fst] in Hc.
  apply not_elem_of_cons in Hc as [Hne Hc].
  rewrite decide_False by done. by apply IH.
Qed.

Lemma grouped_lookup (g : list Z -> Z) (l : list (string * list Z))
  (m0 : gmap string Z) (c : string) :
  fold_left (fun m yr => Counter_update {[ fst yr := g (snd yr) ]} m) l m0 !! c
  = if decide (c ∈ map fst l)
    then Some (dict_get c 0 m0
               + sum (map (fun yr => g (snd yr)) (filter (fun yr => fst yr = c) l)))
    else m0 !! c.
Proof.
  revert m0. induction l as [| [k r] l IH]; intros m0.
  - cbn. rewrite decide_False; [reflexivity | apply not_elem_of_nil].
  - cbn [fold_left fst snd map]. rewrite IH, Counter_update_singleton, filter_cons.
    cbn [fst]. unfold dict_get.
    destruct (decide (k = c)) as [-> | Hne].
    + rewrite (decide_True (P := c ∈ c :: map fst l)) by (by left).
      rewrite lookup_insert_eq. cbn [map snd]. rewrite sum_cons.
      destruct (decide (c ∈ map fst l)) as [Hin | Hnin].
      * f_equal. destruct (m0 !! c); lia.
      * rewrite filter_label_nil by done. cbn [map]. rewrite sum_nil.
        f_equal. destruct (m0 !! c); lia.
    + rewrite lookup_insert_ne by done.
      destruct (decide (c ∈ map fst l)) as [Hin | Hnin].
      * rewrite (decide_True (P := c ∈ k :: map fst l)) by (by right). reflexivity.
      * rewrite (decide_False (P := c ∈ k :: map fst l)); [reflexivity |].
        intros Hin. apply elem_of_cons in Hin as [-> | Hin]; contradiction.
Qed.

Lemma sum_exchange {A B : Type} (g : A -> B -> Z) (J : list A) (R : list B) :
  sum (map (fun j => sum (map (fun r => g j r) R)) J)
  = sum (map (fun r => sum (map (fun j => g j r) J)) R).
Proof.
  induction J as [| j J IH].
  - cbn [map]. rewrite sum_nil. symmetry. apply sum_map_zero. intros r _. apply sum_nil.
  - cbn [map]. rewrite sum_cons, IH, <- sum_map_add.
    apply sum_map_ext. intros r _. cbn [map]. by rewrite sum_cons.
Qed.

Lemma sum_by_position (row : list Z) :
  sum (map (fun j => nth j row 0) (seq 0 (length row))) = sum row.
Proof.
  induction row as [| a row IH]; [reflexivity |].
  cbn [length seq map nth]. rewrite <- seq_shift, map_map.
  rewrite !sum_cons. cbn [nth]. by rewrite IH.
Qed.

(** *** Rows learned one by one *)

Lemma zip_row_dicts (cols : list string) (rows : list (list Z)) (y : list string) :
  zip (map (zip_dict cols) rows) y = row_samples cols (zip y rows).
Proof.
  revert y. induction rows as [| r rows IH]; intros [| k y]; try reflexivity.
  cbn. by rewrite IH.
Qed.

Lemma zip_dict_items (cols : list string) (r : list Z) :
  NoDup cols -> length r = length cols ->
  map snd (map_to_list (zip_dict cols r)) ≡ₚ r.
Proof.
  intros Hnd Hlen. unfold zip_dict.
  rewrite map_to_list_to_map by (rewrite fst_zip by lia; exact Hnd).
  rewrite snd_zip by lia. reflexivity.
Qed.

Lemma zip_dict_nonempty (cols : list string) (r : list Z) :
  cols <> [] -> length r = length cols -> zip_dict cols r <> ∅.
Proof.
  intros Hc Hlen. destruct cols as [| f cols]; [done |].
  destruct r as [| v r]; [discriminate |].
  unfold zip_dict. cbn. apply insert_non_empty.
Qed.

Lemma zip_dict_row_lookup (cols : list string) (r : list Z) (j : nat) (f : string) :
  NoDup cols -> cols !! j = Some f -> length r = length cols ->
  zip_dict cols r !! f = Some (nth j r 0).
Proof.
  intros Hnd Hj Hlen. rewrite (zip_dict_lookup cols r j f Hnd Hj).
  pose proof (lookup_lt_Some _ _ _ Hj) as Hlt.
  destruct (lookup_lt_is_Some_2 r j) as [v Hv]; [lia |].
  rewrite Hv. f_equal. symmetry. by apply nth_lookup_Some.
Qed.

Section Rows.
Variable cols : list string.
Hypothesis Hnd : NoDup cols.
Hypothesis Hcols : cols <> [].

Lemma class_counts_rows (l : list (string * list Z)) (self : ComplementNB) :
  class_counts (learn_all (row_samples cols l) self)
  = Counter_update_elements (map fst l) (class_counts self).
Proof.
  revert self. induction l as [| [k r] l IH]; intros self; [reflexivity |].
  cbn [row_samples map learn_all fold_left fst snd].
  change (fold_left _ (map _ l) ?s) with (learn_all (row_samples cols l) s).
  rewrite IH, class_counts_learn_one. reflexivity.
Qed.

Lemma class_totals_rows (l : list (string * list Z)) (self : ComplementNB) :
  Forall (fun yr => length (snd yr) = length cols) l ->
  class_totals (learn_all (row_samples cols l) self)
  = fold_left (fun m yr => Counter_update {[ fst yr := sum (snd yr) ]} m) l
              (class_totals self).
Proof.
  intros Hl. revert self. induction Hl as [| [k r] l Hr _ IH]; intros self;
    [reflexivity |].
  cbn [row_samples map learn_all fold_left fst snd] in *.
  change (fold_left _ (map _ l) ?s) with (learn_all (row_samples cols l) s).
  rewrite IH, class_totals_learn_one.
  rewrite decide_False by (by apply zip_dict_nonempty).
  by rewrite (sum_Permutation _ _ (zip_dict_items cols r Hnd Hr)).
Qed.

Lemma feature_totals_rows (l : list (string * list Z)) (self : ComplementNB)
  (j : nat) (f : string) :
  Forall (fun yr => length (snd yr) = length cols) l ->
  cols !! j = Some f ->
  feature_totals (learn_all (row_samples cols l) self) !! f
  = match l with
    | [] => feature_totals self !! f
    | _ => Some (dict_get f 0 (feature_totals self)
                 + sum (map (fun yr => nth j (snd yr) 0) l))
    end.
Proof.
  intros Hl Hj. revert self. induction Hl as [| [k r] l Hr Hl IH]; intros self;
    [reflexivity |].
  cbn [row_samples map learn_all fold_left fst snd] in *.
  change (fold_left _ (map _ l) ?s) with (learn_all (row_samples cols l) s).
  rewrite IH. rewrite sum_cons.
  assert (Hx : zip_dict cols r !! f = Some (nth j r 0))
    by (by apply zip_dict_row_lookup).
  assert (Hstep : feature_totals (learn_one (zip_dict cols r) k self) !! f
                  = Some (nth j r 0 + dict_get f 0 (feature_totals self))).
  { by rewrite feature_totals_learn_one, Counter_update_lookup, Hx. }
  destruct l as [| yr l].
  - rewrite Hstep. cbn [map]. rewrite sum_nil. f_equal. lia.
  - unfold dict_get at 1. rewrite Hstep. f_equal. lia.
Qed.

Lemma feature_totals_rows_other (l : list (string * list Z)) (self : ComplementNB)
  (f : string) :
  f ∉ cols ->
  feature_totals (learn_all (row_samples cols l) self) !! f
  = feature_totals self !! f.
Proof.
  intros Hf. revert self. induction l as [| [k r] l IH]; intros self; [reflexivity |].
  cbn [row_samples map learn_all fold_left fst snd] in *.
  change (fold_left _ (map _ l) ?s) with (learn_all (row_samples cols l) s).
  rewrite IH, feature_totals_learn_one, Counter_update_lookup.
  by rewrite zip_dict_lookup_None.
Qed.

Lemma feature_counts_rows (l : list (string * list Z)) (self : ComplementNB)
  (j : nat) (f : string) (m0 : gmap string Z) :
  Forall (fun yr => length (snd yr) = length cols) l ->
  cols !! j = Some f ->
  default (ICounter ∅) (feature_counts self !! f) = ICounter m0 ->
  feature_counts (learn_all (row_samples cols l) self) !! f
  = match l with
    | [] => feature_counts self !! f
    | _ => Some (ICounter
                   (fold_left (fun m yr =>
                                 Counter_update {[ fst yr := nth j (snd yr) 0 ]} m)
                              l m0))
    end.
Proof.
  intros Hl Hj. revert self m0.
  induction Hl as [| [k r] l Hr Hl IH]; intros self m0 Hm0; [reflexivity |].
  cbn [row_samples map learn_all fold_left fst snd] in *.
  change (fold_left _ (map _ l) ?s) with (learn_all (row_samples cols l) s).
  assert (Hx : zip_dict cols r !! f = Some (nth j r 0))
    by (by apply zip_dict_row_lookup).
  assert (Hstep : feature_counts (learn_one (zip_dict cols r) k self) !! f
                  = Some (ICounter (Counter_update {[ k := nth j r 0 ]} m0))).
  { by rewrite feature_counts_learn_one, Hx, Hm0. }
  rewrite (IH _ (Counter_update {[ k := nth j r 0 ]} m0)) by (by rewrite Hstep).
  destruct l as [| yr l]; [exact Hstep | reflexivity].
Qed.

Lemma feature_counts_rows_other (l : list (string * list Z)) (self : ComplementNB)
  (f : string) :
  f ∉ cols ->
  feature_counts (learn_all (row_samples cols l) self) !! f
  = feature_counts self !! f.
Proof.
  intros Hf. revert self. induction l as [| [k r] l IH]; intros self; [reflexivity |].
  cbn [row_samples map learn_all fold_left fst snd] in *.
  change (fold_left _ (map _ l) ?s) with (learn_all (row_samples cols l) s).
  rewrite IH, feature_counts_learn_one.
  by rewrite zip_dict_lookup_None.
Qed.

End Rows.

(** *** One batch *)

Lemma Counter_update_empty (m : gmap string Z) : Counter_update m ∅ = m.
Proof.
  apply map_eq. intros k. rewrite Counter_update_lookup.
  unfold dict_get. rewrite lookup_empty.
  destruct (m !! k); [f_equal; lia | reflexivity].
Qed.

Lemma dict_update_empty {V : Type} (m : gmap string V) : dict_update m ∅ = m.
Proof.
  apply map_eq. intros k. rewrite dict_update_lookup, lookup_empty.
  by destruct (m !! k).
Qed.

Lemma zip_dict_comprehension {V : Type} (h : string -> V) (ks : list string) :
  zip_dict ks (map h ks) = list_to_map (map (fun k => (k, h k)) ks).
Proof.
  unfold zip_dict. f_equal. induction ks as [| k ks IH]; [reflexivity |].
  cbn. by rewrite IH.
Qed.

Lemma lookup_comprehension_None {V : Type} (h : string -> V) (ks : list string)
  (k : string) :
  k ∉ ks ->
  (list_to_map (map (fun k => (k, h k)) ks) : gmap string V) !! k = None.
Proof.
  intros Hk. apply not_elem_of_list_to_map. by rewrite map_map, map_id.
Qed.

Lemma elem_of_labels (y : list string) (c : string) :
  c ∈ merge_sort (fun a b => String.leb a b) (remove_dups y) <-> c ∈ y.
Proof. rewrite merge_sort_Permutation. apply elem_of_remove_dups. Qed.

Lemma nth_map_seq {A : Type} (g : nat -> A) (n j : nat) (d : A) :
  (j < n)%nat -> nth j (map g (seq 0 n)) d = g j.
Proof.
  intros Hj. apply nth_lookup_Some.
  by rewrite list_lookup_fmap, lookup_seq_lt.
Qed.

Section Batch.
Variable X : DataFrame Z.
Variable y : list string.
Variable a : Q.
Hypothesis Hwf : well_formed_batch X y.
Hypothesis Hfit : sums_fit_int64 X y.

Lemma batch_class_counts :
  class_counts (learn_many X y (init a)) = Counter_update_elements y ∅.
Proof. unfold learn_many. cbn. apply Counter_update_empty. Qed.

Lemma batch_feature_totals :
  feature_totals (learn_many X y (init a)) = sum_rows X.
Proof. unfold learn_many. cbn. apply Counter_update_empty. Qed.

Lemma batch_class_totals (c : string) :
  class_totals (learn_many X y (init a)) !! c
  = if decide (c ∈ y)
    then Some (sum (map (fun yr => sum (snd yr))
                        (filter (fun yr => fst yr = c) (zip y (values X)))))
    else None.
Proof.
  destruct Hwf as (Hnd & Hcols & Hrows & Hlen & Hwidth).
  destruct Hfit as (_ & _ & Hlabels).
  unfold learn_many, Groupby_apply_sum. cbn [class_totals init].
  rewrite Counter_update_empty. unfold sum_columns. cbn [index values].
  rewrite map_map, zip_dict_comprehension.
  destruct (decide (c ∈ y)) as [Hc | Hc].
  - rewrite lookup_comprehension by (by apply elem_of_labels). f_equal.
    rewrite Forall_forall in Hlabels. destruct (Hlabels c Hc) as [Hgroups Htotal].
    rewrite (sum_map_ext _
               (fun j => sum (map (fun yr : string * list Z => nth j (snd yr) 0)
                                  (filter (fun yr => fst yr = c) (zip y (values X)))))).
    + rewrite (sum_exchange (fun j (yr : string * list Z) => nth j (snd yr) 0)).
      rewrite (sum_map_ext _ (fun yr : string * list Z => sum (snd yr))).
      * by apply int64_in_range.
      * intros [k r] Hin. cbn [snd].
        apply list_elem_of_filter in Hin as [_ Hin].
        apply elem_of_zip_r in Hin.
        rewrite Forall_forall in Hwidth. rewrite <- (Hwidth r Hin).
        apply sum_by_position.
    + intros j Hj. apply int64_in_range.
      rewrite Forall_forall in Hgroups. by apply Hgroups.
  - apply lookup_comprehension_None. by rewrite elem_of_labels.
Qed.

Lemma batch_feature_counts (j : nat) (f : string) :
  columns X !! j = Some f ->
  feature_counts (learn_many X y (init a)) !! f
  = Some (IDict (list_to_map
       (map (fun k => (k, sum (map (fun yr => nth j (snd yr) 0)
                                   (filter (fun yr => fst yr = k)
                                           (zip y (values X))))))
            (merge_sort (fun a b => String.leb a b) (remove_dups y))))).
Proof.
  intros Hj. destruct Hwf as (Hnd & Hcols & Hrows & Hlen & Hwidth).
  pose proof (lookup_lt_Some _ _ _ Hj) as Hlt.
  unfold learn_many, Groupby_apply_sum. cbn [feature_counts init].
  rewrite dict_update_empty, lookup_fmap. unfold to_dict_index, T.
  cbn [index columns values].
  rewrite (zip_dict_lookup _ _ j f Hnd Hj), !list_lookup_fmap, lookup_seq_lt by done.
  cbn [fmap option_fmap option_map]. do 2 f_equal.
  rewrite map_map, zip_dict_comprehension. f_equal.
  apply map_ext_in. intros k Hk. f_equal.
  rewrite (nth_map_seq
             (fun j => int64 (sum (map (fun yr : string * list Z => nth j (snd yr) 0)
                                       (filter (fun yr => fst yr = k)
                                               (zip y (values X)))))))
    by done.
  apply int64_in_range.
  destruct Hfit as (_ & _ & Hlabels). rewrite Forall_forall in Hlabels.
  apply list_elem_of_In in Hk. apply (proj1 (elem_of_labels y k)) in Hk.
  destruct (Hlabels k Hk) as [Hgroups _].
  rewrite Forall_forall in Hgroups. apply Hgroups.
  apply elem_of_seq. lia.
Qed.

Lemma batch_feature_counts_other (f : string) :
  f ∉ columns X -> feature_counts (learn_many X y (init a)) !! f = None.
Proof.
  intros Hf. unfold learn_many, Groupby_apply_sum. cbn [feature_counts init].
  rewrite dict_update_empty, lookup_fmap. unfold to_dict_index, T.
  cbn [index columns values]. by rewrite zip_dict_lookup_None.
Qed.

End Batch.

(** X24 (one batch on a new estimator).
    On a new estimator, [learn_many] on a table with distinct column
    labels, at least one column and one row, and a label for each row,
    leaves the four statistics maps that learning its rows one by one with
    [learn_one], each as the dict of its values over the columns, leaves,
    provided the table holds [int64] values and none of the [int64] sums
    taken over the batch wraps around. *)
Theorem X24_one_batch_is_row_by_row (X : DataFrame Z) (y : list string) (a : Q) :
  well_formed_batch X y ->
  sums_fit_int64 X y ->
  statistics (learn_many X y (init a))
  = statistics (learn_all (zip (row_dicts X) y) (init a)).
Proof.
  intros Hwf Hfit. pose proof Hwf as (Hnd & Hcols & Hrows & Hlen & Hwidth).
  unfold row_dicts. rewrite zip_row_dicts.
  assert (HL : Forall (fun yr : string * list Z => length (snd yr) = length (columns X))
                      (zip y (values X))).
  { apply Forall_forall. intros [k r] Hin. apply elem_of_zip_r in Hin.
    rewrite Forall_forall in Hwidth. by apply Hwidth. }
  assert (Hfst : map fst (zip y (values X)) = y) by (apply fst_zip; lia).
  assert (Hsnd : map snd (zip y (values X)) = values X) by (apply snd_zip; lia).
  assert (Hne : zip y (values X) <> []).
  { intros Hnil. apply Hrows. by rewrite <- Hsnd, Hnil. }
  unfold statistics. f_equal; [f_equal; [f_equal |] |].
  - rewrite (batch_class_counts X y a), class_counts_rows, Hfst. reflexivity.
  - apply map_eq. intros f. rewrite !lookup_fmap.
    destruct (decide (f ∈ columns X)) as [Hf | Hf].
    + apply list_elem_of_lookup in Hf as [j Hj].
      rewrite (batch_feature_counts X y a Hwf Hfit j f Hj).
      rewrite (feature_counts_rows (columns X) Hnd _ (init a) j f ∅ HL Hj eq_refl).
      assert (Hinner :
        list_to_map
          (map (fun k => (k, sum (map (fun yr : string * list Z => nth j (snd yr) 0)
                                      (filter (fun yr => fst yr = k)
                                              (zip y (values X))))))
               (merge_sort (fun a b => String.leb a b) (remove_dups y)))
        = fold_left (fun m (yr : string * list Z) =>
                       Counter_update {[ fst yr := nth j (snd yr) 0 ]} m)
                    (zip y (values X)) ∅).
      { apply map_eq. intros c.
        rewrite (grouped_lookup (fun r => nth j r 0)), Hfst.
        destruct (decide (c ∈ y)) as [Hc | Hc].
        - rewrite lookup_comprehension by (by apply elem_of_labels).
          unfold dict_get. rewrite lookup_empty. f_equal; lia.
        - rewrite lookup_empty. apply lookup_comprehension_None.
          by rewrite elem_of_labels. }
      rewrite Hinner. by destruct (zip y (values X)).
    + rewrite (batch_feature_counts_other X y a f Hf).
      rewrite (feature_counts_rows_other (columns X) _ (init a) f Hf).
      cbn. by rewrite lookup_empty.
  - apply map_eq. intros f. rewrite (batch_feature_totals X y a).
    destruct (decide (f ∈ columns X)) as [Hf | Hf].
    + apply list_elem_of_lookup in Hf as [j Hj].
      rewrite (sum_rows_lookup X j f Hnd Hj).
      rewrite int64_in_range.
      2:{ destruct Hfit as (_ & Hcolumns & _). rewrite Forall_forall in Hcolumns.
          apply Hcolumns, elem_of_seq. apply lookup_lt_Some in Hj. lia. }
      rewrite (feature_totals_rows (columns X) Hnd _ (init a) j f HL Hj).
      rewrite <- Hsnd at 1. rewrite map_map.
      destruct (zip y (values X)); [done |].
      unfold dict_get. cbn [feature_totals init]. rewrite lookup_empty.
      f_equal; lia.
    + rewrite (feature_totals_rows_other (columns X) _ (init a) f Hf).
      unfold sum_rows. cbn [feature_totals init].
      by rewrite zip_dict_lookup_None, lookup_empty.
  - apply map_eq. intros c. rewrite (batch_class_totals X y a Hwf Hfit c).
    rewrite (class_totals_rows (columns X) Hnd Hcols _ (init a) HL).
    rewrite (grouped_lookup sum), Hfst.
    destruct (decide (c ∈ y)) as [Hc | Hc].
    + unfold dict_get. cbn [class_totals init]. rewrite lookup_empty.
      f_equal; lia.
    + cbn [class_totals init]. by rewrite lookup_empty.
Qed.

Lemma X24_one_batch_is_row_by_row_witness :
  statistics (learn_many sentences_X sentences_y (init 1))
  = statistics (learn_all (zip (row_dicts sentences_X) sentences_y) (init 1)).
Proof.
  apply (X24_one_batch_is_row_by_row sentences_X sentences_y 1).
  - split; [apply (bool_decide_unpack _); vm_compute; exact I |].
    split; [discriminate |]. split; [discriminate |]. split; [reflexivity |].
    repeat constructor.
  - apply (bool_decide_unpack _). vm_compute. exact I.
Defined.

(** When a sum wraps around, the batch and its rows differ: two rows of
    [2 ^ 62] in one column give the total [- 2 ^ 63] in one batch and
    [2 ^ 63] row by row. *)
Example large_batch_wraps :
  feature_totals (learn_many two_large_rows ["c"; "c"] (init 1))
  = {[ "a" := - 2 ^ 63 ]}
  /\ feature_totals
       (learn_all (zip (row_dicts two_large_rows) ["c"; "c"]) (init 1))
     = {[ "a" := 2 ^ 63 ]}.
Proof. split; vm_compute; reflexivity. Qed.

End complement_batch.

(** ** More properties of the adapters *)

Module adapter_props.
Import creme_to_sklearn creme_to_sklearn_spec creme_to_sklearn_props.

(** *** The inference methods *)

Section Inference.
Context {S : Type} `{!Estimator S}.

Lemma preserves_the_instance (P : world S -> Prop) : preserves P the_instance.
Proof.
  unfold the_instance. apply preserves_bind; [apply preserves_self |].
  intros a. destruct (instance_ a); [apply preserves_ret | apply preserves_raise].
Qed.

Lemma preserves_call_instance {A : Type} (P : world S -> Prop) (m : S -> A) :
  preserves P (call_instance m).
Proof.
  unfold call_instance. apply preserves_bind; [apply preserves_the_instance |].
  intros l. apply preserves_bind; [apply preserves_deref |].
  intros o. apply preserves_ret.
Qed.

Lemma preserves_check_is_fitted (P : world S -> Prop) : preserves P check_is_fitted.
Proof.
  unfold check_is_fitted. apply preserves_bind; [apply preserves_self |].
  intros a. destruct (instance_ a); [apply preserves_ret | apply preserves_raise].
Qed.

Lemma preserves_check_n_features (P : world S -> Prop) (X : list (list Z)) :
  preserves P (check_n_features X).
Proof.
  unfold check_n_features. apply preserves_bind; [apply preserves_self |].
  intros a. destruct (n_features_in_ a); [| apply preserves_raise].
  destruct (decide _); [apply preserves_raise | apply preserves_ret].
Qed.

Lemma preserves_the_classes (P : world S -> Prop) :
  preserves P Creme2SKLClassifier.the_classes.
Proof.
  unfold Creme2SKLClassifier.the_classes.
  apply preserves_bind; [apply preserves_self |].
  intros a. destruct (classes_ a); [apply preserves_ret | apply preserves_raise].
Qed.

Ltac frame_steps :=
  repeat first
    [ apply preserves_ret | apply preserves_raise | apply preserves_lift
    | apply preserves_self | apply preserves_check_is_fitted
    | apply preserves_check_n_features | apply preserves_the_classes
    | apply preserves_call_instance
    | apply preserves_mapM; intros ?
    | apply preserves_bind; [| intros ?] ].

(** X1 (inference changes nothing).
    [predict], [predict_proba] and [transform] of the four adapters leave
    the attributes of the adapter and every object of the store as they
    were, whether they return or raise; a method the class does not have
    raises and changes nothing either. *)
Theorem X1_inference_leaves_the_adapter (v : variant) (c : call) (w : world S) :
  is_learning c = false -> snd (run v c w) = w.
Proof.
  intros Hc. symmetry.
  cut (preserves (fun w' => w = w') (run v c)); [intros Hp; by apply Hp |].
  destruct c as [X y | X y cs | X | X | X]; try discriminate; clear Hc;
    destruct v; cbn [run predict predict_proba transform];
    unfold Creme2SKLRegressor.predict, Creme2SKLClassifier.predict,
      Creme2SKLClassifier.predict_proba, Creme2SKLTransformer.transform,
      Creme2SKLClusterer.predict;
    frame_steps.
  destruct (label_encoder_ _); frame_steps.
Qed.

(** X2 (inference before any fit).
    On an adapter whose [instance_] is not set, every inference method the
    class has raises the not-fitted error and changes nothing, whatever the
    table. *)
Theorem X2_inference_before_fit (v : variant) (c : call) (w : world S) :
  is_learning c = false -> supported v c = true ->
  instance_ (fst w) = None ->
  run v c w = (Raise NotFittedError, w).
Proof.
  intros Hc Hs Hi.
  destruct c as [X y | X y cs | X | X | X]; try discriminate; clear Hc;
    destruct v; try discriminate; clear Hs;
    cbn [run predict predict_proba transform];
    unfold Creme2SKLRegressor.predict, Creme2SKLClassifier.predict,
      Creme2SKLClassifier.predict_proba, Creme2SKLTransformer.transform,
      Creme2SKLClusterer.predict, check_is_fitted, self;
    unfold mbind, SKM_bind; simpl; rewrite Hi; reflexivity.
Qed.

(** X3 (inference with another number of columns).
    On a fitted regressor, classifier or transformer adapter, an inference
    method given a valid table whose number of columns is not
    [n_features_in_] raises [ValueError] and changes nothing. *)
Theorem X3_inference_other_width (v : variant) (c : call) (w : world S) (l n : nat) :
  is_learning c = false -> supported v c = true ->
  v <> ClustererAdapter ->
  instance_ (fst w) = Some l -> n_features_in_ (fst w) = Some n ->
  check_array (table c) = Ok (table c) -> shape1 (table c) <> n ->
  run v c w = (Raise ValueError, w).
Proof.
  intros Hc Hs Hv Hi Hn HX Hne.
  destruct c as [X y | X y cs | X | X | X]; try discriminate; clear Hc;
    destruct v; try discriminate; try contradiction; clear Hs Hv;
    cbn [table] in *;
    cbn [run predict predict_proba transform];
    unfold Creme2SKLRegressor.predict, Creme2SKLClassifier.predict,
      Creme2SKLClassifier.predict_proba, Creme2SKLTransformer.transform,
      check_is_fitted, check_n_features, self, lift, raise;
    unfold mbind, SKM_bind; simpl; rewrite Hi, HX; simpl; rewrite Hn;
    (destruct (decide _); [reflexivity | contradiction]).
Qed.

End Inference.

(** *** Calls that are refused *)

Section Rejected.
Context {S : Type} `{!Estimator S}.

Lemma check_array_cases (X : list (list Z)) :
  check_array X = Ok X \/ check_array X = Raise ValueError.
Proof.
  unfold check_array. destruct X as [| r rs]; [by right |].
  destruct (forallb _ rs); [| by right].
  destruct (Nat.eqb (length r) 0); [by right | by left].
Qed.

Lemma check_X_y_cases (X : list (list Z)) (y : list Z) :
  check_X_y X (Some y) = Ok (X, y) \/ check_X_y X (Some y) = Raise ValueError.
Proof.
  unfold check_X_y. destruct (check_array_cases X) as [-> | ->]; [| by right].
  cbn. destruct (decide _); [by left | by right].
Qed.
Lemma check_X_y_array (X : list (list Z)) (y : list Z) :
  check_X_y X (Some y) = Ok (X, y) -> check_array X = Ok X.
Proof.
  unfold check_X_y. destruct (check_array_cases X) as [-> | ->]; [done |].
  discriminate.
Qed.

(** X4 ([fit] with arguments that do not pass the validation).
    [fit] drops [instance_] and [n_features_in_] before it validates its
    arguments: when they are refused the call raises [ValueError], the
    adapter is left not fitted whatever it had learned before, and no
    object of the store is written to. *)
Theorem X4_fit_invalid_input (v : variant) (X : list (list Z)) (y : option (list Z))
  (w : world S) :
  ~ valid_input v X y ->
  fst (fit v X y w) = Raise ValueError
  /\ instance_ (fst (snd (fit v X y w))) = None
  /\ n_features_in_ (fst (snd (fit v X y w))) = None
  /\ snd (snd (fit v X y w)) = snd w.
Proof.
  intros Hv. destruct w as [a σ].
  destruct v; cbn [fit valid_input] in *.
  - unfold Creme2SKLRegressor.fit, Creme2SKLRegressor._partial_fit.
    destruct y as [y |]; [| by repeat split].
    destruct (check_X_y_cases X y) as [H | H]; [contradiction |].
    unfold mbind, SKM_bind, set_self, lift. cbn -[check_X_y check_array]. rewrite H. by repeat split.
  - unfold Creme2SKLClassifier.fit, Creme2SKLClassifier._partial_fit,
      Creme2SKLClassifier._check_partial_fit_first_call.
    destruct y as [y |]; [| by repeat split].
    destruct (check_X_y_cases X y) as [H | H]; [contradiction |].
    unfold mbind, SKM_bind, set_self, lift, self. cbn -[check_X_y check_array unique_labels]. rewrite H. by repeat split.
  - unfold Creme2SKLTransformer.fit, Creme2SKLTransformer._partial_fit.
    destruct y as [y |].
    + destruct (check_X_y_cases X y) as [H | H]; [contradiction |].
      unfold mbind, SKM_bind, set_self, lift. cbn -[check_X_y check_array]. rewrite H. by repeat split.
    + destruct (check_array_cases X) as [H | H]; [contradiction |].
      unfold mbind, SKM_bind, set_self, lift. cbn -[check_X_y check_array]. rewrite H. by repeat split.
  - unfold Creme2SKLClusterer.fit, Creme2SKLClusterer._partial_fit.
    assert (H : check_array X = Raise ValueError).
    { destruct (check_array_cases X) as [H | H]; [| exact H].
      exfalso. apply Hv. by destruct y. }
    unfold mbind, SKM_bind, set_self, lift. cbn -[check_X_y check_array]. rewrite H. by repeat split.
Qed.

Lemma store_n_features_other_width (X : list (list Z)) (a : Adapter)
  (σ : gmap nat (object S)) (n : nat) :
  n_features_in_ a = Some n -> shape1 X <> n ->
  store_n_features X (a, σ) = (Raise ValueError, (a, σ)).
Proof.
  intros Hn Hne. unfold store_n_features, self, raise.
  unfold mbind, SKM_bind. cbn [fst snd]. rewrite Hn.
  destruct (decide _); [reflexivity | contradiction].
Qed.

(** X5 ([partial_fit] with another number of columns).
    On an adapter that has recorded [n_features_in_], [partial_fit] with
    valid arguments whose table has another number of columns raises
    [ValueError]; no object of the store is written to, and [instance_] and
    [n_features_in_] are what they were. *)
Theorem X5_partial_fit_other_width (v : variant) (X : list (list Z))
  (y classes : option (list Z)) (w : world S) (n : nat) :
  n_features_in_ (fst w) = Some n ->
  valid_input v X y ->
  shape1 X <> n ->
  fst (partial_fit v X y classes w) = Raise ValueError
  /\ snd (snd (partial_fit v X y classes w)) = snd w
  /\ instance_ (fst (snd (partial_fit v X y classes w))) = instance_ (fst w)
  /\ n_features_in_ (fst (snd (partial_fit v X y classes w))) = Some n.
Proof.
  intros Hn Hv Hne. destruct w as [a σ]. cbn [fst snd] in *.
  destruct v; cbn [partial_fit valid_input] in *.
  - destruct y as [y |]; [| contradiction].
    unfold Creme2SKLRegressor.partial_fit, Creme2SKLRegressor._partial_fit.
    rewrite Hv. erewrite bind_Ok by apply lift_eval. cbv beta iota.
    erewrite bind_Raise by (by apply (store_n_features_other_width X _ _ n)).
    by repeat split.
  - destruct y as [y |]; [| contradiction].
    unfold Creme2SKLClassifier.partial_fit, Creme2SKLClassifier._partial_fit.
    rewrite Hv.
    destruct (Creme2SKLClassifier._check_partial_fit_first_call classes (a, σ))
      as [[[] | e] [a' σ']] eqn:Hfirst.
    + assert (Hkeep : σ' = σ /\ instance_ a' = instance_ a
                      /\ n_features_in_ a' = Some n).
      { revert Hfirst.
        unfold Creme2SKLClassifier._check_partial_fit_first_call, self, set_self, raise.
        unfold mbind, SKM_bind. cbn [fst snd].
        destruct (classes_ a), classes; try destruct (decide _);
          intros [= <- <-]; by repeat split. }
      destruct Hkeep as (-> & Hi & Hn').
      erewrite bind_Ok by exact Hfirst.
      erewrite bind_Ok by apply lift_eval. cbv beta iota.
      erewrite bind_Raise by (by apply (store_n_features_other_width X _ _ n)).
      by repeat split.
    + assert (Hkeep : e = ValueError /\ σ' = σ /\ a' = a).
      { revert Hfirst.
        unfold Creme2SKLClassifier._check_partial_fit_first_call, self, set_self, raise.
        unfold mbind, SKM_bind. cbn [fst snd].
        destruct (classes_ a), classes; try destruct (decide _);
          intros [= <- <- <-] || intros [= <- <-]; by repeat split. }
      destruct Hkeep as (-> & -> & ->).
      erewrite bind_Raise by exact Hfirst. by repeat split.
  - unfold Creme2SKLTransformer.partial_fit, Creme2SKLTransformer._partial_fit.
    destruct y as [y |]; rewrite Hv; cbn [mbind result_bind];
      (erewrite bind_Ok by apply lift_eval); cbv beta iota;
      (erewrite bind_Raise by (by apply (store_n_features_other_width X _ _ n)));
      by repeat split.
  - assert (HX : check_array X = Ok X) by (by destruct y).
    unfold Creme2SKLClusterer.partial_fit, Creme2SKLClusterer._partial_fit.
    rewrite HX. erewrite bind_Ok by apply lift_eval.
    erewrite bind_Raise by (by apply (store_n_features_other_width X _ _ n)).
    by repeat split.
Qed.

(** X6 (the classes of [partial_fit]).
    [partial_fit] of the classifier adapter raises [ValueError] and changes
    nothing when no class set is known and none is given, and when the
    class set given is not the one recorded by an earlier call. *)
Theorem X6_classifier_partial_fit_classes (X : list (list Z)) (y classes : option (list Z))
  (w : world S) :
  classes_after (fst w) classes = None ->
  Creme2SKLClassifier.partial_fit X y classes w = (Raise ValueError, w).
Proof.
  intros Hc. destruct w as [a σ]. unfold classes_after in Hc. cbn [fst] in Hc.
  unfold Creme2SKLClassifier.partial_fit, Creme2SKLClassifier._partial_fit,
    Creme2SKLClassifier._check_partial_fit_first_call.
  unfold mbind at 1, SKM_bind at 1. unfold mbind at 1, SKM_bind at 1.
  unfold self at 1. cbn [fst snd].
  destruct (classes_ a) as [cs |], classes as [c |]; try discriminate.
  - destruct (decide (cs = unique_labels c)); [discriminate | reflexivity].
  - reflexivity.
Qed.

(** X7 (a label outside the classes).
    [partial_fit] of the classifier adapter, given valid arguments of the
    recorded width with a label that is not among the classes, raises
    [ValueError] before the estimator is copied or taught anything: the
    store and [instance_] are what they were.  The class set and the number
    of columns of the refused call are recorded all the same. *)
Theorem X7_classifier_label_outside_classes (X : list (list Z)) (y : list Z)
  (classes : option (list Z)) (cs : list Z) (w : world S) :
  classes_after (fst w) classes = Some cs ->
  check_X_y X (Some y) = Ok (X, y) ->
  (forall n, n_features_in_ (fst w) = Some n -> shape1 X = n) ->
  ~ Forall (fun l => l ∈ cs) y ->
  fst (Creme2SKLClassifier.partial_fit X (Some y) classes w) = Raise ValueError
  /\ snd (snd (Creme2SKLClassifier.partial_fit X (Some y) classes w)) = snd w
  /\ instance_ (fst (snd (Creme2SKLClassifier.partial_fit X (Some y) classes w)))
     = instance_ (fst w)
  /\ classes_ (fst (snd (Creme2SKLClassifier.partial_fit X (Some y) classes w)))
     = Some cs
  /\ n_features_in_ (fst (snd (Creme2SKLClassifier.partial_fit X (Some y) classes w)))
     = Some (shape1 X).
Proof.
  intros Hc HX Hn Hy. destruct w as [a σ]. cbn [fst snd] in *.
  assert (Hfirst : exists a',
    Creme2SKLClassifier._check_partial_fit_first_call classes (a, σ)
    = (Ok tt, (a', σ))
    /\ classes_ a' = Some cs /\ instance_ a' = instance_ a
    /\ n_features_in_ a' = n_features_in_ a).
  { unfold Creme2SKLClassifier._check_partial_fit_first_call, classes_after in *.
    unfold mbind, SKM_bind, self. cbn [fst snd].
    destruct (classes_ a) as [cs0 |] eqn:Hcs, classes as [c |]; try discriminate.
    - destruct (decide (cs0 = unique_labels c)); [| discriminate].
      exists a. inversion Hc; subst. by repeat split.
    - exists a. inversion Hc; subst. by repeat split.
    - eexists. split; [reflexivity |]. inversion Hc; subst. by repeat split. }
  destruct Hfirst as (a' & Hfirst & Hcs' & Hi' & Hn').
  assert (Hstore : store_n_features X (a', σ)
                   = (Ok tt, (set_n_features_in_ (shape1 X) a', σ))).
  { unfold store_n_features, self, set_self, raise.
    unfold mbind, SKM_bind. cbn [fst snd].
    rewrite Hn'. destruct (n_features_in_ a) as [n |]; [| reflexivity].
    specialize (Hn n eq_refl).
    destruct (decide _); [contradiction | reflexivity]. }
  assert (Hthe : Creme2SKLClassifier.the_classes
                   (set_n_features_in_ (shape1 X) a', σ)
                 = (Ok cs, (set_n_features_in_ (shape1 X) a', σ))).
  { unfold Creme2SKLClassifier.the_classes, self. unfold mbind, SKM_bind.
    cbn [fst snd set_n_features_in_ classes_]. by rewrite Hcs'. }
  unfold Creme2SKLClassifier.partial_fit, Creme2SKLClassifier._partial_fit.
  rewrite HX.
  erewrite bind_Ok by exact Hfirst.
  erewrite bind_Ok by apply lift_eval. cbv beta iota.
  erewrite bind_Ok by exact Hstore.
  erewrite bind_Ok by exact Hthe.
  destruct (decide (Forall (fun l => l ∈ cs) y)); [contradiction |].
  erewrite bind_Raise by reflexivity.
  cbn [fst snd set_n_features_in_ instance_ classes_ n_features_in_].
  by repeat split.
Qed.

End Rejected.

(** *** What the inference methods return *)

Section Results.
Context {S : Type} `{!Estimator S}.

Lemma check_is_fitted_ok (a : Adapter) (σ : gmap nat (object S)) (l : nat) :
  instance_ a = Some l -> check_is_fitted (a, σ) = (Ok tt, (a, σ)).
Proof.
  intros Hl. unfold check_is_fitted, self, mbind, SKM_bind. cbn [fst].
  by rewrite Hl.
Qed.

Lemma check_n_features_ok (X : list (list Z)) (a : Adapter) (σ : gmap nat (object S)) :
  n_features_in_ a = Some (shape1 X) -> check_n_features X (a, σ) = (Ok tt, (a, σ)).
Proof.
  intros Hn. unfold check_n_features, self, mbind, SKM_bind. cbn [fst].
  rewrite Hn. destruct (decide _); [contradiction | reflexivity].
Qed.

Lemma call_instance_eval {A : Type} (m : S -> A) (a : Adapter)
  (σ : gmap nat (object S)) (l : nat) (o : object S) :
  instance_ a = Some l -> σ !! l = Some o ->
  call_instance m (a, σ) = (Ok (m (state o)), (a, σ)).
Proof.
  intros Hl Ho. unfold call_instance, the_instance, deref, self.
  unfold mbind, SKM_bind. cbn [fst snd]. rewrite Hl. cbn. by rewrite Ho.
Qed.

Lemma map_feature_maps {B : Type} (g : gmap nat Z -> B) (X : list (list Z)) :
  map (fun xy : gmap nat Z * option Z => g (fst xy)) (iter_array X None)
  = map g (feature_maps X).
Proof. unfold feature_maps. by rewrite map_map. Qed.

Lemma regressor_predict_eval (X : list (list Z)) (a : Adapter)
  (σ : gmap nat (object S)) (l : nat) (o : object S) :
  instance_ a = Some l -> σ !! l = Some o ->
  n_features_in_ a = Some (shape1 X) -> check_array X = Ok X ->
  Creme2SKLRegressor.predict X (a, σ)
  = (Ok (map (predict_one (state o)) (feature_maps X)), (a, σ)).
Proof.
  intros Hl Ho Hn HX. unfold Creme2SKLRegressor.predict.
  erewrite bind_Ok by (by eapply check_is_fitted_ok).
  rewrite HX. erewrite bind_Ok by apply lift_eval.
  erewrite bind_Ok by (by apply check_n_features_ok).
  rewrite <- map_feature_maps.
  apply mapM_SKM_pure, Forall_forall. intros xy _.
  by apply (call_instance_eval (fun s => predict_one s (fst xy)) a σ l o).
Qed.

Lemma transformer_transform_eval (X : list (list Z)) (a : Adapter)
  (σ : gmap nat (object S)) (l : nat) (o : object S) :
  instance_ a = Some l -> σ !! l = Some o ->
  n_features_in_ a = Some (shape1 X) -> check_array X = Ok X ->
  Creme2SKLTransformer.transform X (a, σ)
  = (Ok (map (transform_one (state o)) (feature_maps X)), (a, σ)).
Proof.
  intros Hl Ho Hn HX. unfold Creme2SKLTransformer.transform.
  erewrite bind_Ok by (by eapply check_is_fitted_ok).
  rewrite HX. erewrite bind_Ok by apply lift_eval.
  erewrite bind_Ok by (by apply check_n_features_ok).
  rewrite <- map_feature_maps.
  apply mapM_SKM_pure, Forall_forall. intros xy _.
  by apply (call_instance_eval (fun s => transform_one s (fst xy)) a σ l o).
Qed.

Lemma classifier_predict_eval (X : list (list Z)) (a : Adapter)
  (σ : gmap nat (object S)) (l : nat) (o : object S) :
  instance_ a = Some l -> σ !! l = Some o ->
  n_features_in_ a = Some (shape1 X) -> check_array X = Ok X ->
  Creme2SKLClassifier.predict X (a, σ)
  = (match label_encoder_ a with
     | Some enc => decode enc (map (predict_one (state o)) (feature_maps X))
     | None => Ok (map (predict_one (state o)) (feature_maps X))
     end, (a, σ)).
Proof.
  intros Hl Ho Hn HX. unfold Creme2SKLClassifier.predict.
  erewrite bind_Ok by (by eapply check_is_fitted_ok).
  rewrite HX. erewrite bind_Ok by apply lift_eval.
  erewrite bind_Ok by (by apply check_n_features_ok).
  erewrite bind_Ok.
  2:{ apply (mapM_SKM_pure _ (fun xy => predict_one (state o) (fst xy))),
        Forall_forall. intros xy _.
      by apply (call_instance_eval (fun s => predict_one s (fst xy)) a σ l o). }
  erewrite bind_Ok by reflexivity. cbn [fst].
  rewrite map_feature_maps. by destruct (label_encoder_ a).
Qed.

Lemma classifier_predict_proba_eval (X : list (list Z)) (a : Adapter)
  (σ : gmap nat (object S)) (l : nat) (o : object S) (cs : list Z) :
  instance_ a = Some l -> σ !! l = Some o -> classes_ a = Some cs ->
  n_features_in_ a = Some (shape1 X) -> check_array X = Ok X ->
  Creme2SKLClassifier.predict_proba X (a, σ)
  = (Ok (map (fun x => reshape_probas cs (predict_proba_one (state o) x))
             (feature_maps X)), (a, σ)).
Proof.
  intros Hl Ho Hcs Hn HX. unfold Creme2SKLClassifier.predict_proba.
  erewrite bind_Ok by (by eapply check_is_fitted_ok).
  rewrite HX. erewrite bind_Ok by apply lift_eval.
  erewrite bind_Ok by (by apply check_n_features_ok).
  rewrite <- (map_feature_maps
                (fun x => reshape_probas cs (predict_proba_one (state o) x))).
  apply mapM_SKM_pure, Forall_forall. intros xy _.
  erewrite bind_Ok
    by (by apply (call_instance_eval (fun s => predict_proba_one s (fst xy)) a σ l o)).
  erewrite bind_Ok.
  2:{ unfold Creme2SKLClassifier.the_classes, self, mbind, SKM_bind.
      cbn [fst]. rewrite Hcs. reflexivity. }
  reflexivity.
Qed.

(** X9 ([fit] then [predict], regressor).
    After [fit] on valid arguments, [predict] on a valid table of the same
    width returns, for each row, the prediction of the estimator that
    started from the state of the caller's estimator and learned the rows
    of the fit in order. *)
Theorem X9_regressor_fit_then_predict (X : list (list Z)) (y : list Z)
  (X' : list (list Z)) (a : Adapter) (σ : gmap nat (object S)) (ot : object S) :
  σ !! estimator a = Some ot ->
  check_X_y X (Some y) = Ok (X, y) ->
  check_array X' = Ok X' -> shape1 X' = shape1 X ->
  fst (Creme2SKLRegressor.predict X' (snd (Creme2SKLRegressor.fit X (Some y) (a, σ))))
  = Ok (map (predict_one (learn (iter_array X (Some y)) (state ot)))
            (feature_maps X')).
Proof.
  intros Hot HX HX' Hw. rewrite (fit_regressor X y a σ ot Hot HX). cbn [snd].
  erewrite regressor_predict_eval; cycle 1.
  - reflexivity.
  - apply lookup_insert_eq.
  - cbn. by rewrite Hw.
  - exact HX'.
  - reflexivity.
Qed.

(** X10 ([fit] then [predict] and [predict_proba], classifier).
    After [fit] on valid arguments, [predict] on a valid table of the same
    width returns the predictions of the fitted instance as they are when
    the estimator is a [MultiClassifier]; otherwise each prediction is read
    as a position in the sorted distinct labels of the fit and replaced by
    the label at that position, [ValueError] when there is none.
    [predict_proba] returns for each row the probabilities of the sorted
    distinct labels of the fit, in that order, 0 for a label the instance
    gives no probability. *)
Theorem X10_classifier_fit_then_predict (X : list (list Z)) (y : list Z)
  (X' : list (list Z)) (a : Adapter) (σ : gmap nat (object S)) (ot : object S) :
  σ !! estimator a = Some ot ->
  check_X_y X (Some y) = Ok (X, y) ->
  check_array X' = Ok X' -> shape1 X' = shape1 X ->
  let s' := learn (streamed ClassifierAdapter (cls ot) (unique_labels y) X (Some y))
                  (state ot) in
  fst (Creme2SKLClassifier.predict X'
         (snd (Creme2SKLClassifier.fit X (Some y) (a, σ))))
  = (if MultiClassifier (cls ot)
     then Ok (map (predict_one s') (feature_maps X'))
     else decode (unique_labels y) (map (predict_one s') (feature_maps X')))
  /\ fst (Creme2SKLClassifier.predict_proba X'
            (snd (Creme2SKLClassifier.fit X (Some y) (a, σ))))
     = Ok (map (fun x => reshape_probas (unique_labels y) (predict_proba_one s' x))
               (feature_maps X')).
Proof.
  intros Hot HX HX' Hw s'. rewrite (fit_classifier X y a σ ot Hot HX). cbn [snd].
  split.
  - erewrite classifier_predict_eval; cycle 1.
    + reflexivity.
    + apply lookup_insert_eq.
    + cbn. by rewrite Hw.
    + exact HX'.
    + cbn [fst label_encoder_ state]. fold s'.
      by destruct (MultiClassifier (cls ot)).
  - erewrite classifier_predict_proba_eval; cycle 1.
    + reflexivity.
    + apply lookup_insert_eq.
    + reflexivity.
    + cbn. by rewrite Hw.
    + exact HX'.
    + reflexivity.
Qed.

(** X11 (a transformer that is not supervised).
    For an estimator that is not a [SupervisedTransformer], [fit] with a
    target of the right length does what [fit] without target does: the
    target is validated and never given to [fit_one].  [transform] then
    returns, for each row, [transform_one] of the instance that learned the
    rows of the fit. *)
Theorem X11_transformer_fit_ignores_target (X : list (list Z)) (y : list Z)
  (X' : list (list Z)) (a : Adapter) (σ : gmap nat (object S)) (ot : object S) :
  σ !! estimator a = Some ot ->
  SupervisedTransformer (cls ot) = false ->
  check_X_y X (Some y) = Ok (X, y) ->
  check_array X' = Ok X' -> shape1 X' = shape1 X ->
  Creme2SKLTransformer.fit X (Some y) (a, σ) = Creme2SKLTransformer.fit X None (a, σ)
  /\ fst (Creme2SKLTransformer.transform X'
            (snd (Creme2SKLTransformer.fit X (Some y) (a, σ))))
     = Ok (map (transform_one (learn (iter_array X None) (state ot)))
               (feature_maps X')).
Proof.
  intros Hot Hsup HX HX' Hw.
  pose proof (check_X_y_array X y HX) as HXa.
  rewrite (fit_transformer X (Some y) a σ ot Hot HX).
  rewrite (fit_transformer X None a σ ot Hot HXa).
  unfold streamed. rewrite Hsup. split; [reflexivity |]. cbn [snd].
  erewrite transformer_transform_eval; cycle 1.
  - reflexivity.
  - apply lookup_insert_eq.
  - cbn. by rewrite Hw.
  - exact HX'.
  - reflexivity.
Qed.

End Results.

(** X8 (label codes).
    The encoder the classifier adapter fits on [classes_] gives every label
    among them a code that is a position in the encoder, and decoding the
    codes, as [predict] does, gives the labels back. *)
Theorem X8_label_codes_round_trip (enc y : list Z) :
  Forall (fun l => l ∈ enc) y ->
  exists c, encode enc y = Ok c
            /\ decode enc c = Ok y
            /\ Forall (fun k => 0 <= k < Z.of_nat (length enc)) c.
Proof.
  induction 1 as [| l y Hl _ (c & He & Hd & Hr)].
  - exists []. by repeat split.
  - destruct (list_find_elem_of (fun c => c = l) enc l Hl eq_refl) as [[i x] Hf].
    pose proof Hf as Hf'. apply list_find_Some in Hf' as (Hi & -> & _).
    exists (Z.of_nat i :: c). unfold encode, decode in *.
    rewrite !mapM_result_cons, Hf, He, Hd.
    destruct (decide (0 <= Z.of_nat i)); [| lia].
    rewrite Nat2Z.id, Hi. repeat split.
    constructor; [| exact Hr]. apply lookup_lt_Some in Hi. lia.
Qed.

(** *** The properties at concrete calls *)

Lemma X1_inference_leaves_the_adapter_witness :
  snd (run ClassifierAdapter (PredictProba [[3; 4]])
         (snd (fit ClassifierAdapter [[1; 2]] (Some [5]) (adapter0, store0))))
  = snd (fit ClassifierAdapter [[1; 2]] (Some [5]) (adapter0, store0)).
Proof. apply X1_inference_leaves_the_adapter. reflexivity. Defined.

Lemma X2_inference_before_fit_witness :
  run TransformerAdapter (Transform [[1; 2]]) (adapter0, store0)
  = (Raise NotFittedError, (adapter0, store0)).
Proof. apply X2_inference_before_fit; reflexivity. Defined.

Lemma X3_inference_other_width_witness :
  run RegressorAdapter (Predict [[1; 2; 3]])
    (snd (fit RegressorAdapter [[1; 2]] (Some [5]) (adapter0, store0)))
  = (Raise ValueError,
     snd (fit RegressorAdapter [[1; 2]] (Some [5]) (adapter0, store0))).
Proof.
  eapply X3_inference_other_width;
    [ reflexivity | reflexivity | discriminate
    | vm_compute; reflexivity | vm_compute; reflexivity
    | reflexivity | vm_compute; lia ].
Defined.

Lemma X4_fit_invalid_input_witness :
  fst (fit RegressorAdapter [[1; 2]; [3]] (Some [5; 6])
         (snd (fit RegressorAdapter [[1; 2]] (Some [5]) (adapter0, store0))))
  = Raise ValueError
  /\ instance_ (fst (snd (fit RegressorAdapter [[1; 2]; [3]] (Some [5; 6])
         (snd (fit RegressorAdapter [[1; 2]] (Some [5]) (adapter0, store0))))))
     = None.
Proof.
  destruct (X4_fit_invalid_input RegressorAdapter [[1; 2]; [3]] (Some [5; 6])
              (snd (fit RegressorAdapter [[1; 2]] (Some [5]) (adapter0, store0))))
    as (H1 & H2 & _); [| by split].
  cbn. discriminate.
Defined.

Lemma X5_partial_fit_other_width_witness :
  fst (partial_fit ClustererAdapter [[1; 2; 3]] None None
         (snd (fit ClustererAdapter [[1; 2]] None (adapter0, store0))))
  = Raise ValueError.
Proof.
  eapply X5_partial_fit_other_width;
    [ vm_compute; reflexivity | reflexivity | vm_compute; lia ].
Defined.

Lemma X6_classifier_partial_fit_classes_witness :
  Creme2SKLClassifier.partial_fit [[1; 2]] (Some [0]) None (adapter0, store0)
  = (Raise ValueError, (adapter0, store0)).
Proof. apply X6_classifier_partial_fit_classes. reflexivity. Defined.

Lemma X7_classifier_label_outside_classes_witness :
  fst (Creme2SKLClassifier.partial_fit [[1; 2]] (Some [2]) (Some [0; 1])
         (adapter0, store0))
  = Raise ValueError.
Proof.
  eapply (X7_classifier_label_outside_classes [[1; 2]] [2] (Some [0; 1]) [0; 1]).
  - reflexivity.
  - reflexivity.
  - intros n Hn. discriminate.
  - intros H. apply Forall_cons_1 in H as [H _].
    apply (bool_decide_pack _) in H. vm_compute in H. exact H.
Defined.

Lemma X8_label_codes_round_trip_witness :
  exists c, encode [3; 5; 8] [5; 3] = Ok c
            /\ decode [3; 5; 8] c = Ok [5; 3]
            /\ Forall (fun k => 0 <= k < Z.of_nat (length [3; 5; 8])) c.
Proof.
  apply X8_label_codes_round_trip.
  apply (bool_decide_unpack _). vm_compute. exact I.
Defined.

Lemma X9_regressor_fit_then_predict_witness :
  fst (Creme2SKLRegressor.predict [[7; 8]; [9; 10]]
         (snd (Creme2SKLRegressor.fit [[1; 2]; [3; 4]] (Some [5; 6])
                 (adapter0, store0))))
  = Ok (map (predict_one
               (learn (iter_array [[1; 2]; [3; 4]] (Some [5; 6])) (state template0)))
            (feature_maps [[7; 8]; [9; 10]])).
Proof. apply X9_regressor_fit_then_predict; reflexivity. Defined.

Lemma X10_classifier_fit_then_predict_witness :
  fst (Creme2SKLClassifier.predict_proba [[7; 8]]
         (snd (Creme2SKLClassifier.fit [[1; 2]; [3; 4]] (Some [5; 6])
                 (adapter0, store0))))
  = Ok (map (fun x =>
               reshape_probas (unique_labels [5; 6])
                 (predict_proba_one
                    (learn (streamed ClassifierAdapter (cls template0)
                              (unique_labels [5; 6]) [[1; 2]; [3; 4]] (Some [5; 6]))
                           (state template0)) x))
            (feature_maps [[7; 8]])).
Proof.
  apply (X10_classifier_fit_then_predict [[1; 2]; [3; 4]] [5; 6] [[7; 8]]
           adapter0 store0 template0); reflexivity.
Defined.

Lemma X11_transformer_fit_ignores_target_witness :
  Creme2SKLTransformer.fit [[1; 2]; [3; 4]] (Some [5; 6]) (adapter1, store1)
  = Creme2SKLTransformer.fit [[1; 2]; [3; 4]] None (adapter1, store1).
Proof.
  apply (X11_transformer_fit_ignores_target [[1; 2]; [3; 4]] [5; 6] [[7; 8]]
           adapter1 store1 transformer0); reflexivity.
Defined.

End adapter_props.


(** ** Properties of [convert_creme_to_sklearn] *)

Module conversion_props.
Import creme_to_sklearn creme_to_sklearn_spec creme_to_sklearn_props adapter_props.

Section Conversion.
Context {S : Type} `{!Estimator S}.
Variable P : Type.
Variable pipeline_Pipeline : list (string * converted P) -> result P.

Local Abbreviation convert := (convert_creme_to_sklearn P pipeline_Pipeline).

Lemma convert_plain (l : nat) (store : gmap nat (object S)) (o : object S) :
  store !! l = Some o ->
  convert (Plain l) store
  = match wrapper_of (cls o) with
    | Some v =>
        (Ok (Wrapped v (mkAdapter l (Some (fresh (dom store))) None None None None)),
         <[fresh (dom store) := o]> store)
    | None => (Raise ValueError, store)
    end.
Proof.
  intros Hl. destruct o as [[r b m t st c] s].
  assert (Hwrap : forall (v : variant) (expected : bool),
    construct v l store
    = (if expected then Ok (mkAdapter l None None None None None)
       else Raise ValueError) ->
    expected = true ->
    wrap P v l store
    = (Ok (Wrapped v (mkAdapter l (Some (fresh (dom store))) None None None None)),
       <[fresh (dom store) := mkObj (mkBases r b m t st c) s]> store)).
  { intros v expected Hc ->. unfold wrap. rewrite Hc.
    unfold deepcopy, deref, allocate, set_self. unfold mbind, SKM_bind.
    cbn [fst snd]. rewrite Hl. reflexivity. }
  assert (Hconstruct : forall v,
    construct v l store
    = (if match v with
          | RegressorAdapter => r
          | ClassifierAdapter => b || m
          | TransformerAdapter => t
          | ClustererAdapter => c
          end
       then Ok (mkAdapter l None None None None None)
       else Raise ValueError)).
  { intros v. destruct v; unfold construct, Creme2SKLRegressor.__init__,
      Creme2SKLClassifier.__init__, Creme2SKLTransformer.__init__,
      Creme2SKLClusterer.__init__, init; by rewrite Hl. }
  cbn [convert_creme_to_sklearn first_wrapper wrappers]. rewrite Hl.
  unfold wrapper_of.
  cbn [cls BinaryClassifier Clusterer MultiClassifier Regressor Transformer].
  destruct b.
  { cbv beta iota. eapply Hwrap; [apply Hconstruct | reflexivity]. }
  destruct c.
  { cbv beta iota. eapply Hwrap; [apply Hconstruct | reflexivity]. }
  destruct m.
  { cbv beta iota. eapply Hwrap; [apply Hconstruct | reflexivity]. }
  destruct r.
  { cbv beta iota. eapply Hwrap; [apply Hconstruct | reflexivity]. }
  destruct t.
  { cbv beta iota. eapply Hwrap; [apply Hconstruct | reflexivity]. }
  reflexivity.
Qed.

(** X19 (conversion of an estimator that is not a pipeline).
    [convert_creme_to_sklearn] raises [ValueError] exactly when the
    estimator derives from none of [BinaryClassifier], [Clusterer],
    [MultiClassifier], [Regressor] and [Transformer].  Otherwise it returns
    an adapter, never a pipeline: the adapter is of the class of the first
    of these base types the estimator derives from, its constructor accepts
    the estimator, [estimator] is the object given and [instance_] is a new
    copy of it. *)
Theorem X19_convert_plain_estimator (l : nat) (σ : gmap nat (object S)) (o : object S) :
  σ !! l = Some o ->
  (fst (convert (Plain l) σ) = Raise ValueError
   <-> BinaryClassifier (cls o) || Clusterer (cls o) || MultiClassifier (cls o)
       || Regressor (cls o) || Transformer (cls o) = false)
  /\ (forall v a,
        fst (convert (Plain l) σ) = Ok (Wrapped v a) ->
        wrapper_of (cls o) = Some v
        /\ construct v l σ = Ok (mkAdapter l None None None None None)
        /\ a = mkAdapter l (Some (fresh (dom σ))) None None None None
        /\ snd (convert (Plain l) σ) !! fresh (dom σ) = Some o)
  /\ (forall p, fst (convert (Plain l) σ) <> Ok (SKPipeline p)).
Proof.
  intros Hl. rewrite (convert_plain l σ o Hl).
  assert (Hflags : wrapper_of (cls o) = None
                   <-> BinaryClassifier (cls o) || Clusterer (cls o)
                       || MultiClassifier (cls o) || Regressor (cls o)
                       || Transformer (cls o) = false).
  { unfold wrapper_of.
    destruct (BinaryClassifier (cls o)), (Clusterer (cls o)),
      (MultiClassifier (cls o)), (Regressor (cls o)), (Transformer (cls o));
      cbn; split; (discriminate || reflexivity). }
  split; [| split].
  - rewrite <- Hflags. destruct (wrapper_of (cls o)); cbn; split; done.
  - intros v a. destruct (wrapper_of (cls o)) as [v' |] eqn:Hw; [| discriminate].
    cbn [fst snd]. intros [= <- <-]. repeat split.
    + unfold wrapper_of in Hw.
      destruct v'; unfold construct, Creme2SKLRegressor.__init__,
        Creme2SKLClassifier.__init__, Creme2SKLTransformer.__init__,
        Creme2SKLClusterer.__init__, init; rewrite Hl;
        destruct (BinaryClassifier (cls o)), (Clusterer (cls o)),
          (MultiClassifier (cls o)), (Regressor (cls o)), (Transformer (cls o));
        (discriminate || reflexivity).
    + apply lookup_insert_eq.
  - intros p. by destruct (wrapper_of (cls o)).
Qed.

Lemma keeps_refl (σ : gmap nat (object S)) : keeps σ σ.
Proof. by intros l o Hl. Qed.

Lemma keeps_trans (σ1 σ2 σ3 : gmap nat (object S)) :
  keeps σ1 σ2 -> keeps σ2 σ3 -> keeps σ1 σ3.
Proof. intros H12 H23 l o Hl. by apply H23, H12. Qed.

Lemma keeps_allocate (σ : gmap nat (object S)) (o : object S) :
  keeps σ (<[fresh (dom σ) := o]> σ).
Proof.
  intros l o' Hl. rewrite lookup_insert_ne; [exact Hl |].
  intros <-. apply elem_of_dom_2 in Hl. by apply is_fresh in Hl.
Qed.

Lemma convert_plain_keeps (l : nat) (σ : gmap nat (object S)) :
  keeps σ (snd (convert (Plain l) σ)).
Proof.
  destruct (σ !! l) as [o |] eqn:Hl.
  - rewrite (convert_plain l σ o Hl).
    destruct (wrapper_of (cls o)); [apply keeps_allocate | apply keeps_refl].
  - cbn. rewrite Hl. apply keeps_refl.
Qed.

Lemma convert_steps_cons (name : string) (step : creme_estimator)
  (steps : list (string * creme_estimator)) (σ : gmap nat (object S)) :
  convert_steps P convert ((name, step) :: steps) σ
  = match convert step σ with
    | (Ok c, σ1) =>
        match convert_steps P convert steps σ1 with
        | (Ok cs, σ2) => (Ok ((name, c) :: cs), σ2)
        | (Raise e, σ2) => (Raise e, σ2)
        end
    | (Raise e, σ1) => (Raise e, σ1)
    end.
Proof. reflexivity. Qed.

Lemma convert_steps_keeps (steps : list (string * creme_estimator)) :
  Forall (fun ns => forall σ : gmap nat (object S),
                      keeps σ (snd (convert (snd ns) σ))) steps ->
  forall σ : gmap nat (object S), keeps σ (snd (convert_steps P convert steps σ)).
Proof.
  induction 1 as [| [name step] steps Hstep _ IH]; intros σ; [apply keeps_refl |].
  rewrite convert_steps_cons. cbn [snd] in Hstep. specialize (Hstep σ).
  destruct (convert step σ) as [[c | e] σ1]; [| exact Hstep].
  specialize (IH σ1).
  destruct (convert_steps P convert steps σ1) as [[cs | e] σ2];
    exact (keeps_trans _ _ _ Hstep IH).
Qed.

Lemma convert_keeps_the_store (e : creme_estimator) (σ : gmap nat (object S)) :
  keeps σ (snd (convert e σ)).
Proof.
  revert σ. induction e as [l | steps IH] using creme_estimator_steps_ind; intros σ.
  - apply convert_plain_keeps.
  - cbn [convert_creme_to_sklearn].
    pose proof (convert_steps_keeps steps IH σ) as Hk.
    destruct (convert_steps P convert steps σ) as [[cs | err] σ']; exact Hk.
Qed.




Lemma convert_steps_copies (steps : list (string * creme_estimator)) :
  Forall (fun ns => forall (σ : gmap nat (object S)) l o',
            snd (convert (snd ns) σ) !! l = Some o' ->
            σ !! l = Some o'
            \/ exists l0, l0 ∈ leaves (snd ns) /\ σ !! l0 = Some o') steps ->
  forall (σ : gmap nat (object S)) l o',
    snd (convert_steps P convert steps σ) !! l = Some o' ->
    σ !! l = Some o'
    \/ exists l0, l0 ∈ flat_map (fun ns => leaves (snd ns)) steps /\ σ !! l0 = Some o'.
Proof.
  induction 1 as [| [name step] steps Hstep _ IH]; intros σ l o' Hl; [by left |].
  rewrite convert_steps_cons in Hl. cbn [flat_map snd] in *.
  specialize (Hstep σ).
  destruct (convert step σ) as [[c | e] σ1].
  - assert (Hl1 : snd (convert_steps P convert steps σ1) !! l = Some o').
    { by destruct (convert_steps P convert steps σ1) as [[cs | e] σ2]. }
    destruct (IH σ1 l o' Hl1) as [H1 | (l0 & Hin & H1)].
    + destruct (Hstep l o' H1) as [H0 | (l0 & Hin & H0)]; [by left |].
      right. exists l0. split; [| exact H0]. apply elem_of_app. by left.
    + destruct (Hstep l0 o' H1) as [H0 | (l1 & Hin1 & H0)]; right.
      * exists l0. split; [| exact H0]. apply elem_of_app. by right.
      * exists l1. split; [| exact H0]. apply elem_of_app. by left.
  - destruct (Hstep l o' Hl) as [H0 | (l0 & Hin & H0)]; [by left |].
    right. exists l0. split; [| exact H0]. apply elem_of_app. by left.
Qed.

(** X20 (the conversion writes to no estimator).
    Whether it returns or raises, [convert_creme_to_sklearn] leaves every
    object of the store as it was, and every object it adds is a copy of
    one of the estimators that occur in its argument. *)
Theorem X20_convert_copies_only (e : creme_estimator) (σ : gmap nat (object S)) :
  keeps σ (snd (convert e σ))
  /\ forall l o', snd (convert e σ) !! l = Some o' ->
                  σ !! l = Some o' \/ exists l0, l0 ∈ leaves e /\ σ !! l0 = Some o'.
Proof.
  split; [apply convert_keeps_the_store |]. revert σ.
  induction e as [l0 | steps IH] using creme_estimator_steps_ind; intros σ l o' Hl.
  - destruct (σ !! l0) as [o |] eqn:Hl0.
    + rewrite (convert_plain l0 σ o Hl0) in Hl.
      destruct (wrapper_of (cls o)); [| by left]. cbn [snd] in Hl.
      destruct (decide (l = fresh (dom σ))) as [-> | Hne].
      * rewrite lookup_insert_eq in Hl. injection Hl as <-.
        right. exists l0. split; [by apply list_elem_of_singleton | exact Hl0].
      * rewrite lookup_insert_ne in Hl by done. by left.
    + cbn in Hl. rewrite Hl0 in Hl. by left.
  - cbn [convert_creme_to_sklearn leaves] in *.
    apply (convert_steps_copies steps IH σ l o').
    by destruct (convert_steps P convert steps σ) as [[cs | err] σ'].
Qed.

Lemma convert_steps_raises (steps : list (string * creme_estimator)) (l : nat)
  (o : object S) :
  Forall (fun ns => forall σ : gmap nat (object S),
            σ !! l = Some o -> l ∈ leaves (snd ns) ->
            exists err, fst (convert (snd ns) σ) = Raise err) steps ->
  forall σ : gmap nat (object S),
    σ !! l = Some o -> l ∈ flat_map (fun ns => leaves (snd ns)) steps ->
    exists err, fst (convert_steps P convert steps σ) = Raise err.
Proof.
  induction 1 as [| [name step] steps Hstep _ IH]; intros σ Hl Hin.
  - by apply not_elem_of_nil in Hin.
  - rewrite convert_steps_cons. cbn [flat_map snd] in Hin, Hstep.
    pose proof (convert_keeps_the_store step σ) as Hkeep.
    destruct (convert step σ) as [[c | e] σ1] eqn:Hconv; [| by exists e].
    apply elem_of_app in Hin as [Hin | Hin].
    + destruct (Hstep σ Hl Hin) as [err Herr]. rewrite Hconv in Herr. discriminate.
    + destruct (IH σ1 (Hkeep l o Hl) Hin) as [err Herr].
      destruct (convert_steps P convert steps σ1) as [[cs | e] σ2]; [discriminate |].
      by exists e.
Qed.

(** X22 (a step that cannot be wrapped).
    When an estimator that occurs in the argument, as the argument itself
    or as a step of a pipeline at any depth, derives from none of the base
    types of [wrappers], [convert_creme_to_sklearn] raises. *)
Theorem X22_convert_unsupported_step (e : creme_estimator) (σ : gmap nat (object S))
  (l : nat) (o : object S) :
  l ∈ leaves e -> σ !! l = Some o -> wrapper_of (cls o) = None ->
  exists err, fst (convert e σ) = Raise err.
Proof.
  intros Hin Hl Hw. revert σ Hl Hin.
  induction e as [l0 | steps IH] using creme_estimator_steps_ind; intros σ Hl Hin.
  - cbn [leaves] in Hin. apply list_elem_of_singleton in Hin as ->.
    rewrite (convert_plain l0 σ o Hl), Hw. by exists ValueError.
  - cbn [leaves] in Hin. cbn [convert_creme_to_sklearn].
    destruct (convert_steps_raises steps l o IH σ Hl Hin) as [err Herr].
    destruct (convert_steps P convert steps σ) as [[cs | e] σ']; [discriminate |].
    by exists e.
Qed.

Lemma convert_steps_chain (steps : list (string * creme_estimator))
  (σ σ' : gmap nat (object S)) (cs : list (string * converted P)) :
  convert_steps P convert steps σ = (Ok cs, σ') ->
  exists σs : list (gmap nat (object S)),
    length σs = Datatypes.S (length steps)
    /\ σs !! 0%nat = Some σ /\ σs !! length steps = Some σ'
    /\ length cs = length steps
    /\ forall i name step,
         steps !! i = Some (name, step) ->
         exists c σi σi',
           σs !! i = Some σi /\ σs !! Datatypes.S i = Some σi'
           /\ convert step σi = (Ok c, σi')
           /\ cs !! i = Some (name, c).
Proof.
  revert σ σ' cs. induction steps as [| [name0 step0] steps IH]; intros σ σ' cs.
  - cbn. intros [= <- <-]. exists [σ]. repeat split. intros i name step Hi.
    discriminate.
  - rewrite convert_steps_cons.
    destruct (convert step0 σ) as [[c0 | e] σ1] eqn:Hstep; [| discriminate].
    destruct (convert_steps P convert steps σ1) as [[cs' | e] σ2] eqn:Hrest;
      [| discriminate].
    intros [= <- <-].
    destruct (IH σ1 σ2 cs' Hrest) as (σs & Hlen & Hhead & Hlast & Hcs & Hall).
    exists (σ :: σs). cbn [length]. repeat split.
    + by rewrite Hlen.
    + exact Hlast.
    + by rewrite Hcs.
    + intros [| i] name step Hi.
      * injection Hi as <- <-. exists c0, σ, σ1. by repeat split.
      * cbn in Hi. destruct (Hall i name step Hi) as (c & σi & σi' & H1 & H2 & H3 & H4).
        exists c, σi, σi'. by repeat split.
Qed.

(** X23 (conversion of a pipeline).
    When [convert_creme_to_sklearn] returns for a pipeline, the result is
    what the constructor of sklearn's [Pipeline] made of the list of the
    converted steps: the list has an entry for each step of the argument,
    in their order, which pairs the name of the step with the conversion
    of the step, made in the store the conversions of the steps before it
    left. *)
Theorem X23_convert_pipeline_steps (steps : list (string * creme_estimator))
  (σ σ' : gmap nat (object S)) (r : converted P) :
  convert (Pipeline steps) σ = (Ok r, σ') ->
  exists (cs : list (string * converted P)) (p : P)
         (σs : list (gmap nat (object S))),
    r = SKPipeline p /\ pipeline_Pipeline cs = Ok p
    /\ length cs = length steps
    /\ length σs = Datatypes.S (length steps)
    /\ σs !! 0%nat = Some σ /\ σs !! length steps = Some σ'
    /\ forall i name step,
         steps !! i = Some (name, step) ->
         exists c σi σi',
           σs !! i = Some σi /\ σs !! Datatypes.S i = Some σi'
           /\ convert step σi = (Ok c, σi')
           /\ cs !! i = Some (name, c).
Proof.
  cbn [convert_creme_to_sklearn]. intros Hconv.
  destruct (convert_steps P convert steps σ) as [[cs | e] σ1] eqn:Hsteps;
    [| discriminate].
  destruct (pipeline_Pipeline cs) as [p |] eqn:Hp; [| discriminate].
  injection Hconv as <- <-.
  destruct (convert_steps_chain steps σ σ1 cs Hsteps)
    as (σs & Hlen & Hhead & Hlast & Hcs & Hall).
  exists cs, p, σs. repeat split; try assumption.
Qed.

End Conversion.

(** *** The properties at concrete inputs *)

Lemma X19_convert_plain_estimator_witness :
  fst (convert_creme_to_sklearn nat pipeline_count (Plain 2) store2)
  = Raise ValueError
  <-> BinaryClassifier (cls stranger0) || Clusterer (cls stranger0)
      || MultiClassifier (cls stranger0) || Regressor (cls stranger0)
      || Transformer (cls stranger0) = false.
Proof.
  apply (X19_convert_plain_estimator nat pipeline_count 2 store2 stranger0).
  reflexivity.
Defined.


Lemma X22_convert_unsupported_step_witness :
  exists err,
    fst (convert_creme_to_sklearn nat pipeline_count
           (Pipeline [("scale", Plain 1); ("odd", Pipeline [("inner", Plain 2)])])
           store2)
    = Raise err.
Proof.
  apply (X22_convert_unsupported_step nat pipeline_count _ store2 2 stranger0).
  - cbn. apply (bool_decide_unpack _). vm_compute. exact I.
  - reflexivity.
  - reflexivity.
Defined.

Lemma X23_convert_pipeline_steps_witness :
  exists (cs : list (string * converted nat)) (p : nat)
         (σs : list (gmap nat (object (list (gmap nat Z * option Z))))),
    SKPipeline 2%nat = SKPipeline p /\ pipeline_count cs = Ok p
    /\ length cs = length [("scale", Plain 1); ("model", Plain 1)]
    /\ length σs = Datatypes.S (length [("scale", Plain 1); ("model", Plain 1)])
    /\ σs !! 0%nat = Some store2
    /\ σs !! length [("scale", Plain 1); ("model", Plain 1)]
       = Some (snd (convert_creme_to_sklearn nat pipeline_count
                      (Pipeline [("scale", Plain 1); ("model", Plain 1)]) store2))
    /\ forall i name step,
         [("scale", Plain 1); ("model", Plain 1)] !! i = Some (name, step) ->
         exists c σi σi',
           σs !! i = Some σi /\ σs !! Datatypes.S i = Some σi'
           /\ convert_creme_to_sklearn nat pipeline_count step σi = (Ok c, σi')
           /\ cs !! i = Some (name, c).
Proof.
  apply (X23_convert_pipeline_steps nat pipeline_count
           [("scale", Plain 1); ("model", Plain 1)] store2).
  reflexivity.
Defined.

End conversion_props.
